(** * Resource-allocation alternatives (lab2/algorithms.py)

    Shallow embedding of the alternative-generation engine of
    [src/lab2/algorithms.py]: the five allocation strategies, the duplicate
    removal, the normalisation and the final ranking performed by
    [generate_alternatives].

    Modelling conventions.
    - Python [float] hours and scores are modelled by exact rationals [Q].
      Every concrete input used below is dyadic, so that the float
      computations of the source agree with the rational ones on it.
    - Python [str] values are lists of Unicode code points ([pystr]); string
      literals are written in UTF-8 and decoded by [u].
    - A [dict] keyed by ids whose iteration order is never observed is a
      total function [Z -> Q] updated pointwise; a [dict] whose insertion
      order is observed is an association list kept in insertion order.
    - Python's [sorted]/[list.sort] are stable; they are modelled by a stable
      insertion sort, whose result is the unique stable sort of the input.
    - The [while] loops of strategies 4 and 5 are run with a fuel bound: a
      computation that exhausts it yields [OutOfFuel]. *)

From Stdlib Require Import ZArith QArith Qround Qminmax List String Ascii Bool Lia Lqa Permutation Sorted.
Import ListNotations.

Open Scope Q_scope.

(** ** Python helpers *)

(** Python strings: lists of code points. *)
Definition pystr := list Z.

(** UTF-8 decoding of a string literal (1, 2 and 3 byte sequences). *)
Fixpoint utf8_decode (s : string) : pystr :=
  match s with
  | EmptyString => []
  | String c1 s1 =>
      let b1 := Z.of_nat (nat_of_ascii c1) in
      if (b1 <? 128)%Z then b1 :: utf8_decode s1
      else if (b1 <? 224)%Z then
        match s1 with
        | String c2 s2 =>
            let b2 := Z.of_nat (nat_of_ascii c2) in
            (Z.land b1 31 * 64 + Z.land b2 63)%Z :: utf8_decode s2
        | EmptyString => [b1]
        end
      else
        match s1 with
        | String c2 (String c3 s3) =>
            let b2 := Z.of_nat (nat_of_ascii c2) in
            let b3 := Z.of_nat (nat_of_ascii c3) in
            (Z.land b1 15 * 4096 + Z.land b2 63 * 64 + Z.land b3 63)%Z
              :: utf8_decode s3
        | _ => [b1]
        end
  end.

Definition u (s : string) : pystr := utf8_decode s.

(** [str.lower] on the Latin and Cyrillic letters (the scripts of the
    keyword table); other code points are left unchanged. *)
Definition py_lower_char (c : Z) : Z :=
  if ((65 <=? c) && (c <=? 90))%Z then (c + 32)%Z
  else if ((1040 <=? c) && (c <=? 1071))%Z then (c + 32)%Z
  else if ((1024 <=? c) && (c <=? 1039))%Z then (c + 80)%Z
  else c.

Definition py_lower (s : pystr) : pystr := map py_lower_char s.

Fixpoint list_Z_eqb (a b : list Z) : bool :=
  match a, b with
  | [], [] => true
  | x :: a', y :: b' => Z.eqb x y && list_Z_eqb a' b'
  | _, _ => false
  end.

Fixpoint is_prefix (p s : pystr) : bool :=
  match p, s with
  | [], _ => true
  | x :: p', y :: s' => Z.eqb x y && is_prefix p' s'
  | _ :: _, [] => false
  end.

(** [sub in s] for strings. *)
Fixpoint py_contains (s sub : pystr) : bool :=
  is_prefix sub s ||
  match s with
  | [] => false
  | _ :: s' => py_contains s' sub
  end.

(** Float comparisons [a < b] and [a <= b]. *)
Definition Qlt_bool (a b : Q) : bool := negb (Qle_bool b a).

(** Python [min(a, b)]: the first argument unless the second is smaller. *)
Definition py_min (a b : Q) : Q := if Qlt_bool b a then b else a.

(** Python [max(a, b)]: the first argument unless the second is larger. *)
Definition py_max (a b : Q) : Q := if Qlt_bool a b then b else a.

(** Python [sum(xs)]: [0 + x1 + x2 + ...]. *)
Definition py_sum (xs : list Q) : Q := fold_left Qplus xs 0.

Definition py_len {A} (l : list A) : Q := inject_Z (Z.of_nat (List.length l)).

(** Python [round(x, 1)] (round half to even on the exact value), as the
    number of tenths. *)
Definition round_half_even (y : Q) : Z :=
  let f := Qfloor y in
  let d := y - inject_Z f in
  if Qlt_bool d (1 # 2) then f
  else if Qlt_bool (1 # 2) d then (f + 1)%Z
  else if Z.even f then f else (f + 1)%Z.

Definition round1_tenths (x : Q) : Z := round_half_even (x * 10).

Definition py_round1 (x : Q) : Q := Qmake (round1_tenths x) 10.

(** Stable insertion sort for a strict order [lt]: an element is placed
    after every element it is not smaller than. *)
Fixpoint insert_by {A} (lt : A -> A -> bool) (x : A) (l : list A) : list A :=
  match l with
  | [] => [x]
  | y :: l' => if lt x y then x :: y :: l' else y :: insert_by lt x l'
  end.

Definition stable_sort {A} (lt : A -> A -> bool) (l : list A) : list A :=
  fold_left (fun acc x => insert_by lt x acc) l [].

(** Id-keyed dictionaries whose order is not observed. *)
Definition qmap := Z -> Q.

Definition upd (m : qmap) (k : Z) (v : Q) : qmap :=
  fun x => if Z.eqb x k then v else m x.

(** Result of a computation that contains [while] loops. *)
Inductive run (A : Type) : Type :=
| Returns (a : A)
| OutOfFuel.
Arguments Returns {A} a.
Arguments OutOfFuel {A}.

Definition run_bind {A B} (m : run A) (k : A -> run B) : run B :=
  match m with
  | Returns a => k a
  | OutOfFuel => OutOfFuel
  end.

Notation "x <- m ;; k" := (run_bind m (fun x => k))
  (at level 61, m at next level, right associativity).

(** One iteration of a [while] body: either go on, or [break]. *)
Inductive step (S : Type) : Type :=
| Continue (s : S)
| Break (s : S).
Arguments Continue {S} s.
Arguments Break {S} s.

Fixpoint py_while {S} (fuel : nat) (cond : S -> bool) (body : S -> step S)
    (s : S) : run S :=
  match fuel with
  | O => OutOfFuel
  | Datatypes.S f =>
      if cond s then
        match body s with
        | Continue s' => py_while f cond body s'
        | Break s' => Returns s'
        end
      else Returns s
  end.

(** ** Data model (models.py) *)

Record Resource := mkResource {
  r_id : Z;
  r_name : pystr;
  r_type : pystr;
  available_hours : Q
}.

Record Task := mkTask {
  t_id : Z;
  title : pystr;
  required_hours : Q;
  priority : Z
}.

Record Allocation := mkAllocation {
  resource_id : Z;
  task_id : Z;
  hours : Q
}.

(** The explanation of an alternative is an f-string; its text is
    determined by the values interpolated into it, which are kept here. *)
Inductive Explanation :=
| ExplPriority (coverage : Q) (top_priority : option Z)
| ExplBalanced (coverage : Q)
| ExplSpecialization (types : list pystr) (coverage : Q) (type_diversity : Z)
    (match_ratio : Q)
| ExplOverload (coverage : Q) (max_load : Q)
| ExplGreedy (coverage : Q) (efficiency : Q).

Record Alternative := mkAlternative {
  explanation : Explanation;
  score : Q;
  allocations : list Allocation
}.

(** [{r.id: r.available_hours for r in resources}] *)
Definition resource_hours_init (resources : list Resource) : qmap :=
  fold_left (fun m r => upd m (r_id r) (available_hours r)) resources
    (fun _ => 0).

(** [{t.id: t.required_hours for t in tasks}] *)
Definition task_requirements_init (tasks : list Task) : qmap :=
  fold_left (fun m t => upd m (t_id t) (required_hours t)) tasks (fun _ => 0).

Definition total_required_of (tasks : list Task) : Q :=
  py_sum (map required_hours tasks).

Definition total_available_of (resources : list Resource) : Q :=
  py_sum (map available_hours resources).

(** [sorted(tasks, key=lambda t: t.priority)] *)
Definition sort_by_priority (tasks : list Task) : list Task :=
  stable_sort (fun a b => Z.ltb (priority a) (priority b)) tasks.

(** [sorted(tasks, key=lambda t: (t.priority, -t.required_hours))] *)
Definition sort_by_priority_size (tasks : list Task) : list Task :=
  stable_sort
    (fun a b => Z.ltb (priority a) (priority b)
             || (Z.eqb (priority a) (priority b)
                 && Qlt_bool (- required_hours a) (- required_hours b)))
    tasks.

(** ** Allocation state shared by the strategies

    [st_hours] is the [resource_hours] dict (remaining capacity),
    [st_load] the [resource_allocated] dict (strategies 3-5),
    [st_allocs] the [allocations] list, [st_total] the [total_allocated]
    accumulator and [st_matches] the [type_matches] counter (strategy 3). *)
Record AState := mkAState {
  st_hours : qmap;
  st_load : qmap;
  st_allocs : list Allocation;
  st_total : Q;
  st_matches : Z
}.

Definition init_state (resources : list Resource) : AState :=
  mkAState (resource_hours_init resources) (fun _ => 0) [] 0 0.

(** One commitment of [h] hours of resource [rid] to task [tid]:
    [allocations.append(...)], [resource_hours[rid] -= h],
    [resource_allocated[rid] += h], [total_allocated += h]. *)
Definition commit (st : AState) (rid tid : Z) (h : Q) : AState :=
  mkAState (upd (st_hours st) rid (st_hours st rid - h))
           (upd (st_load st) rid (st_load st rid + h))
           (st_allocs st ++ [mkAllocation rid tid h])
           (st_total st + h)
           (st_matches st).

Definition count_match (st : AState) : AState :=
  mkAState (st_hours st) (st_load st) (st_allocs st) (st_total st)
           (st_matches st + 1).

(** The [for resource in ...] walk of strategies 1 and 3:
    [if remaining_need <= 0: break];
    [if resource_hours[r.id] > 0 (and guard r):] commit
    [min(remaining_need, resource_hours[r.id])], counting a type match when
    [counts r]. Returns the remaining need and the state. *)
Fixpoint walk (guard counts : Resource -> bool) (task : Task)
    (resources : list Resource) (need : Q) (st : AState) : Q * AState :=
  match resources with
  | [] => (need, st)
  | r :: rest =>
      if Qle_bool need 0 then (need, st)
      else if Qlt_bool 0 (st_hours st (r_id r)) && guard r then
        let h := py_min need (st_hours st (r_id r)) in
        let st' := commit st (r_id r) (t_id task) h in
        walk guard counts task rest (need - h)
          (if counts r then count_match st' else st')
      else walk guard counts task rest need st
  end.

(** Dicts [task_id -> hours] built as
    [if k not in d: d[k] = 0.0; d[k] += h]. *)
Definition omap := Z -> option Q.

Definition oadd (m : omap) (k : Z) (h : Q) : omap :=
  fun x => if Z.eqb x k then
             Some (match m k with Some v => v | None => 0 end + h)
           else m x.

Definition py_get (m : omap) (k : Z) (d : Q) : Q :=
  match m k with Some v => v | None => d end.

Definition task_coverage_of (allocs : list Allocation) : omap :=
  fold_left (fun m a => oadd m (task_id a) (hours a)) allocs (fun _ => None).

Definition hours_of_resource (allocs : list Allocation) (rid : Z) : Q :=
  py_sum (map hours (filter (fun a => Z.eqb (resource_id a) rid) allocs)).

Definition hours_of_task (allocs : list Allocation) (tid : Z) : Q :=
  py_sum (map hours (filter (fun a => Z.eqb (task_id a) tid) allocs)).

(** ** Strategy 1: [_priority_based_allocation] *)

Definition priority_run (resources : list Resource) (tasks : list Task)
    : AState :=
  let task_requirements := task_requirements_init tasks in
  fold_left
    (fun st task =>
       snd (walk (fun _ => true) (fun _ => false) task resources
              (task_requirements (t_id task)) st))
    (sort_by_priority tasks) (init_state resources).

Definition priority_coverage_value (resources : list Resource)
    (tasks : list Task) : Q :=
  let total_required := total_required_of tasks in
  if Qlt_bool 0 total_required
  then st_total (priority_run resources tasks) / total_required else 0.

Definition priority_bonus (resources : list Resource) (tasks : list Task)
    : Q :=
  let allocs := st_allocs (priority_run resources tasks) in
  let pc := task_coverage_of allocs in
  match tasks with
  | [] => 0
  | _ =>
      py_sum (map (fun t => inject_Z (6 - priority t)
                             * py_min 1 (py_get pc (t_id t) 0 / required_hours t))
                  (sort_by_priority tasks)) / py_len tasks
  end.

Definition priority_overload_penalty (resources : list Resource)
    (tasks : list Task) : Q :=
  let allocs := st_allocs (priority_run resources tasks) in
  let total_required := total_required_of tasks in
  if Qlt_bool 0 total_required then
    py_sum (map (fun r => py_max 0 (hours_of_resource allocs (r_id r)
                                    - available_hours r)) resources)
      / total_required
  else 0.

Definition priority_based_allocation (resources : list Resource)
    (tasks : list Task) : Alternative :=
  let coverage := priority_coverage_value resources tasks in
  let score := coverage * 50 + priority_bonus resources tasks * 20
               - priority_overload_penalty resources tasks * 30 in
  mkAlternative
    (ExplPriority coverage (option_map priority (hd_error (sort_by_priority tasks))))
    (py_max 0 score)
    (st_allocs (priority_run resources tasks)).

(** ** Strategy 2: [_balanced_allocation] *)

(** Inner walk: [if allocated_to_task >= task_share: break];
    [if resource_hours[r.id] > 0:] commit
    [min(task_share - allocated_to_task, resource_hours[r.id])]. *)
Fixpoint balanced_walk (task : Task) (task_share : Q)
    (resources : list Resource) (allocated_to_task : Q) (st : AState)
    : Q * AState :=
  match resources with
  | [] => (allocated_to_task, st)
  | r :: rest =>
      if Qle_bool task_share allocated_to_task then (allocated_to_task, st)
      else if Qlt_bool 0 (st_hours st (r_id r)) then
        let remaining_need := task_share - allocated_to_task in
        let h := py_min remaining_need (st_hours st (r_id r)) in
        balanced_walk task task_share rest (allocated_to_task + h)
          (commit st (r_id r) (t_id task) h)
      else balanced_walk task task_share rest allocated_to_task st
  end.

Definition balanced_run (resources : list Resource) (tasks : list Task)
    : AState :=
  let total_available := total_available_of resources in
  let total_required := total_required_of tasks in
  let task_proportions :=
    fold_left (fun m t => upd m (t_id t) (required_hours t / total_required))
      tasks (fun _ => 0) in
  fold_left
    (fun st task =>
       snd (balanced_walk task (task_proportions (t_id task) * total_available)
              resources 0 st))
    tasks (init_state resources).

(** Population variance [sum((x - mean) ** 2) / len(xs)]. *)
Definition variance (xs : list Q) : Q :=
  let mean := py_sum xs / py_len xs in
  py_sum (map (fun x => (x - mean) * (x - mean)) xs) / py_len xs.

(** [_calculate_balance_variance] *)
Definition calculate_balance_variance (resources : list Resource)
    (allocs : list Allocation) : Q :=
  let resource_load :=
    fold_left (fun m a => upd m (resource_id a) (m (resource_id a) + hours a))
      allocs (fold_left (fun m r => upd m (r_id r) 0) resources (fun _ => 0)) in
  let loads :=
    map (fun r => if Qlt_bool 0 (available_hours r)
                  then resource_load (r_id r) / available_hours r else 0)
      resources in
  match loads with
  | [] => 0
  | _ => py_min 1 (variance loads)
  end.

Definition balanced_coverage_value (resources : list Resource)
    (tasks : list Task) : Q :=
  let total_required := total_required_of tasks in
  if Qlt_bool 0 total_required
  then st_total (balanced_run resources tasks) / total_required else 0.

Definition balanced_allocation (resources : list Resource) (tasks : list Task)
    : option Alternative :=
  let total_available := total_available_of resources in
  let total_required := total_required_of tasks in
  if Qeq_bool total_available 0 || Qeq_bool total_required 0 then None
  else
    let st := balanced_run resources tasks in
    let coverage := balanced_coverage_value resources tasks in
    let balance_score :=
      1 - calculate_balance_variance resources (st_allocs st) in
    let task_coverage := task_coverage_of (st_allocs st) in
    let task_coverage_variance :=
      match tasks with
      | [] => 0
      | _ => variance (map (fun t => py_get task_coverage (t_id t) 0
                                     / required_hours t) tasks)
      end in
    let fairness_score := 1 - py_min 1 task_coverage_variance in
    Some (mkAlternative (ExplBalanced coverage)
            (coverage * 40 + balance_score * 25 + fairness_score * 15)
            (st_allocs st)).

(** ** Strategy 3: [_specialization_based_allocation] *)

Definition type_matching : list (pystr * list pystr) :=
  [ (u "разработчик",
       [u "разработка"; u "код"; u "программирование"; u "функционал";
        u "система"]);
    (u "дизайнер", [u "дизайн"; u "интерфейс"; u "ui"; u "ux"; u "макет"]);
    (u "тестировщик", [u "тестирование"; u "тест"; u "проверка"; u "qa"]);
    (u "аналитик",
       [u "анализ"; u "требования"; u "документация"; u "исследование"]);
    (u "менеджер проекта",
       [u "проект"; u "управление"; u "координация"; u "планирование"]) ].

(** [resources_by_type]: insertion-ordered dict [type -> resources]. *)
Fixpoint add_by_type (g : list (pystr * list Resource)) (r : Resource)
    : list (pystr * list Resource) :=
  match g with
  | [] => [(r_type r, [r])]
  | (ty, rs) :: g' =>
      if list_Z_eqb ty (r_type r) then (ty, rs ++ [r]) :: g'
      else (ty, rs) :: add_by_type g' r
  end.

Definition resources_by_type (resources : list Resource)
    : list (pystr * list Resource) :=
  fold_left add_by_type resources [].

Fixpoint lookup_type (g : list (pystr * list Resource)) (ty : pystr)
    : option (list Resource) :=
  match g with
  | [] => None
  | (ty', rs) :: g' => if list_Z_eqb ty' ty then Some rs else lookup_type g' ty
  end.

Definition str_mem (s : pystr) (l : list pystr) : bool :=
  existsb (list_Z_eqb s) l.

Definition suitable_types (task : Task) : list pystr :=
  let task_title_lower := py_lower (title task) in
  map fst (filter (fun '(_, keywords) =>
                     existsb (py_contains task_title_lower) keywords)
             type_matching).

Definition resources_to_try (resources : list Resource) (task : Task)
    : list Resource :=
  match suitable_types task with
  | [] => resources
  | sts =>
      flat_map (fun ty => match lookup_type (resources_by_type resources) ty with
                          | Some rs => rs
                          | None => []
                          end) sts
  end.

(** Membership [resource in resources_to_try]; model objects are compared
    by identity, i.e. by primary key. *)
Definition resource_mem (r : Resource) (rs : list Resource) : bool :=
  existsb (fun r' => Z.eqb (r_id r') (r_id r)) rs.

Definition specialization_task (resources : list Resource)
    (task_requirements : qmap) (st : AState) (task : Task) : AState :=
  let sts := suitable_types task in
  let to_try := resources_to_try resources task in
  let '(need, st1) :=
    walk (fun _ => true) (fun r => str_mem (r_type r) sts) task to_try
      (task_requirements (t_id task)) st in
  if Qlt_bool 0 need then
    snd (walk (fun r => negb (resource_mem r to_try)) (fun _ => false) task
           resources need st1)
  else st1.

Definition specialization_run (resources : list Resource) (tasks : list Task)
    : AState :=
  fold_left (specialization_task resources (task_requirements_init tasks))
    (sort_by_priority_size tasks) (init_state resources).

Definition specialization_coverage_value (resources : list Resource)
    (tasks : list Task) : Q :=
  let total_required := total_required_of tasks in
  if Qlt_bool 0 total_required
  then st_total (specialization_run resources tasks) / total_required else 0.

Fixpoint dedup_str (l : list pystr) : list pystr :=
  match l with
  | [] => []
  | x :: l' => if str_mem x l' then dedup_str l' else x :: dedup_str l'
  end.

Definition specialization_based_allocation (resources : list Resource)
    (tasks : list Task) : Alternative :=
  let rbt := resources_by_type resources in
  let st := specialization_run resources tasks in
  let allocs := st_allocs st in
  let coverage := specialization_coverage_value resources tasks in
  let type_diversity :=
    Z.of_nat (List.length (dedup_str
      (map r_type (filter (fun r => existsb (fun a => Z.eqb (resource_id a) (r_id r))
                                      allocs) resources)))) in
  let match_ratio :=
    match allocs with
    | [] => 0
    | _ => inject_Z (st_matches st) / py_len allocs
    end in
  let score0 :=
    match rbt with
    | [] => coverage * 40
    | _ => coverage * 40 + (inject_Z type_diversity / py_len rbt) * 20
    end in
  mkAlternative
    (ExplSpecialization (map fst rbt) coverage type_diversity match_ratio)
    (score0 + match_ratio * 15) allocs.

(** Monadic [for] over a list. *)
Fixpoint run_fold_left {A B} (f : A -> B -> run A) (l : list B) (a : A)
    : run A :=
  match l with
  | [] => Returns a
  | b :: l' => a' <- f a b ;; run_fold_left f l' a'
  end.

(** Python [min(xs, key=k)] / [max(xs, key=k)]: the first element whose key
    is not beaten by a later one ([better x y] means [x] beats [y]). *)
Definition select_best (better : Resource -> Resource -> bool)
    (r0 : Resource) (rest : list Resource) : Resource :=
  fold_left (fun best r => if better r best then r else best) rest r0.

(** ** Strategy 4: [_minimize_overload_allocation] *)

(** One iteration of [while remaining_need > 0:]; the state is the
    allocation state and [remaining_need]. *)
Definition overload_body (resources : list Resource)
    (ideal_load_per_resource : Q) (task : Task) (s : AState * Q)
    : step (AState * Q) :=
  let '(st, remaining_need) := s in
  let under_cap :=
    filter (fun r => Qlt_bool 0 (st_hours st (r_id r))
                     && Qlt_bool (st_load st (r_id r))
                                 (ideal_load_per_resource * 1.2))
      resources in
  let available_resources :=
    match under_cap with
    | [] => filter (fun r => Qlt_bool 0 (st_hours st (r_id r))) resources
    | _ => under_cap
    end in
  match available_resources with
  | [] => Break s
  | r0 :: rest =>
      let best := select_best
                    (fun r b => Qlt_bool (st_load st (r_id r)) (st_load st (r_id b)))
                    r0 rest in
      let h := py_min (py_min remaining_need (st_hours st (r_id best)))
                 (ideal_load_per_resource * 1.2 - st_load st (r_id best)) in
      if Qlt_bool 0 h then
        Continue (commit st (r_id best) (t_id task) h, remaining_need - h)
      else Continue s
  end.

Definition overload_task (fuel : nat) (resources : list Resource)
    (ideal_load_per_resource : Q) (task_requirements : qmap) (st : AState)
    (task : Task) : run AState :=
  s <- py_while fuel (fun s => Qlt_bool 0 (snd s))
         (overload_body resources ideal_load_per_resource task)
         (st, task_requirements (t_id task)) ;;
  Returns (fst s).

Definition ideal_load_of (resources : list Resource) (tasks : list Task) : Q :=
  match resources with
  | [] => 0
  | _ => total_required_of tasks / py_len resources
  end.

Definition overload_run (fuel : nat) (resources : list Resource)
    (tasks : list Task) : run AState :=
  run_fold_left
    (overload_task fuel resources (ideal_load_of resources tasks)
       (task_requirements_init tasks))
    (sort_by_priority_size tasks) (init_state resources).

Definition overload_coverage_of (tasks : list Task) (st : AState) : Q :=
  let total_required := total_required_of tasks in
  let total_allocated := py_sum (map hours (st_allocs st)) in
  if Qlt_bool 0 total_required then total_allocated / total_required else 0.

Definition py_max_list (xs : list Q) : Q :=
  match xs with
  | [] => 0
  | x :: xs' => fold_left py_max xs' x
  end.

Definition minimize_overload_allocation (fuel : nat)
    (resources : list Resource) (tasks : list Task)
    : run (option Alternative) :=
  let total_required := total_required_of tasks in
  let total_available := total_available_of resources in
  if Qeq_bool total_available 0 then Returns None
  else
    st <- overload_run fuel resources tasks ;;
    let coverage := overload_coverage_of tasks st in
    let overload_penalty :=
      py_sum (map (fun r => py_max 0 (st_load st (r_id r) - available_hours r))
                resources) in
    let balance :=
      if Qlt_bool 0 total_required then 1 - overload_penalty / total_required
      else 1 in
    Returns (Some (mkAlternative
      (ExplOverload coverage (py_max_list (map (fun r => st_load st (r_id r)) resources)))
      (coverage * 40 + balance * 35) (st_allocs st))).

(** ** Strategy 5: [_greedy_optimized_allocation] *)

(** Key comparison [(e1, h1) > (e2, h2)] of tuples. *)
Definition greedy_better (st : AState) (r b : Resource) : bool :=
  let key x := (st_hours st (r_id x) / py_max (st_load st (r_id x)) 1,
                st_hours st (r_id x)) in
  let '(e1, h1) := key r in
  let '(e2, h2) := key b in
  Qlt_bool e2 e1 || (Qeq_bool e1 e2 && Qlt_bool h2 h1).

Definition greedy_body (resources : list Resource) (task : Task)
    (s : AState * Q) : step (AState * Q) :=
  let '(st, remaining_need) := s in
  let available_resources :=
    filter (fun r => Qlt_bool 0.1 (st_hours st (r_id r))) resources in
  match available_resources with
  | [] => Break s
  | r0 :: rest =>
      let best := select_best (greedy_better st) r0 rest in
      let h := py_min remaining_need (st_hours st (r_id best)) in
      if Qlt_bool 0.1 h then
        Continue (commit st (r_id best) (t_id task) h, remaining_need - h)
      else Continue s
  end.

Definition greedy_task (fuel : nat) (resources : list Resource)
    (task_requirements : qmap) (st : AState) (task : Task) : run AState :=
  s <- py_while fuel (fun s => Qlt_bool 0 (snd s)) (greedy_body resources task)
         (st, task_requirements (t_id task)) ;;
  Returns (fst s).

Definition greedy_run (fuel : nat) (resources : list Resource)
    (tasks : list Task) : run AState :=
  run_fold_left (greedy_task fuel resources (task_requirements_init tasks))
    (sort_by_priority_size tasks) (init_state resources).

Definition greedy_coverage_of (tasks : list Task) (st : AState) : Q :=
  let total_required := total_required_of tasks in
  if Qlt_bool 0 total_required then st_total st / total_required else 0.

Definition greedy_optimized_allocation (fuel : nat)
    (resources : list Resource) (tasks : list Task) : run Alternative :=
  st <- greedy_run fuel resources tasks ;;
  let task_requirements := task_requirements_init tasks in
  let coverage := greedy_coverage_of tasks st in
  let efficiency :=
    match resources with
    | [] => 0
    | _ => py_sum (map (fun r => py_min 1 (st_load st (r_id r) / available_hours r))
                     (filter (fun r => Qlt_bool 0 (available_hours r)) resources))
           / py_len resources
    end in
  let priority_coverage :=
    match tasks with
    | [] => 0
    | _ => py_sum (map (fun t =>
             inject_Z (6 - priority t)
             * py_min 1 ((task_requirements (t_id t)
                          - (task_requirements (t_id t)
                             - hours_of_task (st_allocs st) (t_id t)))
                         / task_requirements (t_id t)))
             (sort_by_priority_size tasks)) / py_len tasks
    end in
  Returns (mkAlternative (ExplGreedy coverage efficiency)
             (coverage * 50 + efficiency * 25 + priority_coverage * 15)
             (st_allocs st)).

(** ** [_remove_duplicates] *)

Definition key3 := (Z * Z * Z)%type.

(** Lexicographic [<] on [(resource_id, task_id, round(hours, 1))], the
    rounded hours being represented by their number of tenths. *)
Definition key3_lt (x y : key3) : bool :=
  let '(a1, b1, c1) := x in
  let '(a2, b2, c2) := y in
  Z.ltb a1 a2 || (Z.eqb a1 a2 && (Z.ltb b1 b2 || (Z.eqb b1 b2 && Z.ltb c1 c2))).

Definition key3_eqb (x y : key3) : bool :=
  let '(a1, b1, c1) := x in
  let '(a2, b2, c2) := y in
  Z.eqb a1 a2 && Z.eqb b1 b2 && Z.eqb c1 c2.

Fixpoint key_eqb (k1 k2 : list key3) : bool :=
  match k1, k2 with
  | [], [] => true
  | x :: k1', y :: k2' => key3_eqb x y && key_eqb k1' k2'
  | _, _ => false
  end.

(** [tuple(sorted((a.resource_id, a.task_id, round(a.hours, 1)) ...))] *)
Definition allocations_key (alt : Alternative) : list key3 :=
  stable_sort key3_lt
    (map (fun a => (resource_id a, task_id a, round1_tenths (hours a)))
       (allocations alt)).

(** The inner [for i, existing_alt in enumerate(unique_alternatives)] loop. *)
Fixpoint replace_better (alt : Alternative) (k : list key3)
    (uniq : list Alternative) : list Alternative :=
  match uniq with
  | [] => []
  | e :: uniq' =>
      if key_eqb (allocations_key e) k && Qlt_bool (score e) (score alt)
      then alt :: uniq'
      else e :: replace_better alt k uniq'
  end.

Definition dedup_step (acc : list (list key3) * list Alternative)
    (alt : Alternative) : list (list key3) * list Alternative :=
  let '(seen, uniq) := acc in
  let k := allocations_key alt in
  if existsb (key_eqb k) seen then (seen, replace_better alt k uniq)
  else (seen ++ [k], uniq ++ [alt]).

Definition remove_duplicates (alternatives : list Alternative)
    : list Alternative :=
  snd (fold_left dedup_step alternatives ([], [])).

(** ** [_normalize_allocations] *)

Definition pair_eqb (x y : Z * Z) : bool :=
  Z.eqb (fst x) (fst y) && Z.eqb (snd x) (snd y).

(** [if key not in grouped: grouped[key] = 0.0]; [grouped[key] += hours],
    on an insertion-ordered dict. *)
Fixpoint group_add (g : list ((Z * Z) * Q)) (k : Z * Z) (h : Q)
    : list ((Z * Z) * Q) :=
  match g with
  | [] => [(k, 0 + h)]
  | (k', v) :: g' =>
      if pair_eqb k' k then (k', v + h) :: g' else (k', v) :: group_add g' k h
  end.

Definition grouped_of (allocs : list Allocation) : list ((Z * Z) * Q) :=
  fold_left (fun g a => group_add g (resource_id a, task_id a) (hours a))
    allocs [].

(** [if hours >= 0.5] *)
Definition norm_keep (e : (Z * Z) * Q) : bool :=
  let '(_, h) := e in Qle_bool 0.5 h.

(** [{"resource_id": ..., "task_id": ..., "hours": round(hours, 1)}] *)
Definition norm_entry (e : (Z * Z) * Q) : Allocation :=
  let '((rid, tid), h) := e in mkAllocation rid tid (py_round1 h).

Definition normalized_allocations_of (allocs : list Allocation)
    : list Allocation :=
  map norm_entry (filter norm_keep (grouped_of allocs)).

Definition normalize_allocations (alternatives : list Alternative)
    : list Alternative :=
  flat_map (fun alt =>
              match normalized_allocations_of (allocations alt) with
              | [] => []
              | nas => [mkAlternative (explanation alt) (score alt) nas]
              end) alternatives.

(** ** [generate_alternatives] *)

(** [alternatives.sort(key=lambda x: x["score"], reverse=True)] *)
Definition sort_by_score_desc (alts : list Alternative) : list Alternative :=
  stable_sort (fun x y => Qlt_bool (score y) (score x)) alts.

Definition collect (alts : list (option Alternative)) : list Alternative :=
  flat_map (fun o => match o with Some a => [a] | None => [] end) alts.

Definition generate_alternatives (fuel : nat) (resources : list Resource)
    (tasks : list Task) : run (list Alternative) :=
  match resources, tasks with
  | [], _ => Returns []
  | _, [] => Returns []
  | _, _ =>
      let alt1 := priority_based_allocation resources tasks in
      let alt2 := balanced_allocation resources tasks in
      let alt3 := specialization_based_allocation resources tasks in
      alt4 <- minimize_overload_allocation fuel resources tasks ;;
      alt5 <- greedy_optimized_allocation fuel resources tasks ;;
      let alternatives := collect [Some alt1; alt2; Some alt3; alt4; Some alt5] in
      Returns (sort_by_score_desc
                 (normalize_allocations (remove_duplicates alternatives)))
  end.

(** ** Normalisation as the specification words it

    Reference definitions of section 4.7, written from the prose rather than
    from the source: the [(resource_id, task_id)] groups are the distinct
    pairs in order of first occurrence, and a group's value is the sum of the
    hours of the records carrying that pair. *)

Definition alloc_pair (a : Allocation) : Z * Z := (resource_id a, task_id a).

Definition distinct_pairs (ps : list (Z * Z)) : list (Z * Z) :=
  fold_left (fun acc p => if existsb (pair_eqb p) acc then acc else acc ++ [p])
    ps [].

Definition pair_sum (allocs : list Allocation) (k : Z * Z) : Q :=
  fold_left (fun acc a => if pair_eqb (alloc_pair a) k then acc + hours a else acc)
    allocs 0.

(** Per the claim: round each group's sum, then drop the rounded entries
    below 0.5h. *)
Definition spec_normalized_rounded_first (allocs : list Allocation)
    : list Allocation :=
  map (fun k => mkAllocation (fst k) (snd k) (py_round1 (pair_sum allocs k)))
    (filter (fun k => Qle_bool 0.5 (py_round1 (pair_sum allocs k)))
       (distinct_pairs (map alloc_pair allocs))).

(** Drop the groups whose (unrounded) sum is below 0.5h, then round. *)
Definition spec_normalized_filter_first (allocs : list Allocation)
    : list Allocation :=
  map (fun k => mkAllocation (fst k) (snd k) (py_round1 (pair_sum allocs k)))
    (filter (fun k => Qle_bool 0.5 (pair_sum allocs k))
       (distinct_pairs (map alloc_pair allocs))).

(** Keep each alternative with its normalised allocations, drop it when
    none remain. *)
Definition spec_normalize (norm : list Allocation -> list Allocation)
    (alternatives : list Alternative) : list Alternative :=
  flat_map (fun alt =>
              match norm (allocations alt) with
              | [] => []
              | nas => [mkAlternative (explanation alt) (score alt) nas]
              end) alternatives.

(** ** Concrete inputs *)

(** Scenario of the specification: [R1{developer,10h}], [R2{designer,5h}],
    [T1{"Develop feature",8h,priority 1}], [T2{"Design UI",4h,priority 2}]. *)
Definition scenario_resources : list Resource :=
  [mkResource 1 (u "R1") (u "developer") 10;
   mkResource 2 (u "R2") (u "designer") 5].

Definition scenario_tasks : list Task :=
  [mkTask 1 (u "Develop feature") 8 1; mkTask 2 (u "Design UI") 4 2].

(** The list [generate_alternatives] returns on the scenario. *)
Definition scenario_output : list Alternative :=
  match generate_alternatives 100 scenario_resources scenario_tasks with
  | Returns l => l
  | OutOfFuel => []
  end.

(** Two resources (5h, 100h) and one 20h task: the second resource reaches
    the load cap [1.2 * idealLoad = 12] while the task still needs 3h. *)
Definition overload_resources : list Resource :=
  [mkResource 1 (u "R1") (u "developer") 5;
   mkResource 2 (u "R2") (u "developer") 100].

Definition overload_tasks : list Task := [mkTask 1 (u "Feature") 20 1].

(** Two 8h resources and one 8.05h task: after the first commitment the
    task still needs 0.05h, below the 0.1h commitment threshold. *)
Definition greedy_resources : list Resource :=
  [mkResource 1 (u "R1") (u "developer") 8;
   mkResource 2 (u "R2") (u "developer") 8].

Definition greedy_tasks : list Task := [mkTask 1 (u "Feature") (161 # 20) 1].

Definition alloc_triple (a : Allocation) : Z * Z * Q :=
  (resource_id a, task_id a, Qred (hours a)).

(** ** Auxiliary definitions used in the proofs *)

(** States of the strategy 4 loop on [overload_resources]. *)
Definition overload_s0 : AState * Q :=
  (init_state overload_resources, 20).

Definition next_state {S} (r : step S) : S :=
  match r with Continue s => s | Break s => s end.

Definition overload_body0 : AState * Q -> step (AState * Q) :=
  overload_body overload_resources (ideal_load_of overload_resources overload_tasks)
    (mkTask 1 (u "Feature") 20 1).

Definition overload_s1 : AState * Q := next_state (overload_body0 overload_s0).

Definition overload_s2 : AState * Q := next_state (overload_body0 overload_s1).

(** States of the strategy 5 loop on [greedy_resources]. *)
Definition greedy_body0 : AState * Q -> step (AState * Q) :=
  greedy_body greedy_resources (mkTask 1 (u "Feature") (161 # 20) 1).

Definition greedy_s0 : AState * Q := (init_state greedy_resources, 161 # 20).

Definition greedy_s1 : AState * Q := next_state (greedy_body0 greedy_s0).

(** C6 reference applied to one record of 0.46875h. *)
Definition dust_alternative : Alternative :=
  mkAlternative (ExplPriority 0 (Some 1%Z)) 1 [mkAllocation 1 1 (15 # 32)].

(** Two alternatives whose normalised allocations coincide, the first one
    carrying an extra 0.25h record that normalisation discards. *)
Definition dup_alt_a : Alternative :=
  mkAlternative (ExplPriority 1 (Some 1%Z)) 10
    [mkAllocation 1 1 5; mkAllocation 2 1 (1 # 4)].

Definition dup_alt_b : Alternative :=
  mkAlternative (ExplGreedy 1 1) 20 [mkAllocation 1 1 5].

(** Invariant of the [for alt in alternatives] loop of [_remove_duplicates]
    after processing [done_]. *)
Definition dedup_inv (done_ : list Alternative)
    (acc : list (list key3) * list Alternative) : Prop :=
  fst acc = map allocations_key (snd acc) /\
  NoDup (fst acc) /\
  (forall x, In x (snd acc) -> In x done_) /\
  (forall a, In a done_ -> exists b, In b (snd acc) /\
     allocations_key b = allocations_key a /\ score a <= score b).

(** Score order used by the ranking. *)
Definition score_ge (a b : Alternative) : Prop := score b <= score a.

Definition score_lt (x y : Alternative) : bool := Qlt_bool (score y) (score x).

Definition score_is (q : Q) (a : Alternative) : bool := Qeq_bool (score a) q.

(** The loop steps of strategies 4 and 5: either the state is unchanged, or
    [h > 0] hours, at most the remaining need and the remaining capacity of
    the chosen resource, are committed. *)
Definition commit_step (tid : Z) (s s' : AState * Q) : Prop :=
  s' = s \/
  exists rid h, 0 < h /\ h <= snd s /\ h <= st_hours (fst s) rid /\
    s' = (commit (fst s) rid tid h, snd s - h).

(** [sum(a["hours"] for a in allocations)]. *)
Definition allocated_sum (st : AState) : Q := py_sum (map hours (st_allocs st)).

(** One 10h resource and one 5h task. *)
Definition balanced_resources : list Resource :=
  [mkResource 1 (u "B1") (u "developer") 10].

Definition balanced_tasks : list Task := [mkTask 1 (u "Feature") 5 1].

(** [cap_inv h0 st]: the remaining capacity of every id is non-negative and
    equals its initial capacity [h0] minus the hours committed from it, and
    every recorded commitment is positive. *)
Definition cap_inv (h0 : qmap) (st : AState) : Prop :=
  (forall rid, 0 <= st_hours st rid /\
               st_hours st rid + hours_of_resource (st_allocs st) rid == h0 rid) /\
  (forall a, In a (st_allocs st) -> 0 < hours a).

(** Allocations within the capacities [h0], all positive. *)
Definition cap_ok (h0 : qmap) (allocs : list Allocation) : Prop :=
  (forall rid, hours_of_resource allocs rid <= h0 rid) /\
  (forall a, In a allocs -> 0 < hours a).

(** One 1.5h resource and two 0.75h tasks; the output of
    [generate_alternatives] on them. *)
Definition cap_resources : list Resource :=
  [mkResource 1 (u "R1") (u "developer") (3 # 2)].

Definition cap_tasks : list Task :=
  [mkTask 1 (u "Task A") (3 # 4) 1; mkTask 2 (u "Task B") (3 # 4) 1].

Definition cap_output : list Alternative :=
  match generate_alternatives 100 cap_resources cap_tasks with
  | Returns l => l
  | OutOfFuel => []
  end.

(** [a] is the result of one of the five strategies called by
    [generate_alternatives] (strategies 4 and 5 when their loops end). *)
Definition strategy_result (fuel : nat) (rs : list Resource) (ts : list Task)
    (a : Alternative) : Prop :=
  a = priority_based_allocation rs ts \/
  balanced_allocation rs ts = Some a \/
  a = specialization_based_allocation rs ts \/
  minimize_overload_allocation fuel rs ts = Returns (Some a) \/
  greedy_optimized_allocation fuel rs ts = Returns a.

Definition overload_alt : Alternative :=
  match minimize_overload_allocation 100 scenario_resources scenario_tasks with
  | Returns (Some a) => a
  | _ => mkAlternative (ExplOverload 0 0) 0 []
  end.

Definition greedy_alt : Alternative :=
  match greedy_optimized_allocation 100 scenario_resources scenario_tasks with
  | Returns a => a
  | OutOfFuel => mkAlternative (ExplGreedy 0 0) 0 []
  end.

Definition balanced_alt : Alternative :=
  match balanced_allocation scenario_resources scenario_tasks with
  | Some a => a
  | None => mkAlternative (ExplBalanced 0) 0 []
  end.

(** * Properties *)

(** ** [while] loops *)

Lemma py_while_continue {S} (f : nat) (cond : S -> bool) (body : S -> step S)
    (s s' : S) :
  cond s = true -> body s = Continue s' ->
  py_while (Datatypes.S f) cond body s = py_while f cond body s'.
Proof. intros Hc Hb. simpl. now rewrite Hc, Hb. Qed.

(** A state on which the loop condition holds and the body changes nothing
    is never left. *)
Lemma py_while_stuck {S} (cond : S -> bool) (body : S -> step S) (s : S) :
  cond s = true -> body s = Continue s ->
  forall fuel, py_while fuel cond body s = OutOfFuel.
Proof.
  intros Hc Hb fuel. induction fuel as [|f IH]; [reflexivity|].
  rewrite (py_while_continue f cond body s s Hc Hb). exact IH.
Qed.

Lemma run_bind_out {A B} (k : A -> run B) : run_bind OutOfFuel k = OutOfFuel.
Proof. reflexivity. Qed.

(** ** Strategy 4 on [overload_resources] / [overload_tasks] *)

Lemma overload_s0_step : overload_body0 overload_s0 = Continue overload_s1.
Proof. reflexivity. Qed.

Lemma overload_s1_step : overload_body0 overload_s1 = Continue overload_s2.
Proof. vm_compute. reflexivity. Qed.

Lemma overload_s2_stuck : overload_body0 overload_s2 = Continue overload_s2.
Proof. vm_compute. reflexivity. Qed.

Lemma overload_s2_need : Qlt_bool 0 (snd overload_s2) = true.
Proof. vm_compute. reflexivity. Qed.

Lemma overload_loop_out (fuel : nat) :
  py_while fuel (fun s => Qlt_bool 0 (snd s)) overload_body0 overload_s0
  = OutOfFuel.
Proof.
  destruct fuel as [|[|[|f]]]; [reflexivity| | |].
  - rewrite (py_while_continue 0 _ _ _ _ eq_refl overload_s0_step). reflexivity.
  - rewrite (py_while_continue 1 _ _ _ _ eq_refl overload_s0_step).
    rewrite (py_while_continue 0 _ _ _ _ eq_refl overload_s1_step). reflexivity.
  - rewrite (py_while_continue _ _ _ _ _ eq_refl overload_s0_step).
    rewrite (py_while_continue _ _ _ _ _ eq_refl overload_s1_step).
    exact (py_while_stuck (fun s => Qlt_bool 0 (snd s)) overload_body0 overload_s2
             overload_s2_need overload_s2_stuck f).
Qed.

Lemma overload_run_out (fuel : nat) :
  overload_run fuel overload_resources overload_tasks = OutOfFuel.
Proof.
  transitivity
    (run_bind (run_bind (py_while fuel (fun s => Qlt_bool 0 (snd s))
                           overload_body0 overload_s0)
                        (fun s => Returns (fst s)))
              (fun a => Returns a)).
  - reflexivity.
  - rewrite overload_loop_out. reflexivity.
Qed.

Lemma minimize_overload_out (fuel : nat) :
  minimize_overload_allocation fuel overload_resources overload_tasks
  = OutOfFuel.
Proof.
  unfold minimize_overload_allocation.
  replace (Qeq_bool (total_available_of overload_resources) 0) with false
    by reflexivity.
  cbv beta iota zeta. rewrite overload_run_out. reflexivity.
Qed.

Lemma generate_out_overload (fuel : nat) (rs : list Resource) (ts : list Task) :
  rs <> [] -> ts <> [] ->
  minimize_overload_allocation fuel rs ts = OutOfFuel ->
  generate_alternatives fuel rs ts = OutOfFuel.
Proof.
  intros Hr Ht H. destruct rs as [|r rs]; [congruence|].
  destruct ts as [|t ts]; [congruence|].
  unfold generate_alternatives. cbv beta iota. rewrite H. reflexivity.
Qed.

(** C1 (code_bug). When no resource is under the load cap, the fallback
    still bounds the commitment by [1.2 * idealLoad - currentLoad], which is
    then [<= 0]: nothing is committed, the remaining need stays positive and
    the [while] loop never ends. On two resources of 5h and 100h and one
    20h task, strategy 4 (and hence [generate_alternatives]) does not
    finish for any amount of fuel. *)
Theorem minimize_overload_fallback_loops (fuel : nat) :
  minimize_overload_allocation fuel overload_resources overload_tasks
    = OutOfFuel /\
  generate_alternatives fuel overload_resources overload_tasks = OutOfFuel.
Proof.
  split; [apply minimize_overload_out|].
  apply generate_out_overload; [discriminate|discriminate|].
  apply minimize_overload_out.
Qed.

Lemma generate_out_greedy (fuel : nat) (rs : list Resource) (ts : list Task) :
  rs <> [] -> ts <> [] ->
  greedy_optimized_allocation fuel rs ts = OutOfFuel ->
  generate_alternatives fuel rs ts = OutOfFuel.
Proof.
  intros Hr Ht H. destruct rs as [|r rs]; [congruence|].
  destruct ts as [|t ts]; [congruence|].
  unfold generate_alternatives. cbv beta iota.
  destruct (minimize_overload_allocation fuel (r :: rs) (t :: ts)); [|reflexivity].
  cbn [run_bind]. rewrite H. reflexivity.
Qed.

(** ** Strategy 5 on [greedy_resources] / [greedy_tasks] *)

Lemma greedy_s0_step : greedy_body0 greedy_s0 = Continue greedy_s1.
Proof. reflexivity. Qed.

Lemma greedy_s1_stuck : greedy_body0 greedy_s1 = Continue greedy_s1.
Proof. vm_compute. reflexivity. Qed.

Lemma greedy_s1_need : Qlt_bool 0 (snd greedy_s1) = true.
Proof. vm_compute. reflexivity. Qed.

Lemma greedy_loop_out (fuel : nat) :
  py_while fuel (fun s => Qlt_bool 0 (snd s)) greedy_body0 greedy_s0
  = OutOfFuel.
Proof.
  destruct fuel as [|f]; [reflexivity|].
  rewrite (py_while_continue _ _ _ _ _ eq_refl greedy_s0_step).
  exact (py_while_stuck (fun s => Qlt_bool 0 (snd s)) greedy_body0 greedy_s1
           greedy_s1_need greedy_s1_stuck f).
Qed.

Lemma greedy_out (fuel : nat) :
  greedy_optimized_allocation fuel greedy_resources greedy_tasks = OutOfFuel.
Proof.
  assert (H : greedy_run fuel greedy_resources greedy_tasks = OutOfFuel).
  { transitivity
      (run_bind (run_bind (py_while fuel (fun s => Qlt_bool 0 (snd s))
                             greedy_body0 greedy_s0)
                          (fun s => Returns (fst s)))
                (fun a => Returns a)).
    - reflexivity.
    - rewrite greedy_loop_out. reflexivity. }
  unfold greedy_optimized_allocation. rewrite H. reflexivity.
Qed.

(** C2 (code_bug). When the remaining need is positive but at most 0.1h
    while some resource still has more than 0.1h, the computed commitment
    is discarded and nothing else changes: the [while] loop has no [break]
    for this case and never ends. On two 8h resources and one 8.05h task,
    strategy 5 (and hence [generate_alternatives]) does not finish for any
    amount of fuel. *)
Theorem greedy_small_need_loops (fuel : nat) :
  greedy_optimized_allocation fuel greedy_resources greedy_tasks = OutOfFuel /\
  generate_alternatives fuel greedy_resources greedy_tasks = OutOfFuel.
Proof.
  split; [apply greedy_out|].
  apply generate_out_greedy; [discriminate|discriminate|apply greedy_out].
Qed.

(** C8 (confirmed). On the scenario [R1{developer,10h}], [R2{designer,5h}],
    [T1{"Develop feature",8h,priority 1}], [T2{"Design UI",4h,priority 2}],
    strategy 1 commits exactly [(R1,T1,8)], [(R1,T2,2)], [(R2,T2,2)], with
    coverage 1, priority bonus 4.5, overload penalty 0 and score 140. *)
Theorem priority_scenario :
  map alloc_triple
      (allocations (priority_based_allocation scenario_resources scenario_tasks))
    = [(1%Z, 1%Z, 8); (1%Z, 2%Z, 2); (2%Z, 2%Z, 2)] /\
  priority_coverage_value scenario_resources scenario_tasks == 1 /\
  priority_bonus scenario_resources scenario_tasks == 9 # 2 /\
  priority_overload_penalty scenario_resources scenario_tasks == 0 /\
  score (priority_based_allocation scenario_resources scenario_tasks) == 140.
Proof. vm_compute. repeat split; reflexivity. Qed.

(** C9 (confirmed). With no resources or no tasks, [generate_alternatives]
    returns the empty list (a normal result, whatever the fuel). *)
Theorem generate_empty_inputs (fuel : nat) (rs : list Resource)
    (ts : list Task) :
  generate_alternatives fuel [] [] = Returns [] /\
  generate_alternatives fuel rs [] = Returns [] /\
  generate_alternatives fuel [] ts = Returns [].
Proof. destruct rs; repeat split; reflexivity. Qed.

(** ** Grouping by [(resource_id, task_id)] *)

Lemma pair_eqb_eq (x y : Z * Z) : pair_eqb x y = true <-> x = y.
Proof.
  destruct x as [a b], y as [c d]. unfold pair_eqb; simpl.
  rewrite andb_true_iff, !Z.eqb_eq. split.
  - intros [-> ->]. reflexivity.
  - intros H. inversion H. auto.
Qed.

Lemma pair_eqb_sym (x y : Z * Z) : pair_eqb x y = pair_eqb y x.
Proof.
  destruct x as [a b], y as [c d]. unfold pair_eqb; simpl.
  rewrite (Z.eqb_sym a c), (Z.eqb_sym b d). reflexivity.
Qed.

Lemma existsb_pair_In (p : Z * Z) (D : list (Z * Z)) :
  existsb (pair_eqb p) D = true <-> In p D.
Proof.
  rewrite existsb_exists. split.
  - intros [x [Hx Hp]]. apply pair_eqb_eq in Hp. subst. exact Hx.
  - intros H. exists p. split; [exact H|]. apply pair_eqb_eq. reflexivity.
Qed.

Lemma distinct_pairs_app (ps : list (Z * Z)) (p : Z * Z) :
  distinct_pairs (ps ++ [p]) =
  if existsb (pair_eqb p) (distinct_pairs ps) then distinct_pairs ps
  else distinct_pairs ps ++ [p].
Proof. unfold distinct_pairs. rewrite fold_left_app. reflexivity. Qed.

Lemma distinct_pairs_In (ps : list (Z * Z)) (x : Z * Z) :
  In x (distinct_pairs ps) <-> In x ps.
Proof.
  induction ps as [|p ps IH] using rev_ind; [simpl; tauto|].
  rewrite distinct_pairs_app, in_app_iff.
  destruct (existsb (pair_eqb p) (distinct_pairs ps)) eqn:E.
  - apply existsb_pair_In in E. rewrite IH. simpl.
    split; [tauto|]. intros [H|[H|[]]]; [tauto|subst; apply IH; exact E].
  - rewrite in_app_iff, IH. tauto.
Qed.

Lemma distinct_pairs_NoDup (ps : list (Z * Z)) : NoDup (distinct_pairs ps).
Proof.
  induction ps as [|p ps IH] using rev_ind; [constructor|].
  rewrite distinct_pairs_app.
  destruct (existsb (pair_eqb p) (distinct_pairs ps)) eqn:E; [exact IH|].
  apply NoDup_app; [exact IH|repeat constructor; simpl; tauto|].
  intros x Hx [H|[]]. subst.
  assert (existsb (pair_eqb x) (distinct_pairs ps) = true) as E'
    by (apply existsb_pair_In; exact Hx).
  congruence.
Qed.

Lemma pair_sum_app (l : list Allocation) (a : Allocation) (k : Z * Z) :
  pair_sum (l ++ [a]) k =
  if pair_eqb (alloc_pair a) k then pair_sum l k + hours a else pair_sum l k.
Proof. unfold pair_sum. rewrite fold_left_app. reflexivity. Qed.

Lemma pair_sum_absent (l : list Allocation) (k : Z * Z) :
  ~ In k (map alloc_pair l) -> pair_sum l k = 0.
Proof.
  induction l as [|a l IH] using rev_ind; [reflexivity|].
  intros H. rewrite pair_sum_app.
  rewrite map_app, in_app_iff in H.
  destruct (pair_eqb (alloc_pair a) k) eqn:E.
  - apply pair_eqb_eq in E. exfalso. apply H. right. left. exact E.
  - apply IH. tauto.
Qed.

Lemma group_add_map (D : list (Z * Z)) (f : Z * Z -> Q) (p : Z * Z) (h : Q) :
  NoDup D ->
  group_add (map (fun k => (k, f k)) D) p h =
  if existsb (pair_eqb p) D
  then map (fun k => (k, if pair_eqb p k then f k + h else f k)) D
  else map (fun k => (k, f k)) D ++ [(p, 0 + h)].
Proof.
  induction D as [|k D IH]; intros Hnd; [reflexivity|].
  inversion Hnd as [|? ? Hk Hnd']; subst.
  cbn [map group_add existsb].
  rewrite (pair_eqb_sym k p).
  destruct (pair_eqb p k) eqn:E; cbn [orb].
  - apply pair_eqb_eq in E. subst. f_equal.
    apply map_ext_in. intros k' Hk'.
    destruct (pair_eqb k k') eqn:E'; [|reflexivity].
    apply pair_eqb_eq in E'. subst. contradiction.
  - rewrite (IH Hnd'). destruct (existsb (pair_eqb p) D); reflexivity.
Qed.

(** The insertion-ordered dict [grouped] holds, for each distinct pair in
    order of first occurrence, the sum of the hours of that pair. *)
Lemma grouped_of_spec (l : list Allocation) :
  grouped_of l =
  map (fun k => (k, pair_sum l k)) (distinct_pairs (map alloc_pair l)).
Proof.
  induction l as [|a l IH] using rev_ind; [reflexivity|].
  unfold grouped_of in *. rewrite fold_left_app. cbn [fold_left].
  rewrite IH. fold (alloc_pair a).
  rewrite (group_add_map _ _ _ _ (distinct_pairs_NoDup _)).
  rewrite map_app. change (map alloc_pair [a]) with [alloc_pair a].
  rewrite distinct_pairs_app.
  destruct (existsb (pair_eqb (alloc_pair a)) (distinct_pairs (map alloc_pair l)))
    eqn:E.
  - apply map_ext. intros k. rewrite pair_sum_app. reflexivity.
  - rewrite map_app. cbn [map]. f_equal.
    + apply map_ext_in. intros k Hk. rewrite pair_sum_app.
      destruct (pair_eqb (alloc_pair a) k) eqn:E'; [|reflexivity].
      apply pair_eqb_eq in E'. subst.
      apply existsb_pair_In in Hk. congruence.
    + rewrite pair_sum_app.
      assert (Hp : pair_eqb (alloc_pair a) (alloc_pair a) = true)
        by (apply pair_eqb_eq; reflexivity).
      rewrite Hp. rewrite pair_sum_absent; [reflexivity|].
      intros Hin. apply (distinct_pairs_In _ _) in Hin.
      apply existsb_pair_In in Hin. congruence.
Qed.

Lemma normalized_allocations_of_spec (allocs : list Allocation) :
  normalized_allocations_of allocs = spec_normalized_filter_first allocs.
Proof.
  unfold normalized_allocations_of, spec_normalized_filter_first.
  rewrite grouped_of_spec.
  induction (distinct_pairs (map alloc_pair allocs)) as [|k D IH];
    [reflexivity|].
  cbn [map filter norm_keep]. destruct (Qle_bool 0.5 (pair_sum allocs k));
    cbn [map norm_entry].
  - destruct k. f_equal. exact IH.
  - exact IH.
Qed.

(** C6 (corrected), counterexample. A single group of 0.46875h rounds to
    0.5h: the claimed reference keeps it, while the code drops it (and with
    it the whole alternative), because the code compares the unrounded sum
    with 0.5. *)
Lemma normalize_drops_before_rounding :
  normalize_allocations [dust_alternative] = [] /\
  spec_normalize spec_normalized_rounded_first [dust_alternative] =
    [mkAlternative (ExplPriority 0 (Some 1%Z)) 1
       [mkAllocation 1 1 (py_round1 (0 + 15 # 32))]] /\
  py_round1 (0 + 15 # 32) == 0.5.
Proof. vm_compute. repeat split; reflexivity. Qed.

(** C6 (corrected), amended. Normalisation groups the records by
    [(resource_id, task_id)] (in order of first occurrence) and sums their
    hours, drops the groups whose unrounded sum is below 0.5h, rounds the
    remaining sums to one decimal, and drops an alternative left with no
    entry; explanation and score are kept. *)
Theorem normalize_allocations_spec (alternatives : list Alternative) :
  normalize_allocations alternatives =
  spec_normalize spec_normalized_filter_first alternatives.
Proof.
  unfold normalize_allocations, spec_normalize.
  induction alternatives as [|alt alts IH]; [reflexivity|].
  cbn [flat_map]. rewrite normalized_allocations_of_spec, IH. reflexivity.
Qed.

(** ** Rounding to one decimal *)

Lemma Qlt_bool_iff (x y : Q) : Qlt_bool x y = true <-> x < y.
Proof.
  unfold Qlt_bool. rewrite negb_true_iff. split; intros H.
  - apply Qnot_le_lt. intros H'. apply Qle_bool_iff in H'. congruence.
  - destruct (Qle_bool y x) eqn:E; [|reflexivity].
    apply Qle_bool_iff in E. exfalso. exact (Qlt_not_le _ _ H E).
Qed.

Lemma Qle_bool_compat (x x' y y' : Q) :
  x == x' -> y == y' -> Qle_bool x y = Qle_bool x' y'.
Proof.
  intros Hx Hy. apply eq_true_iff_eq. rewrite !Qle_bool_iff, Hx, Hy. tauto.
Qed.

Lemma Qlt_bool_compat (x x' y y' : Q) :
  x == x' -> y == y' -> Qlt_bool x y = Qlt_bool x' y'.
Proof. intros Hx Hy. unfold Qlt_bool. rewrite (Qle_bool_compat y y' x x' Hy Hx). reflexivity. Qed.

Lemma Qfloor_compat (x y : Q) : x == y -> Qfloor x = Qfloor y.
Proof.
  intros H. apply Z.le_antisymm; apply Qfloor_resp_le; rewrite H; apply Qle_refl.
Qed.

Lemma round_half_even_compat (x y : Q) :
  x == y -> round_half_even x = round_half_even y.
Proof.
  intros H. unfold round_half_even.
  rewrite (Qfloor_compat x y H).
  rewrite (Qlt_bool_compat (x - inject_Z (Qfloor y)) (y - inject_Z (Qfloor y))
             (1 # 2) (1 # 2)) by first [reflexivity | rewrite H; reflexivity].
  rewrite (Qlt_bool_compat (1 # 2) (1 # 2) (x - inject_Z (Qfloor y))
             (y - inject_Z (Qfloor y))) by first [reflexivity | rewrite H; reflexivity].
  reflexivity.
Qed.

Lemma round_half_even_Z (n : Z) : round_half_even (inject_Z n) = n.
Proof.
  unfold round_half_even. rewrite Qfloor_Z.
  replace (Qlt_bool (inject_Z n - inject_Z n) (1 # 2)) with true; [reflexivity|].
  symmetry. apply Qlt_bool_iff. unfold Qlt, Qminus, Qplus, Qopp, inject_Z; simpl. lia.
Qed.

Lemma round_half_even_ge_floor (y : Q) : (Qfloor y <= round_half_even y)%Z.
Proof.
  unfold round_half_even.
  destruct (Qlt_bool _ (1 # 2)); [lia|].
  destruct (Qlt_bool (1 # 2) _); [lia|]. destruct (Z.even _); lia.
Qed.

(** Rounding a value already on the 0.1 grid gives it back. *)
Lemma round1_tenths_grid (n : Z) : round1_tenths (0 + Qmake n 10) = n.
Proof.
  unfold round1_tenths. rewrite <- (round_half_even_Z n) at 2.
  apply round_half_even_compat.
  unfold Qeq, Qmult, Qplus, inject_Z; simpl. lia.
Qed.

Lemma py_round1_idem (h : Q) : py_round1 (0 + py_round1 h) = py_round1 h.
Proof. unfold py_round1. rewrite round1_tenths_grid. reflexivity. Qed.

Lemma round1_at_least_half (h : Q) :
  Qle_bool 0.5 h = true -> Qle_bool 0.5 (0 + py_round1 h) = true.
Proof.
  intros H. apply Qle_bool_iff in H. apply Qle_bool_iff.
  assert (H5 : (5 <= round1_tenths h)%Z).
  { unfold round1_tenths.
    eapply Z.le_trans; [|apply round_half_even_ge_floor].
    rewrite <- (Qfloor_Z 5). apply Qfloor_resp_le.
    apply (Qmult_le_r _ _ (1 # 10)); [reflexivity|].
    setoid_replace (inject_Z 5 * (1 # 10)) with 0.5 by reflexivity.
    setoid_replace (h * 10 * (1 # 10)) with h by ring. exact H. }
  unfold py_round1. rewrite Qplus_0_l. unfold Qle; simpl. lia.
Qed.

(** ** Normalisation is idempotent *)

Lemma group_add_absent (g : list ((Z * Z) * Q)) (p : Z * Z) (h : Q) :
  ~ In p (map fst g) -> group_add g p h = g ++ [(p, 0 + h)].
Proof.
  induction g as [|[k v] g IH]; intros H; [reflexivity|].
  cbn [group_add]. destruct (pair_eqb k p) eqn:E.
  - apply pair_eqb_eq in E. subst. exfalso. apply H. left. reflexivity.
  - rewrite IH; [reflexivity|]. intros Hin. apply H. right. exact Hin.
Qed.

Lemma grouped_of_nodup (l : list Allocation) :
  NoDup (map alloc_pair l) ->
  grouped_of l = map (fun a => (alloc_pair a, 0 + hours a)) l.
Proof.
  induction l as [|a l IH] using rev_ind; intros Hnd; [reflexivity|].
  rewrite map_app in Hnd. change (map alloc_pair [a]) with [alloc_pair a] in Hnd.
  assert (Hp : NoDup (alloc_pair a :: map alloc_pair l)).
  { eapply Permutation_NoDup; [|exact Hnd].
    apply Permutation_sym, Permutation_cons_append. }
  inversion Hp as [|? ? Hnotin Hnd']; subst.
  unfold grouped_of in *. rewrite fold_left_app. cbn [fold_left].
  rewrite (IH Hnd'). rewrite group_add_absent.
  - rewrite map_app. reflexivity.
  - rewrite map_map. exact Hnotin.
Qed.

Lemma NoDup_map_filter {A B} (f : A -> B) (P : A -> bool) (l : list A) :
  NoDup (map f l) -> NoDup (map f (filter P l)).
Proof.
  induction l as [|x l IH]; intros H; [constructor|].
  inversion H as [|? ? Hx Hl]; subst. cbn [filter].
  destruct (P x); cbn [map]; [constructor|]; auto.
  intros Hin. apply Hx. apply in_map_iff in Hin as [y [Hy Hyin]].
  apply filter_In in Hyin. apply in_map_iff. exists y. tauto.
Qed.

Lemma grouped_of_keys_NoDup (l : list Allocation) :
  NoDup (map fst (grouped_of l)).
Proof.
  rewrite grouped_of_spec, map_map. cbn. rewrite map_id.
  apply distinct_pairs_NoDup.
Qed.

Lemma normalized_entries_fixed (L : list ((Z * Z) * Q)) :
  NoDup (map fst L) -> Forall (fun e => norm_keep e = true) L ->
  normalized_allocations_of (map norm_entry L) = map norm_entry L.
Proof.
  intros Hnd Hf. unfold normalized_allocations_of.
  rewrite grouped_of_nodup.
  - clear Hnd. induction L as [|[[r t] h] L IH]; [reflexivity|].
    inversion Hf as [|? ? Hh HL]; subst. cbn [norm_keep] in Hh.
    cbn [map filter norm_entry alloc_pair resource_id task_id hours norm_keep].
    rewrite (round1_at_least_half h Hh). cbn [map norm_entry].
    rewrite py_round1_idem. f_equal. exact (IH HL).
  - rewrite map_map. 
    replace (map (fun x => alloc_pair (norm_entry x)) L) with (map fst L);
      [exact Hnd|].
    apply map_ext. intros [[r t] h]. reflexivity.
Qed.

Lemma normalized_allocations_of_idem (allocs : list Allocation) :
  normalized_allocations_of (normalized_allocations_of allocs) =
  normalized_allocations_of allocs.
Proof.
  set (L := filter norm_keep (grouped_of allocs)).
  assert (HL : normalized_allocations_of allocs = map norm_entry L)
    by reflexivity.
  rewrite HL. apply normalized_entries_fixed.
  - apply NoDup_map_filter, grouped_of_keys_NoDup.
  - apply Forall_forall. intros x Hx. apply filter_In in Hx. tauto.
Qed.

(** C7 (confirmed). Normalising an already normalised list of alternatives
    changes nothing. *)
Theorem normalize_allocations_idempotent (alternatives : list Alternative) :
  normalize_allocations (normalize_allocations alternatives) =
  normalize_allocations alternatives.
Proof.
  induction alternatives as [|alt alts IH]; [reflexivity|].
  unfold normalize_allocations in *. cbn [flat_map].
  destruct (normalized_allocations_of (allocations alt)) as [|e es] eqn:E.
  - exact IH.
  - rewrite flat_map_app, IH. cbn [flat_map allocations explanation score].
    rewrite <- E, normalized_allocations_of_idem, E.
    rewrite app_nil_r. reflexivity.
Qed.

(** ** Duplicate removal *)

Lemma key3_eqb_eq (x y : key3) : key3_eqb x y = true <-> x = y.
Proof.
  destruct x as [[a b] c], y as [[a' b'] c']. unfold key3_eqb.
  rewrite !andb_true_iff, !Z.eqb_eq. split.
  - intros [[-> ->] ->]. reflexivity.
  - intros H. inversion H. auto.
Qed.

Lemma key_eqb_eq (k1 k2 : list key3) : key_eqb k1 k2 = true <-> k1 = k2.
Proof.
  revert k2. induction k1 as [|x k1 IH]; intros [|y k2]; cbn [key_eqb];
    split; intros H; try discriminate; try reflexivity.
  - apply andb_true_iff in H as [H1 H2].
    apply key3_eqb_eq in H1. apply IH in H2. subst. reflexivity.
  - inversion H; subst. apply andb_true_iff. split.
    + apply key3_eqb_eq. reflexivity.
    + apply IH. reflexivity.
Qed.

Lemma replace_better_keys (alt : Alternative) (u : list Alternative) :
  map allocations_key (replace_better alt (allocations_key alt) u) =
  map allocations_key u.
Proof.
  induction u as [|e u IH]; [reflexivity|]. cbn [replace_better].
  destruct (key_eqb (allocations_key e) (allocations_key alt)
            && Qlt_bool (score e) (score alt)) eqn:E; cbn [map].
  - apply andb_true_iff in E as [E _]. apply key_eqb_eq in E. rewrite E.
    reflexivity.
  - rewrite IH. reflexivity.
Qed.

Lemma replace_better_from (alt : Alternative) (k : list key3)
    (u : list Alternative) (x : Alternative) :
  In x (replace_better alt k u) -> In x u \/ x = alt.
Proof.
  induction u as [|e u IH]; cbn [replace_better In]; [tauto|].
  destruct (key_eqb (allocations_key e) k && Qlt_bool (score e) (score alt));
    cbn [In]; [intros [H|H]; [subst; tauto|tauto]|].
  intros [H|H]; [tauto|]. destruct (IH H); tauto.
Qed.

Lemma replace_better_keeps (alt : Alternative) (k : list key3)
    (u : list Alternative) (b : Alternative) :
  In b u ->
  In b (replace_better alt k u) \/
  (In alt (replace_better alt k u) /\ allocations_key b = k /\
   score b < score alt).
Proof.
  induction u as [|e u IH]; cbn [In]; [tauto|]. cbn [replace_better].
  destruct (key_eqb (allocations_key e) k && Qlt_bool (score e) (score alt))
    eqn:E; cbn [In].
  - intros [H|H]; [|tauto]. subst. right. split; [tauto|].
    apply andb_true_iff in E as [E1 E]. apply key_eqb_eq in E1.
    split; [exact E1|]. apply Qlt_bool_iff. exact E.
  - intros [H|H]; [tauto|]. destruct (IH H) as [H'|[H' Hs]]; tauto.
Qed.

Lemma replace_better_new (alt : Alternative) (u : list Alternative) (e : Alternative) :
  In e u -> allocations_key e = allocations_key alt ->
  exists b, In b (replace_better alt (allocations_key alt) u) /\
            allocations_key b = allocations_key alt /\ score alt <= score b.
Proof.
  induction u as [|e0 u IH]; cbn [In]; [tauto|]. intros Hin Hk.
  cbn [replace_better].
  destruct (key_eqb (allocations_key e0) (allocations_key alt)) eqn:Ek.
  - destruct (Qlt_bool (score e0) (score alt)) eqn:Es; cbn [andb In].
    + exists alt. split; [tauto|]. split; [reflexivity|apply Qle_refl].
    + exists e0. split; [tauto|]. apply key_eqb_eq in Ek. split; [exact Ek|].
      apply Qnot_lt_le. intros H. apply Qlt_bool_iff in H. congruence.
  - cbn [andb In]. destruct Hin as [Hin|Hin].
    + subst. rewrite Hk in Ek.
      assert (key_eqb (allocations_key alt) (allocations_key alt) = true)
        by (apply key_eqb_eq; reflexivity). congruence.
    + destruct (IH Hin Hk) as [b [Hb1 Hb2]]. exists b. tauto.
Qed.

Lemma dedup_step_inv (done_ : list Alternative) acc (alt : Alternative) :
  dedup_inv done_ acc -> dedup_inv (done_ ++ [alt]) (dedup_step acc alt).
Proof.
  destruct acc as [seen uniq]. intros [Hs [Hnd [Hsub Hcov]]].
  cbn [fst snd] in *. unfold dedup_step.
  destruct (existsb (key_eqb (allocations_key alt)) seen) eqn:E.
  - apply existsb_exists in E as [k [Hk Hkk]]. apply key_eqb_eq in Hkk. subst k.
    rewrite Hs in Hk. apply in_map_iff in Hk as [e [He Hein]].
    repeat split; cbn [fst snd].
    + rewrite replace_better_keys. exact Hs.
    + exact Hnd.
    + intros x Hx. apply in_or_app. destruct (replace_better_from _ _ _ _ Hx).
      * left. apply Hsub. assumption.
      * right. left. symmetry. assumption.
    + intros a Ha. apply in_app_or in Ha as [Ha|[Ha|[]]].
      * destruct (Hcov a Ha) as [b [Hb [Hbk Hbs]]].
        destruct (replace_better_keeps alt (allocations_key alt) uniq b Hb)
          as [H|[H [Hbalt Hlt]]].
        -- exists b. tauto.
        -- exists alt. split; [exact H|]. split.
           ++ rewrite <- Hbk. symmetry. exact Hbalt.
           ++ eapply Qle_trans; [exact Hbs|]. apply Qlt_le_weak. exact Hlt.
      * subst a. destruct (replace_better_new alt uniq e Hein He) as [b Hb].
        exists b. exact Hb.
  - repeat split; cbn [fst snd].
    + rewrite Hs, map_app. reflexivity.
    + apply NoDup_app; [exact Hnd|repeat constructor; simpl; tauto|].
      intros x Hx [Hx'|[]]. subst x.
      assert (existsb (key_eqb (allocations_key alt)) seen = true) as E'
        by (apply existsb_exists; exists (allocations_key alt);
            split; [exact Hx|apply key_eqb_eq; reflexivity]).
      congruence.
    + intros x Hx. apply in_app_or in Hx as [Hx|Hx]; apply in_or_app;
        [left; apply Hsub; exact Hx|right; exact Hx].
    + intros a Ha. apply in_app_or in Ha as [Ha|[Ha|[]]].
      * destruct (Hcov a Ha) as [b [Hb Hb']]. exists b.
        split; [apply in_or_app; left; exact Hb|exact Hb'].
      * subst a. exists alt. split; [apply in_or_app; right; left; reflexivity|].
        split; [reflexivity|apply Qle_refl].
Qed.

Lemma remove_duplicates_inv (alts : list Alternative) :
  dedup_inv alts (fold_left dedup_step alts ([], [])).
Proof.
  induction alts as [|alt alts IH] using rev_ind.
  - repeat split; cbn [fst snd In]; try tauto. constructor.
  - rewrite fold_left_app. cbn [fold_left]. apply dedup_step_inv. exact IH.
Qed.

(** C5 (corrected), counterexample. [dup_alt_a] and [dup_alt_b] have the
    same normalised allocations and different scores, yet both survive
    [_remove_duplicates] (and normalisation): the raw record lists differ
    by a 0.25h record, which normalisation discards only afterwards. *)
Lemma remove_duplicates_normalized_equal_survive :
  normalized_allocations_of (allocations dup_alt_a) =
    normalized_allocations_of (allocations dup_alt_b) /\
  ~ (score dup_alt_a == score dup_alt_b) /\
  remove_duplicates [dup_alt_a; dup_alt_b] = [dup_alt_a; dup_alt_b] /\
  List.length (normalize_allocations (remove_duplicates [dup_alt_a; dup_alt_b]))
    = 2%nat.
Proof.
  split; [vm_compute; reflexivity|].
  split; [unfold Qeq; simpl; discriminate|].
  split; vm_compute; reflexivity.
Qed.

(** C5 (corrected), amended. Duplicates are detected on the raw allocation
    records, before normalisation: the key of an alternative is the sorted
    list of [(resource_id, task_id, round(hours, 1))] over all its records
    (duplicates kept). After [_remove_duplicates] no two survivors share a
    key, every survivor is an input alternative, and every input
    alternative is represented by a survivor with its key and a score at
    least as high; for two alternatives with one key, the survivor is the
    higher-scoring one, the first on a tie. *)
Theorem remove_duplicates_raw_keys (alternatives : list Alternative) :
  NoDup (map allocations_key (remove_duplicates alternatives)) /\
  (forall x, In x (remove_duplicates alternatives) -> In x alternatives) /\
  (forall a, In a alternatives ->
     exists b, In b (remove_duplicates alternatives) /\
               allocations_key b = allocations_key a /\ score a <= score b) /\
  (forall a b, allocations_key a = allocations_key b ->
     remove_duplicates [a; b] =
       [if Qlt_bool (score a) (score b) then b else a]).
Proof.
  destruct (remove_duplicates_inv alternatives) as [Hs [Hnd [Hsub Hcov]]].
  unfold remove_duplicates. rewrite <- Hs.
  split; [exact Hnd|]. split; [exact Hsub|]. split; [exact Hcov|].
  intros a b Hab. cbn [fold_left dedup_step existsb snd].
  rewrite <- Hab.
  assert (Hk : key_eqb (allocations_key a) (allocations_key a) = true)
    by (apply key_eqb_eq; reflexivity).
  cbn [app existsb]. rewrite Hk. cbn [orb snd replace_better app].
  rewrite Hk. cbn [andb].
  destruct (Qlt_bool (score a) (score b)); reflexivity.
Qed.

(** ** Ranking by score *)

Lemma insert_score_perm (x : Alternative) (l : list Alternative) :
  Permutation (insert_by score_lt x l) (x :: l).
Proof.
  induction l as [|y l IH]; cbn [insert_by]; [reflexivity|].
  destruct (score_lt x y); [reflexivity|].
  rewrite IH. apply perm_swap.
Qed.

Lemma stable_sort_perm_acc (l acc : list Alternative) :
  Permutation (fold_left (fun acc x => insert_by score_lt x acc) l acc)
              (acc ++ l).
Proof.
  revert acc. induction l as [|x l IH]; intros acc; cbn [fold_left].
  - rewrite app_nil_r. reflexivity.
  - rewrite IH, insert_score_perm. apply Permutation_middle.
Qed.

Lemma insert_score_sorted (x : Alternative) (l : list Alternative) :
  StronglySorted score_ge l -> StronglySorted score_ge (insert_by score_lt x l).
Proof.
  induction l as [|y l IH]; intros H; cbn [insert_by].
  - repeat constructor.
  - apply StronglySorted_inv in H as [Hl Hy].
    destruct (score_lt x y) eqn:E.
    + constructor; [constructor; assumption|].
      unfold score_lt in E. apply Qlt_bool_iff in E.
      constructor; [unfold score_ge; apply Qlt_le_weak; exact E|].
      eapply Forall_impl; [|exact Hy]. unfold score_ge. intros z Hz.
      eapply Qle_trans; [exact Hz|apply Qlt_le_weak; exact E].
    + constructor; [apply IH; exact Hl|].
      apply (Permutation_Forall (Permutation_sym (insert_score_perm x l))).
      constructor; [|exact Hy]. unfold score_ge.
      apply Qnot_lt_le. intros Hc. apply Qlt_bool_iff in Hc.
      unfold score_lt in E. congruence.
Qed.

Lemma stable_sort_sorted_acc (l acc : list Alternative) :
  StronglySorted score_ge acc ->
  StronglySorted score_ge (fold_left (fun acc x => insert_by score_lt x acc) l acc).
Proof.
  revert acc. induction l as [|x l IH]; intros acc H; cbn [fold_left];
    [exact H|]. apply IH, insert_score_sorted, H.
Qed.

(** An element is inserted after every element of equal score. *)
Lemma insert_score_filter (q : Q) (x : Alternative) (l : list Alternative) :
  StronglySorted score_ge l ->
  filter (score_is q) (insert_by score_lt x l) =
  filter (score_is q) l ++ filter (score_is q) [x].
Proof.
  induction l as [|y l IH]; intros H; [reflexivity|].
  apply StronglySorted_inv in H as [Hl Hy]. cbn [insert_by].
  destruct (score_lt x y) eqn:E.
  - unfold score_lt in E. apply Qlt_bool_iff in E.
    cbn [filter]. destruct (score_is q x) eqn:Ex.
    + assert (Hnone : filter (score_is q) (y :: l) = []).
      { apply Qeq_bool_iff in Ex.
        assert (Hall : Forall (fun z => score z < score x) (y :: l)).
        { constructor; [exact E|]. eapply Forall_impl; [|exact Hy].
          unfold score_ge. intros z Hz. eapply Qle_lt_trans; eassumption. }
        clear -Hall Ex. induction (y :: l) as [|z zs IHz]; [reflexivity|].
        inversion Hall as [|? ? Hz Hzs]; subst. cbn [filter].
        destruct (score_is q z) eqn:Ez.
        - apply Qeq_bool_iff in Ez. rewrite Ez, <- Ex in Hz.
          exfalso. exact (Qlt_irrefl _ Hz).
        - apply IHz. exact Hzs. }
      cbn [filter] in Hnone. rewrite Hnone. reflexivity.
    + rewrite app_nil_r. reflexivity.
  - cbn [filter]. rewrite (IH Hl). destruct (score_is q y); reflexivity.
Qed.

Lemma stable_sort_filter_acc (q : Q) (l acc : list Alternative) :
  StronglySorted score_ge acc ->
  filter (score_is q) (fold_left (fun acc x => insert_by score_lt x acc) l acc) =
  filter (score_is q) acc ++ filter (score_is q) l.
Proof.
  revert acc. induction l as [|x l IH]; intros acc H; cbn [fold_left].
  - rewrite app_nil_r. reflexivity.
  - rewrite IH by (apply insert_score_sorted, H).
    rewrite insert_score_filter by exact H.
    rewrite <- app_assoc. cbn [filter app].
    destruct (score_is q x); reflexivity.
Qed.

Lemma sort_by_score_desc_spec (l : list Alternative) :
  StronglySorted score_ge (sort_by_score_desc l) /\
  Permutation (sort_by_score_desc l) l /\
  (forall q, filter (score_is q) (sort_by_score_desc l) = filter (score_is q) l).
Proof.
  unfold sort_by_score_desc, stable_sort. fold score_lt.
  split; [apply stable_sort_sorted_acc; constructor|].
  split; [apply stable_sort_perm_acc|].
  intros q. rewrite stable_sort_filter_acc by constructor. reflexivity.
Qed.

Lemma StronglySorted_adjacent (l : list Alternative) (i : nat)
    (a b : Alternative) :
  StronglySorted score_ge l ->
  nth_error l i = Some a -> nth_error l (S i) = Some b -> score b <= score a.
Proof.
  revert i. induction l as [|x l IH]; intros i H Ha Hb;
    [destruct i; discriminate|].
  apply StronglySorted_inv in H as [Hl Hx].
  destruct i as [|i].
  - cbn in Ha, Hb. injection Ha as <-.
    destruct l as [|y l]; [discriminate|]. cbn in Hb. injection Hb as <-.
    inversion Hx; assumption.
  - exact (IH i Hl Ha Hb).
Qed.

(** C10 (confirmed). Whenever [generate_alternatives] returns a list, its
    scores are non-increasing, and it is a stable reordering of the output
    [pre] of the preceding stages (duplicate removal, then normalisation of
    the collected strategy results): for every score value, the alternatives
    with that score appear in the same relative order as in [pre]. *)
Theorem generate_sorted_by_score (fuel : nat) (rs : list Resource)
    (ts : list Task) (l : list Alternative) :
  generate_alternatives fuel rs ts = Returns l ->
  (forall i a b, nth_error l i = Some a -> nth_error l (S i) = Some b ->
     score b <= score a) /\
  exists pre,
    Permutation l pre /\
    (forall q, filter (score_is q) l = filter (score_is q) pre) /\
    (pre = [] \/
     exists alt4 alt5,
       minimize_overload_allocation fuel rs ts = Returns alt4 /\
       greedy_optimized_allocation fuel rs ts = Returns alt5 /\
       pre = normalize_allocations (remove_duplicates
               (collect [Some (priority_based_allocation rs ts);
                         balanced_allocation rs ts;
                         Some (specialization_based_allocation rs ts);
                         alt4; Some alt5]))).
Proof.
  intros H.
  destruct rs as [|r rs]; [|destruct ts as [|t ts]];
    [injection H as <-; split; [intros [|i] a b Ha; discriminate|];
     exists []; split; [constructor|]; split; [reflexivity|left; reflexivity]..|].
  unfold generate_alternatives in H. cbv beta iota in H.
  destruct (minimize_overload_allocation fuel (r :: rs) (t :: ts)) as [alt4|]
    eqn:E4; [|discriminate].
  cbn [run_bind] in H.
  destruct (greedy_optimized_allocation fuel (r :: rs) (t :: ts)) as [alt5|]
    eqn:E5; [|discriminate].
  cbn [run_bind] in H. injection H as <-.
  destruct (sort_by_score_desc_spec
              (normalize_allocations (remove_duplicates
                 (collect [Some (priority_based_allocation (r :: rs) (t :: ts));
                           balanced_allocation (r :: rs) (t :: ts);
                           Some (specialization_based_allocation (r :: rs) (t :: ts));
                           alt4; Some alt5]))))
    as [Hs [Hp Hf]].
  split; [intros i a b; apply StronglySorted_adjacent; exact Hs|].
  eexists. split; [exact Hp|]. split; [exact Hf|].
  right. exists alt4, alt5. split; [reflexivity|]. split; reflexivity.
Qed.

Lemma generate_sorted_by_score_witness :
  generate_alternatives 100 scenario_resources scenario_tasks
    = Returns scenario_output /\
  ((forall i a b, nth_error scenario_output i = Some a ->
      nth_error scenario_output (S i) = Some b -> score b <= score a) /\
   exists pre,
     Permutation scenario_output pre /\
     (forall q, filter (score_is q) scenario_output = filter (score_is q) pre) /\
     (pre = [] \/
      exists alt4 alt5,
        minimize_overload_allocation 100 scenario_resources scenario_tasks
          = Returns alt4 /\
        greedy_optimized_allocation 100 scenario_resources scenario_tasks
          = Returns alt5 /\
        pre = normalize_allocations (remove_duplicates
                (collect [Some (priority_based_allocation scenario_resources scenario_tasks);
                          balanced_allocation scenario_resources scenario_tasks;
                          Some (specialization_based_allocation scenario_resources
                                  scenario_tasks);
                          alt4; Some alt5])))).
Proof.
  assert (H : generate_alternatives 100 scenario_resources scenario_tasks
                = Returns scenario_output) by (vm_compute; reflexivity).
  split; [exact H|].
  exact (generate_sorted_by_score 100 scenario_resources scenario_tasks
           scenario_output H).
Defined.

(** ** Sums, minima and dictionary lookups *)

Lemma fold_left_Qplus_acc (l : list Q) (a : Q) :
  fold_left Qplus l a == a + fold_left Qplus l 0.
Proof.
  revert a. induction l as [|x l IH]; intros a; cbn [fold_left]; [lra|].
  rewrite (IH (a + x)), (IH (0 + x)). lra.
Qed.

Lemma py_sum_nil : py_sum [] == 0.
Proof. reflexivity. Qed.

Lemma py_sum_cons (x : Q) (l : list Q) : py_sum (x :: l) == x + py_sum l.
Proof. unfold py_sum. cbn [fold_left]. rewrite fold_left_Qplus_acc. lra. Qed.

Lemma py_sum_app (l1 l2 : list Q) : py_sum (l1 ++ l2) == py_sum l1 + py_sum l2.
Proof.
  induction l1 as [|x l1 IH]; cbn [app]; [rewrite py_sum_nil; lra|].
  rewrite !py_sum_cons, IH. lra.
Qed.

Lemma py_sum_perm (l1 l2 : list Q) : Permutation l1 l2 -> py_sum l1 == py_sum l2.
Proof.
  induction 1 as [|x l1 l2 _ IH|x y l|l1 l2 l3 _ IH1 _ IH2].
  - reflexivity.
  - rewrite !py_sum_cons, IH. reflexivity.
  - rewrite !py_sum_cons. lra.
  - rewrite IH1, IH2. reflexivity.
Qed.

Lemma py_sum_map_le {A} (f g : A -> Q) (l : list A) :
  (forall x, In x l -> f x <= g x) ->
  py_sum (map f l) <= py_sum (map g l).
Proof.
  induction l as [|x l IH]; intros H; cbn [map]; [apply Qle_refl|].
  rewrite !py_sum_cons.
  assert (f x <= g x) by (apply H; left; reflexivity).
  assert (py_sum (map f l) <= py_sum (map g l))
    by (apply IH; intros y Hy; apply H; right; exact Hy).
  lra.
Qed.

Lemma py_sum_map_nonneg {A} (f : A -> Q) (l : list A) :
  (forall x, In x l -> 0 <= f x) -> 0 <= py_sum (map f l).
Proof.
  intros H. apply Qle_trans with (py_sum (map (fun _ => 0) l)).
  - induction l as [|x l IH]; cbn [map]; [apply Qle_refl|].
    rewrite py_sum_cons. assert (0 <= py_sum (map (fun _ : A => 0) l)).
    { apply IH. intros y Hy. apply H. right. exact Hy. }
    lra.
  - apply py_sum_map_le. exact H.
Qed.

Lemma py_sum_map_scale {A} (f : A -> Q) (c : Q) (l : list A) :
  py_sum (map (fun x => f x * c) l) == py_sum (map f l) * c.
Proof.
  induction l as [|x l IH]; cbn [map]; [reflexivity|].
  rewrite !py_sum_cons, IH. ring.
Qed.

Lemma py_min_le_l (a b : Q) : py_min a b <= a.
Proof.
  unfold py_min. destruct (Qlt_bool b a) eqn:E; [|apply Qle_refl].
  apply Qlt_bool_iff in E. lra.
Qed.

Lemma py_min_le_r (a b : Q) : py_min a b <= b.
Proof.
  unfold py_min. destruct (Qlt_bool b a) eqn:E; [apply Qle_refl|].
  unfold Qlt_bool in E. apply negb_false_iff, Qle_bool_iff in E. exact E.
Qed.

Lemma py_min_pos (a b : Q) : 0 < a -> 0 < b -> 0 < py_min a b.
Proof. unfold py_min. destruct (Qlt_bool b a); auto. Qed.

Lemma Qle_bool_false (a b : Q) : Qle_bool a b = false -> b < a.
Proof.
  intros E. apply Qnot_le_lt. intros H. apply Qle_bool_iff in H. congruence.
Qed.

Lemma insert_by_perm {A} (lt : A -> A -> bool) (x : A) (l : list A) :
  Permutation (insert_by lt x l) (x :: l).
Proof.
  induction l as [|y l IH]; cbn [insert_by]; [reflexivity|].
  destruct (lt x y); [reflexivity|].
  rewrite IH. apply perm_swap.
Qed.

Lemma stable_sort_perm {A} (lt : A -> A -> bool) (l : list A) :
  Permutation (stable_sort lt l) l.
Proof.
  unfold stable_sort.
  assert (H : forall acc, Permutation
            (fold_left (fun acc x => insert_by lt x acc) l acc) (acc ++ l)).
  { induction l as [|x l IH]; intros acc; cbn [fold_left].
    - rewrite app_nil_r. reflexivity.
    - rewrite IH, insert_by_perm. apply Permutation_middle. }
  rewrite H. reflexivity.
Qed.

(** [{key(x): val(x) for x in l}] with unique keys: each key maps to the
    value of its element, other keys keep their old value. *)
Lemma fold_upd_absent {A} (key : A -> Z) (val : A -> Q) (l : list A)
    (m : qmap) (k : Z) :
  ~ In k (map key l) ->
  fold_left (fun m x => upd m (key x) (val x)) l m k = m k.
Proof.
  revert m. induction l as [|x l IH]; intros m H; [reflexivity|].
  cbn [fold_left]. rewrite IH; [|intros Hin; apply H; right; exact Hin].
  unfold upd. destruct (Z.eqb k (key x)) eqn:E; [|reflexivity].
  apply Z.eqb_eq in E. exfalso. apply H. left. symmetry. exact E.
Qed.

Lemma fold_upd_In {A} (key : A -> Z) (val : A -> Q) (l : list A)
    (m : qmap) (x : A) :
  NoDup (map key l) -> In x l ->
  fold_left (fun m x => upd m (key x) (val x)) l m (key x) = val x.
Proof.
  revert m. induction l as [|y l IH]; intros m Hnd Hin; [destruct Hin|].
  cbn [map] in Hnd. inversion Hnd as [|? ? Hy Hnd']; subst.
  cbn [fold_left]. destruct Hin as [<-|Hin].
  - rewrite fold_upd_absent by exact Hy. unfold upd. rewrite Z.eqb_refl.
    reflexivity.
  - apply IH; assumption.
Qed.

Lemma task_requirements_init_In (ts : list Task) (t : Task) :
  NoDup (map t_id ts) -> In t ts ->
  task_requirements_init ts (t_id t) = required_hours t.
Proof. intros. unfold task_requirements_init. apply fold_upd_In; assumption. Qed.

Lemma sum_requirements (ts L : list Task) :
  NoDup (map t_id ts) -> Permutation L ts ->
  py_sum (map (fun t => task_requirements_init ts (t_id t)) L)
    == total_required_of ts.
Proof.
  intros Hnd Hp. unfold total_required_of.
  rewrite (py_sum_perm _ _ (Permutation_map _ Hp)).
  rewrite (map_ext_in _ required_hours ts); [reflexivity|].
  intros t Ht. apply task_requirements_init_In; assumption.
Qed.

(** ** Loop invariants *)

Lemma py_while_inv {S} (P : S -> Prop) (fuel : nat) (cond : S -> bool)
    (body : S -> step S) (s s' : S) :
  (forall s, P s -> cond s = true ->
     match body s with Continue s' => P s' | Break s' => P s' end) ->
  P s -> py_while fuel cond body s = Returns s' -> P s'.
Proof.
  intros Hb. revert s. induction fuel as [|f IH]; intros s Hs Hrun;
    cbn [py_while] in Hrun; [discriminate|].
  destruct (cond s) eqn:Ec; [|injection Hrun as <-; exact Hs].
  specialize (Hb s Hs Ec). destruct (body s) as [s1|s1].
  - exact (IH s1 Hb Hrun).
  - injection Hrun as <-. exact Hb.
Qed.

Lemma run_fold_left_inv {A B} (R : A -> list B -> Prop) (f : A -> B -> run A)
    (l : list B) (a a' : A) :
  (forall a b a' l', f a b = Returns a' -> R a (b :: l') -> R a' l') ->
  R a l -> run_fold_left f l a = Returns a' -> R a' [].
Proof.
  intros Hf. revert a. induction l as [|b l IH]; intros a Ha Hrun;
    cbn [run_fold_left] in Hrun; [injection Hrun as <-; exact Ha|].
  destruct (f a b) as [a1|] eqn:E; [|discriminate].
  cbn [run_bind] in Hrun. exact (IH a1 (Hf _ _ _ _ E Ha) Hrun).
Qed.

Lemma overload_body_step (rs : list Resource) (il : Q) (task : Task)
    (s : AState * Q) :
  commit_step (t_id task) s (next_state (overload_body rs il task s)).
Proof.
  destruct s as [st need]. unfold overload_body.
  destruct (match filter _ rs with [] => _ | _ :: _ => _ end) as [|r0 rest];
    [left; reflexivity|].
  set (b := select_best _ r0 rest).
  set (h := py_min (py_min need (st_hours st (r_id b)))
                   (il * 1.2 - st_load st (r_id b))).
  destruct (Qlt_bool 0 h) eqn:E; [|left; reflexivity].
  right. exists (r_id b), h. apply Qlt_bool_iff in E.
  pose proof (py_min_le_l (py_min need (st_hours st (r_id b)))
                (il * 1.2 - st_load st (r_id b))).
  pose proof (py_min_le_l need (st_hours st (r_id b))).
  pose proof (py_min_le_r need (st_hours st (r_id b))).
  fold h in H. clearbody h b. cbn [fst snd]. repeat split; try reflexivity; lra.
Qed.

Lemma greedy_body_step (rs : list Resource) (task : Task) (s : AState * Q) :
  commit_step (t_id task) s (next_state (greedy_body rs task s)).
Proof.
  destruct s as [st need]. unfold greedy_body.
  destruct (filter _ rs) as [|r0 rest]; [left; reflexivity|].
  set (b := select_best _ r0 rest).
  set (h := py_min need (st_hours st (r_id b))).
  destruct (Qlt_bool 0.1 h) eqn:E; [|left; reflexivity].
  right. exists (r_id b), h. apply Qlt_bool_iff in E.
  pose proof (py_min_le_l need (st_hours st (r_id b))).
  pose proof (py_min_le_r need (st_hours st (r_id b))).
  change (py_min need (st_hours st (r_id b))) with h in H, H0. clearbody h b. cbn [fst snd]. repeat split; try reflexivity; lra.
Qed.

(** ** Total committed hours *)

Section Measure.

(** A quantity of the allocation state that grows by exactly [h] on each
    commitment of [h] hours: [total_allocated], or the sum of the hours of
    the [allocations] list. *)
Variable m : AState -> Q.
Hypothesis m_commit : forall st rid tid h, m (commit st rid tid h) == m st + h.
Hypothesis m_count : forall st, m (count_match st) == m st.

Lemma walk_measure (g c : Resource -> bool) (task : Task) (rs : list Resource) :
  forall need st, 0 <= need ->
  m (snd (walk g c task rs need st)) + fst (walk g c task rs need st)
    == m st + need /\ 0 <= fst (walk g c task rs need st).
Proof.
  induction rs as [|r rs IH]; intros need st Hn; cbn [walk].
  - cbn [fst snd]. split; lra.
  - destruct (Qle_bool need 0); [cbn [fst snd]; split; lra|].
    destruct (Qlt_bool 0 (st_hours st (r_id r)) && g r); [|apply IH; exact Hn].
    pose proof (py_min_le_l need (st_hours st (r_id r))) as Hh.
    set (h := py_min need (st_hours st (r_id r))) in *. clearbody h.
    pose proof (m_commit st (r_id r) (t_id task) h) as Hc.
    pose proof (m_count (commit st (r_id r) (t_id task) h)) as Hm.
    destruct (c r);
      [destruct (IH (need - h) (count_match (commit st (r_id r) (t_id task) h)))
         as [H1 H2]
      |destruct (IH (need - h) (commit st (r_id r) (t_id task) h)) as [H1 H2]];
      try lra; split; lra.
Qed.

Lemma balanced_walk_measure (task : Task) (share : Q) (rs : list Resource) :
  forall alloc st, alloc <= share ->
  m (snd (balanced_walk task share rs alloc st))
    - fst (balanced_walk task share rs alloc st) == m st - alloc /\
  fst (balanced_walk task share rs alloc st) <= share.
Proof.
  induction rs as [|r rs IH]; intros alloc st Ha; cbn [balanced_walk].
  - cbn [fst snd]. split; lra.
  - destruct (Qle_bool share alloc); [cbn [fst snd]; split; lra|].
    destruct (Qlt_bool 0 (st_hours st (r_id r))); [|apply IH; exact Ha].
    pose proof (py_min_le_l (share - alloc) (st_hours st (r_id r))) as Hh.
    set (h := py_min (share - alloc) (st_hours st (r_id r))) in *. clearbody h.
    pose proof (m_commit st (r_id r) (t_id task) h) as Hc.
    destruct (IH (alloc + h) (commit st (r_id r) (t_id task) h)) as [H1 H2];
      [lra|split; lra].
Qed.

Lemma fold_measure {A} (f : AState -> A -> AState) (w : A -> Q) (L : list A) :
  forall st, (forall st a, In a L -> m (f st a) <= m st + w a) ->
  m (fold_left f L st) <= m st + py_sum (map w L).
Proof.
  induction L as [|a L IH]; intros st Hf; cbn [fold_left map].
  - rewrite py_sum_nil. lra.
  - rewrite py_sum_cons.
    assert (H1 : m (f st a) <= m st + w a) by (apply Hf; left; reflexivity).
    assert (H2 : m (fold_left f L (f st a)) <= m (f st a) + py_sum (map w L))
      by (apply IH; intros st' a' Ha'; apply Hf; right; exact Ha').
    lra.
Qed.

Lemma run_fold_measure {A} (f : AState -> A -> run AState) (w : A -> Q)
    (L : list A) :
  forall st st', (forall st a st', In a L -> f st a = Returns st' ->
                    m st' <= m st + w a) ->
  run_fold_left f L st = Returns st' -> m st' <= m st + py_sum (map w L).
Proof.
  induction L as [|a L IH]; intros st st' Hf Hrun; cbn [run_fold_left map] in *.
  - injection Hrun as <-. rewrite py_sum_nil. lra.
  - rewrite py_sum_cons.
    destruct (f st a) as [st1|] eqn:E; [|discriminate].
    cbn [run_bind] in Hrun.
    assert (H1 : m st1 <= m st + w a) by (apply (Hf _ _ _ (or_introl eq_refl) E)).
    assert (H2 : m st' <= m st1 + py_sum (map w L))
      by (apply (IH st1 st'); [intros s b s' Hb; apply Hf; right; exact Hb
                              |exact Hrun]).
    lra.
Qed.

Lemma while_measure (fuel : nat) (tid : Z) (body : AState * Q -> step (AState * Q))
    (s s' : AState * Q) :
  (forall s, commit_step tid s (next_state (body s))) ->
  0 <= snd s -> py_while fuel (fun s => Qlt_bool 0 (snd s)) body s = Returns s' ->
  m (fst s') + snd s' == m (fst s) + snd s /\ 0 <= snd s'.
Proof.
  intros Hb Hs.
  apply (py_while_inv (fun x => m (fst x) + snd x == m (fst s) + snd s
                                /\ 0 <= snd x)); [|split; [reflexivity|exact Hs]].
  intros x [Hx1 Hx2] _.
  assert (Hstep : m (fst (next_state (body x))) + snd (next_state (body x))
                    == m (fst s) + snd s /\ 0 <= snd (next_state (body x))).
  { destruct (Hb x) as [-> | (rid & h & H0 & H1 & H2 & ->)]; [split; assumption|].
    cbn [fst snd]. pose proof (m_commit (fst x) rid tid h). split; lra. }
  destruct (body x); exact Hstep.
Qed.

End Measure.

Lemma st_total_commit (st : AState) (rid tid : Z) (h : Q) :
  st_total (commit st rid tid h) == st_total st + h.
Proof. reflexivity. Qed.

Lemma st_total_count (st : AState) : st_total (count_match st) == st_total st.
Proof. reflexivity. Qed.

Lemma allocated_sum_commit (st : AState) (rid tid : Z) (h : Q) :
  allocated_sum (commit st rid tid h) == allocated_sum st + h.
Proof.
  unfold allocated_sum, commit. cbn [st_allocs]. rewrite map_app, py_sum_app.
  cbn [map]. rewrite py_sum_cons, py_sum_nil. cbn [hours]. lra.
Qed.

Lemma allocated_sum_count (st : AState) :
  allocated_sum (count_match st) == allocated_sum st.
Proof. reflexivity. Qed.

Lemma div_le_one (a b : Q) : a <= b -> (if Qlt_bool 0 b then a / b else 0) <= 1.
Proof.
  intros H. destruct (Qlt_bool 0 b) eqn:E; [|lra].
  apply Qlt_bool_iff in E. apply Qle_shift_div_r; [exact E|lra].
Qed.

(** ** Per-strategy totals *)

Section Totals.

Variables (rs : list Resource) (ts : list Task).
Hypothesis ids_unique : NoDup (map t_id ts).
Hypothesis required_pos : forall t, In t ts -> 0 < required_hours t.

Lemma requirement_nonneg (L : list Task) (t : Task) :
  Permutation L ts -> In t L -> 0 <= task_requirements_init ts (t_id t).
Proof.
  intros Hp Ht. apply (Permutation_in _ Hp) in Ht.
  rewrite task_requirements_init_In by assumption.
  apply Qlt_le_weak, required_pos, Ht.
Qed.

Lemma priority_total : st_total (priority_run rs ts) <= total_required_of ts.
Proof.
  unfold priority_run.
  pose proof (stable_sort_perm (fun a b => Z.ltb (priority a) (priority b)) ts)
    as Hp.
  eapply Qle_trans;
    [apply (fold_measure st_total _
              (fun t => task_requirements_init ts (t_id t)))|].
  - intros st t Ht.
    destruct (walk_measure st_total st_total_commit st_total_count
                (fun _ => true) (fun _ => false) t rs
                (task_requirements_init ts (t_id t)) st) as [H1 H2];
      [exact (requirement_nonneg _ _ Hp Ht)|].
    lra.
  - cbn [init_state st_total]. rewrite (sum_requirements ts _ ids_unique Hp).
    lra.
Qed.

Lemma specialization_total :
  st_total (specialization_run rs ts) <= total_required_of ts.
Proof.
  unfold specialization_run.
  pose proof (stable_sort_perm
    (fun a b => Z.ltb (priority a) (priority b)
             || (Z.eqb (priority a) (priority b)
                 && Qlt_bool (- required_hours a) (- required_hours b))) ts)
    as Hp.
  eapply Qle_trans;
    [apply (fold_measure st_total _
              (fun t => task_requirements_init ts (t_id t)))|].
  - intros st t Ht. unfold specialization_task.
    pose proof (requirement_nonneg _ _ Hp Ht) as Hn.
    destruct (walk_measure st_total st_total_commit st_total_count
                (fun _ => true) (fun r => str_mem (r_type r) (suitable_types t))
                t (resources_to_try rs t) (task_requirements_init ts (t_id t)) st Hn)
      as [H1 H2].
    destruct (walk _ _ t (resources_to_try rs t) _ st) as [need st1].
    cbn [fst snd] in H1, H2.
    destruct (Qlt_bool 0 need); [|lra].
    destruct (walk_measure st_total st_total_commit st_total_count
                (fun r => negb (resource_mem r (resources_to_try rs t)))
                (fun _ => false) t rs need st1 H2) as [H3 H4].
    lra.
  - cbn [init_state st_total]. rewrite (sum_requirements ts _ ids_unique Hp).
    lra.
Qed.

Lemma overload_total (fuel : nat) (st : AState) :
  overload_run fuel rs ts = Returns st -> allocated_sum st <= total_required_of ts.
Proof.
  unfold overload_run. intros Hrun.
  pose proof (stable_sort_perm
    (fun a b => Z.ltb (priority a) (priority b)
             || (Z.eqb (priority a) (priority b)
                 && Qlt_bool (- required_hours a) (- required_hours b))) ts)
    as Hp.
  eapply Qle_trans;
    [eapply (run_fold_measure allocated_sum _
              (fun t => task_requirements_init ts (t_id t))); [|exact Hrun]|].
  - intros st0 t st1 Ht Hf. unfold overload_task in Hf.
    destruct (py_while _ _ _ _) as [s|] eqn:Ew; [|discriminate].
    cbn [run_bind] in Hf. injection Hf as <-.
    destruct (while_measure allocated_sum allocated_sum_commit fuel (t_id t) _
                (st0, task_requirements_init ts (t_id t)) _
                (overload_body_step rs (ideal_load_of rs ts) t)
                (requirement_nonneg _ _ Hp Ht) Ew) as [H1 H2].
    cbn [fst snd] in H1. lra.
  - unfold allocated_sum at 1. cbn [init_state st_allocs map].
    rewrite py_sum_nil, (sum_requirements ts _ ids_unique Hp). lra.
Qed.

Lemma greedy_total (fuel : nat) (st : AState) :
  greedy_run fuel rs ts = Returns st -> st_total st <= total_required_of ts.
Proof.
  unfold greedy_run. intros Hrun.
  pose proof (stable_sort_perm
    (fun a b => Z.ltb (priority a) (priority b)
             || (Z.eqb (priority a) (priority b)
                 && Qlt_bool (- required_hours a) (- required_hours b))) ts)
    as Hp.
  eapply Qle_trans;
    [eapply (run_fold_measure st_total _
              (fun t => task_requirements_init ts (t_id t))); [|exact Hrun]|].
  - intros st0 t st1 Ht Hf. unfold greedy_task in Hf.
    destruct (py_while _ _ _ _) as [s|] eqn:Ew; [|discriminate].
    cbn [run_bind] in Hf. injection Hf as <-.
    destruct (while_measure st_total st_total_commit fuel (t_id t) _
                (st0, task_requirements_init ts (t_id t)) _
                (greedy_body_step rs t)
                (requirement_nonneg _ _ Hp Ht) Ew) as [H1 H2].
    cbn [fst snd] in H1. lra.
  - cbn [init_state st_total]. rewrite (sum_requirements ts _ ids_unique Hp).
    lra.
Qed.

Hypothesis available_pos : forall r, In r rs -> 0 < available_hours r.

Lemma total_available_nonneg : 0 <= total_available_of rs.
Proof.
  apply py_sum_map_nonneg. intros r Hr. apply Qlt_le_weak, available_pos, Hr.
Qed.

Lemma total_required_nonneg : 0 <= total_required_of ts.
Proof.
  apply py_sum_map_nonneg. intros t Ht. apply Qlt_le_weak, required_pos, Ht.
Qed.

Lemma balanced_total :
  0 < total_required_of ts ->
  st_total (balanced_run rs ts) <= total_available_of rs.
Proof.
  intros HTR. unfold balanced_run.
  set (TA := total_available_of rs). set (TR := total_required_of ts) in *.
  set (props := fold_left (fun m t => upd m (t_id t) (required_hours t / TR))
                  ts (fun _ => 0)).
  assert (Hprop : forall t, In t ts -> props (t_id t) = required_hours t / TR)
    by (intros t Ht; apply (fold_upd_In t_id (fun t => required_hours t / TR));
        assumption).
  assert (HTA : 0 <= TA) by apply total_available_nonneg.
  eapply Qle_trans;
    [apply (fold_measure st_total _
              (fun t => required_hours t / TR * TA))|].
  - intros st t Ht. rewrite Hprop by exact Ht.
    assert (Hs : 0 <= required_hours t / TR * TA).
    { apply Qmult_le_0_compat; [|exact HTA].
      apply Qle_shift_div_l; [exact HTR|].
      pose proof (required_pos t Ht). lra. }
    destruct (balanced_walk_measure st_total st_total_commit t
                (required_hours t / TR * TA) rs 0 st Hs) as [H1 H2].
    lra.
  - cbn [init_state st_total].
    rewrite (py_sum_map_scale (fun t => required_hours t / TR) TA).
    rewrite (py_sum_map_scale required_hours (/ TR)).
    fold (total_required_of ts). fold TR.
    setoid_replace (TR * / TR) with 1
      by (apply Qmult_inv_r; intros E; lra).
    lra.
Qed.

End Totals.

(** C4 (corrected), counterexample. One 10h resource and one 5h task: the
    balanced strategy gives the task its share [5/5 * 10 = 10] of the total
    capacity, commits all 10 hours, and reports coverage 2. *)
Lemma balanced_coverage_exceeds_one :
  (forall r, In r balanced_resources -> 0 < available_hours r) /\
  (forall t, In t balanced_tasks -> 0 < required_hours t) /\
  NoDup (map t_id balanced_tasks) /\
  balanced_coverage_value balanced_resources balanced_tasks == 2 /\
  exists alt, balanced_allocation balanced_resources balanced_tasks = Some alt /\
    explanation alt
      = ExplBalanced (balanced_coverage_value balanced_resources balanced_tasks) /\
    hours_of_resource (allocations alt) 1 == 10.
Proof.
  split; [intros r [<-|[]]; reflexivity|].
  split; [intros t [<-|[]]; reflexivity|].
  split; [repeat constructor; simpl; tauto|].
  split; [vm_compute; reflexivity|].
  eexists. split; [reflexivity|]. split; [reflexivity|].
  vm_compute. reflexivity.
Qed.

(** C4 (corrected), amended. For inputs with unique task ids, positive
    required hours and positive available hours: the coverage computed by the
    priority, specialization, overload-minimizing and greedy strategies
    ([total_allocated / total_required]) is at most 1 (for the last two,
    whenever their [while] loops end); the balanced strategy's coverage is
    at most [total_available / total_required], which exceeds 1 when the
    capacity exceeds the demand. *)
Theorem strategy_coverage_bounds (fuel : nat) (rs : list Resource)
    (ts : list Task)
    (Hids : NoDup (map t_id ts))
    (Hreq : forall t, In t ts -> 0 < required_hours t)
    (Havail : forall r, In r rs -> 0 < available_hours r) :
  priority_coverage_value rs ts <= 1 /\
  specialization_coverage_value rs ts <= 1 /\
  (forall alt, minimize_overload_allocation fuel rs ts = Returns (Some alt) ->
     exists c ml, explanation alt = ExplOverload c ml /\ c <= 1) /\
  (forall alt, greedy_optimized_allocation fuel rs ts = Returns alt ->
     exists c e, explanation alt = ExplGreedy c e /\ c <= 1) /\
  balanced_coverage_value rs ts <= total_available_of rs / total_required_of ts.
Proof.
  split; [apply div_le_one, priority_total; assumption|].
  split; [apply div_le_one, specialization_total; assumption|].
  split.
  { intros alt H. unfold minimize_overload_allocation in H.
    destruct (Qeq_bool (total_available_of rs) 0); [discriminate|].
    destruct (overload_run fuel rs ts) as [st|] eqn:E; [|discriminate].
    cbn [run_bind] in H. injection H as <-.
    eexists; eexists; split; [reflexivity|].
    apply div_le_one. exact (overload_total rs ts Hids Hreq fuel st E). }
  split.
  { intros alt H. unfold greedy_optimized_allocation in H.
    destruct (greedy_run fuel rs ts) as [st|] eqn:E; [|discriminate].
    cbn [run_bind] in H. injection H as <-.
    eexists; eexists; split; [reflexivity|].
    apply div_le_one. exact (greedy_total rs ts Hids Hreq fuel st E). }
  unfold balanced_coverage_value.
  pose proof (total_available_nonneg rs Havail) as HTA.
  assert (Hinv : 0 <= / total_required_of ts)
    by (apply Qinv_le_0_compat, total_required_nonneg; assumption).
  destruct (Qlt_bool 0 (total_required_of ts)) eqn:E.
  - apply Qlt_bool_iff in E. apply Qmult_le_compat_r; [|exact Hinv].
    apply balanced_total; assumption.
  - apply Qmult_le_0_compat; assumption.
Qed.

Lemma strategy_coverage_bounds_witness :
  NoDup (map t_id scenario_tasks) /\
  (forall t, In t scenario_tasks -> 0 < required_hours t) /\
  (forall r, In r scenario_resources -> 0 < available_hours r) /\
  (priority_coverage_value scenario_resources scenario_tasks <= 1 /\
   specialization_coverage_value scenario_resources scenario_tasks <= 1 /\
   (forall alt, minimize_overload_allocation 100 scenario_resources scenario_tasks
                  = Returns (Some alt) ->
      exists c ml, explanation alt = ExplOverload c ml /\ c <= 1) /\
   (forall alt, greedy_optimized_allocation 100 scenario_resources scenario_tasks
                  = Returns alt ->
      exists c e, explanation alt = ExplGreedy c e /\ c <= 1) /\
   balanced_coverage_value scenario_resources scenario_tasks
     <= total_available_of scenario_resources / total_required_of scenario_tasks).
Proof.
  assert (H1 : NoDup (map t_id scenario_tasks))
    by (repeat constructor; simpl; lia).
  assert (H2 : forall t, In t scenario_tasks -> 0 < required_hours t)
    by (intros t Ht; simpl in Ht; decompose sum Ht; subst; vm_compute;
        reflexivity).
  assert (H3 : forall r, In r scenario_resources -> 0 < available_hours r)
    by (intros r Hr; simpl in Hr; decompose sum Hr; subst; vm_compute;
        reflexivity).
  split; [exact H1|]. split; [exact H2|]. split; [exact H3|].
  exact (strategy_coverage_bounds 100 scenario_resources scenario_tasks H1 H2 H3).
Defined.

(** ** Capacity *)

Lemma hours_of_resource_nil (rid : Z) : hours_of_resource [] rid == 0.
Proof. reflexivity. Qed.

Lemma hours_of_resource_cons (a : Allocation) (l : list Allocation) (rid : Z) :
  hours_of_resource (a :: l) rid
    == (if Z.eqb (resource_id a) rid then hours a else 0)
       + hours_of_resource l rid.
Proof.
  unfold hours_of_resource. cbn [filter].
  destruct (Z.eqb (resource_id a) rid); cbn [map]; [rewrite py_sum_cons|]; lra.
Qed.

Lemma hours_of_resource_app (l1 l2 : list Allocation) (rid : Z) :
  hours_of_resource (l1 ++ l2) rid
    == hours_of_resource l1 rid + hours_of_resource l2 rid.
Proof. unfold hours_of_resource. rewrite filter_app, map_app, py_sum_app. lra. Qed.

Lemma py_len_cons {A} (x : A) (l : list A) : py_len (x :: l) == 1 + py_len l.
Proof. unfold py_len. cbn [List.length]. rewrite Nat2Z.inj_succ, <- Z.add_1_l, inject_Z_plus. reflexivity. Qed.

Lemma py_len_nonneg {A} (l : list A) : 0 <= py_len l.
Proof. unfold py_len, Qle. simpl. lia. Qed.

Lemma cap_inv_commit (h0 : qmap) (st : AState) (rid tid : Z) (h : Q) :
  cap_inv h0 st -> 0 < h -> h <= st_hours st rid ->
  cap_inv h0 (commit st rid tid h).
Proof.
  intros [Hc Hp] Hh Hle. split.
  - intros k. unfold commit. cbn [st_hours st_allocs].
    rewrite hours_of_resource_app, hours_of_resource_cons, hours_of_resource_nil.
    cbn [resource_id hours]. unfold upd.
    destruct (Hc k) as [Hk1 Hk2].
    destruct (Z.eqb k rid) eqn:E.
    + apply Z.eqb_eq in E. subst k. rewrite Z.eqb_refl. split; lra.
    + rewrite Z.eqb_sym, E. split; lra.
  - intros a Ha. unfold commit in Ha. cbn [st_allocs] in Ha.
    apply in_app_iff in Ha. destruct Ha as [Ha|[<-|[]]]; [exact (Hp a Ha)|exact Hh].
Qed.

Lemma cap_inv_count (h0 : qmap) (st : AState) :
  cap_inv h0 st -> cap_inv h0 (count_match st).
Proof. exact (fun H => H). Qed.

Lemma cap_inv_init (rs : list Resource) :
  (forall r, In r rs -> 0 <= available_hours r) ->
  cap_inv (resource_hours_init rs) (init_state rs).
Proof.
  intros Hav. split; [|intros a []].
  intros k. cbn [init_state st_hours st_allocs]. split; [|pose proof (hours_of_resource_nil k); lra].
  unfold resource_hours_init.
  assert (H : forall m, (forall k, 0 <= m k) -> forall k,
             0 <= fold_left (fun m r => upd m (r_id r) (available_hours r)) rs m k).
  { induction rs as [|r rs IH]; intros m Hm k'; [apply Hm|].
    cbn [fold_left]. apply IH; [intros r' Hr'; apply Hav; right; exact Hr'|].
    intros k''. unfold upd. destruct (Z.eqb k'' (r_id r));
      [apply Hav; left; reflexivity|apply Hm]. }
  apply H. intros _. apply Qle_refl.
Qed.

Section Preserve.

(** A property of the allocation state kept by every commitment of a
    positive amount within the remaining capacity of the resource. *)
Variable I : AState -> Prop.
Hypothesis I_commit : forall st rid tid h,
  I st -> 0 < h -> h <= st_hours st rid -> I (commit st rid tid h).
Hypothesis I_count : forall st, I st -> I (count_match st).

Lemma walk_preserves (g c : Resource -> bool) (task : Task)
    (rs : list Resource) :
  forall need st, I st -> I (snd (walk g c task rs need st)).
Proof.
  induction rs as [|r rs IH]; intros need st Hst; cbn [walk]; [exact Hst|].
  destruct (Qle_bool need 0) eqn:En; [exact Hst|].
  destruct (Qlt_bool 0 (st_hours st (r_id r)) && g r) eqn:Eg;
    [|apply IH; exact Hst].
  apply andb_true_iff in Eg as [Eh _]. apply Qlt_bool_iff in Eh.
  apply Qle_bool_false in En.
  assert (Hc : I (commit st (r_id r) (t_id task)
                    (py_min need (st_hours st (r_id r))))).
  { apply I_commit; [exact Hst|apply py_min_pos; assumption|apply py_min_le_r]. }
  destruct (c r); apply IH; [apply I_count|]; exact Hc.
Qed.

Lemma balanced_walk_preserves (task : Task) (share : Q) (rs : list Resource) :
  forall alloc st, I st -> I (snd (balanced_walk task share rs alloc st)).
Proof.
  induction rs as [|r rs IH]; intros alloc st Hst; cbn [balanced_walk];
    [exact Hst|].
  destruct (Qle_bool share alloc) eqn:Ea; [exact Hst|].
  destruct (Qlt_bool 0 (st_hours st (r_id r))) eqn:Eh; [|apply IH; exact Hst].
  apply Qlt_bool_iff in Eh. apply Qle_bool_false in Ea.
  apply IH, I_commit; [exact Hst| |apply py_min_le_r].
  apply py_min_pos; [lra|exact Eh].
Qed.

Lemma fold_preserves {A} (f : AState -> A -> AState) (L : list A) :
  (forall st a, I st -> I (f st a)) ->
  forall st, I st -> I (fold_left f L st).
Proof.
  intros Hf. induction L as [|a L IH]; intros st Hst; [exact Hst|].
  apply IH, Hf, Hst.
Qed.

Lemma run_fold_preserves {A} (f : AState -> A -> run AState) (L : list A)
    (st st' : AState) :
  (forall st a st', I st -> f st a = Returns st' -> I st') ->
  I st -> run_fold_left f L st = Returns st' -> I st'.
Proof.
  intros Hf Hst Hrun.
  exact (run_fold_left_inv (fun a _ => I a) f L st st'
           (fun a b a' _ E Ha => Hf a b a' Ha E) Hst Hrun).
Qed.

Lemma while_preserves (fuel : nat) (tid : Z)
    (body : AState * Q -> step (AState * Q)) (s s' : AState * Q) :
  (forall s, commit_step tid s (next_state (body s))) ->
  I (fst s) ->
  py_while fuel (fun s => Qlt_bool 0 (snd s)) body s = Returns s' -> I (fst s').
Proof.
  intros Hb. apply (py_while_inv (fun x => I (fst x))).
  intros x Hx _.
  assert (Hs : I (fst (next_state (body x)))).
  { destruct (Hb x) as [-> | (rid & h & H0 & _ & H2 & ->)]; [exact Hx|].
    apply I_commit; assumption. }
  destruct (body x); exact Hs.
Qed.

Lemma priority_run_preserves (rs : list Resource) (ts : list Task) :
  I (init_state rs) -> I (priority_run rs ts).
Proof.
  intros H. unfold priority_run. apply fold_preserves; [|exact H].
  intros st t Hst. apply walk_preserves, Hst.
Qed.

Lemma balanced_run_preserves (rs : list Resource) (ts : list Task) :
  I (init_state rs) -> I (balanced_run rs ts).
Proof.
  intros H. unfold balanced_run. apply fold_preserves; [|exact H].
  intros st t Hst. apply balanced_walk_preserves, Hst.
Qed.

Lemma specialization_run_preserves (rs : list Resource) (ts : list Task) :
  I (init_state rs) -> I (specialization_run rs ts).
Proof.
  intros H. unfold specialization_run. apply fold_preserves; [|exact H].
  intros st t Hst. unfold specialization_task.
  pose proof (walk_preserves (fun _ => true)
                (fun r => str_mem (r_type r) (suitable_types t)) t
                (resources_to_try rs t) (task_requirements_init ts (t_id t))
                st Hst) as H1.
  destruct (walk _ _ _ _ _ st) as [need st1]. cbn [snd] in H1.
  destruct (Qlt_bool 0 need); [apply walk_preserves|]; exact H1.
Qed.

Lemma overload_run_preserves (fuel : nat) (rs : list Resource)
    (ts : list Task) (st : AState) :
  I (init_state rs) -> overload_run fuel rs ts = Returns st -> I st.
Proof.
  intros H Hrun. unfold overload_run in Hrun.
  refine (run_fold_preserves _ _ _ _ _ H Hrun). intros st0 t st1 H0 Hf.
  unfold overload_task in Hf.
  destruct (py_while _ _ _ _) as [s|] eqn:Ew; [|discriminate].
  cbn [run_bind] in Hf. injection Hf as <-.
  exact (while_preserves fuel (t_id t) _ (st0, _) _ (overload_body_step rs _ t) H0 Ew).
Qed.

Lemma greedy_run_preserves (fuel : nat) (rs : list Resource)
    (ts : list Task) (st : AState) :
  I (init_state rs) -> greedy_run fuel rs ts = Returns st -> I st.
Proof.
  intros H Hrun. unfold greedy_run in Hrun.
  refine (run_fold_preserves _ _ _ _ _ H Hrun). intros st0 t st1 H0 Hf.
  unfold greedy_task in Hf.
  destruct (py_while _ _ _ _) as [s|] eqn:Ew; [|discriminate].
  cbn [run_bind] in Hf. injection Hf as <-.
  exact (while_preserves fuel (t_id t) _ (st0, _) _ (greedy_body_step rs t) H0 Ew).
Qed.

End Preserve.

(** ** Normalisation adds at most 0.05h per entry *)

Lemma Qlt_bool_false (a b : Q) : Qlt_bool a b = false -> b <= a.
Proof. unfold Qlt_bool. intros E. apply negb_false_iff, Qle_bool_iff in E. exact E. Qed.

Lemma round_half_even_le (y : Q) : inject_Z (round_half_even y) <= y + (1 # 2).
Proof.
  unfold round_half_even. pose proof (Qfloor_le y) as Hf.
  set (f := Qfloor y) in *.
  assert (Hs : inject_Z (f + 1) == inject_Z f + 1)
    by (rewrite inject_Z_plus; reflexivity).
  destruct (Qlt_bool (y - inject_Z f) (1 # 2)) eqn:E1; [lra|].
  apply Qlt_bool_false in E1.
  destruct (Qlt_bool (1 # 2) (y - inject_Z f)); [lra|].
  destruct (Z.even f); lra.
Qed.

Lemma py_round1_le (x : Q) : py_round1 x <= x + (1 # 20).
Proof.
  unfold py_round1, round1_tenths.
  pose proof (round_half_even_le (x * 10)) as H.
  set (n := round_half_even (x * 10)) in *.
  assert (E : Qmake n 10 == inject_Z n * (1 # 10))
    by (unfold Qeq; simpl; lia).
  lra.
Qed.

Lemma py_sum_map_eq {A} (f g : A -> Q) (l : list A) :
  (forall x, In x l -> f x == g x) -> py_sum (map f l) == py_sum (map g l).
Proof.
  intros H. apply Qle_antisym; apply py_sum_map_le; intros x Hx;
    rewrite (H x Hx); apply Qle_refl.
Qed.

Lemma py_sum_map_add {A} (f g : A -> Q) (l : list A) :
  py_sum (map (fun x => f x + g x) l) == py_sum (map f l) + py_sum (map g l).
Proof.
  induction l as [|x l IH]; cbn [map]; [reflexivity|].
  rewrite !py_sum_cons, IH. lra.
Qed.

Lemma py_sum_map_zero {A} (l : list A) : py_sum (map (fun _ => 0) l) == 0.
Proof.
  induction l as [|x l IH]; cbn [map]; [reflexivity|].
  rewrite py_sum_cons, IH. lra.
Qed.

Lemma pair_sum_nonneg (allocs : list Allocation) (k : Z * Z) :
  (forall a, In a allocs -> 0 <= hours a) -> 0 <= pair_sum allocs k.
Proof.
  induction allocs as [|a l IH] using rev_ind; intros H; [apply Qle_refl|].
  rewrite pair_sum_app.
  assert (0 <= pair_sum l k)
    by (apply IH; intros b Hb; apply H, in_or_app; left; exact Hb).
  destruct (pair_eqb (alloc_pair a) k); [|assumption].
  assert (0 <= hours a) by (apply H, in_or_app; right; left; reflexivity).
  lra.
Qed.

(** Summing one pair's indicator over a duplicate-free list of pairs. *)
Lemma py_sum_indicator (p : Z * Z) (x : Q) (L : list (Z * Z)) :
  NoDup L ->
  py_sum (map (fun k => if pair_eqb p k then x else 0) L)
    == if existsb (pair_eqb p) L then x else 0.
Proof.
  induction L as [|k L IH]; intros Hnd; [reflexivity|].
  inversion Hnd as [|? ? Hk Hnd']; subst.
  cbn [map existsb]. rewrite py_sum_cons, (IH Hnd').
  destruct (pair_eqb p k) eqn:E; cbn [orb]; [|lra].
  apply pair_eqb_eq in E. subst k.
  destruct (existsb (pair_eqb p) L) eqn:E'; [|lra].
  apply existsb_pair_In in E'. contradiction.
Qed.

(** The hours of a resource are the sum, over its distinct pairs, of the
    pair sums. *)
Lemma pair_sums_by_resource (allocs : list Allocation) (D : list (Z * Z))
    (rid : Z) :
  NoDup D -> (forall a, In a allocs -> In (alloc_pair a) D) ->
  py_sum (map (pair_sum allocs) (filter (fun k => Z.eqb (fst k) rid) D))
    == hours_of_resource allocs rid.
Proof.
  intros Hnd. induction allocs as [|a l IH] using rev_ind; intros HD.
  - apply py_sum_map_zero.
  - rewrite hours_of_resource_app, hours_of_resource_cons, hours_of_resource_nil.
    rewrite <- IH by (intros b Hb; apply HD, in_or_app; left; exact Hb).
    rewrite (py_sum_map_eq _ (fun k => pair_sum l k
                + (if pair_eqb (alloc_pair a) k then hours a else 0)))
      by (intros k _; rewrite pair_sum_app;
          destruct (pair_eqb (alloc_pair a) k); lra).
    rewrite py_sum_map_add, py_sum_indicator by (apply NoDup_filter, Hnd).
    assert (Ha : In (alloc_pair a) D) by (apply HD, in_or_app; right; left; reflexivity).
    destruct (existsb (pair_eqb (alloc_pair a)) (filter _ D)) eqn:E;
      destruct (Z.eqb (resource_id a) rid) eqn:Er; try lra.
    + apply existsb_pair_In, filter_In in E as [_ E]. cbn [fst alloc_pair] in E.
      congruence.
    + exfalso. assert (Hin : In (alloc_pair a) (filter (fun k => Z.eqb (fst k) rid) D))
        by (apply filter_In; split; [exact Ha|exact Er]).
      apply existsb_pair_In in Hin. congruence.
Qed.

Lemma norm_bound (f : Z * Z -> Q) (D : list (Z * Z)) (rid : Z) :
  (forall k, In k D -> 0 <= f k) ->
  let N := map norm_entry (filter norm_keep (map (fun k => (k, f k)) D)) in
  hours_of_resource N rid
    <= py_sum (map f (filter (fun k => Z.eqb (fst k) rid) D))
       + (1 # 20) * py_len (filter (fun a => Z.eqb (resource_id a) rid) N).
Proof.
  intros Hf N. subst N.
  induction D as [|k D IH]; cbn [map filter].
  - rewrite hours_of_resource_nil. unfold py_len. cbn. unfold Qle; simpl; lia.
  - assert (IH' := IH (fun k' Hk' => Hf k' (or_intror Hk'))).
    assert (Hk : 0 <= f k) by (apply Hf; left; reflexivity).
    destruct k as [r t]. cbn [norm_keep fst].
    destruct (Qle_bool 0.5 (f (r, t))); cbn [map norm_entry filter resource_id].
    + rewrite hours_of_resource_cons. cbn [resource_id hours].
      pose proof (py_round1_le (f (r, t))).
      destruct (Z.eqb r rid); cbn [map];
        [rewrite py_sum_cons, py_len_cons|]; lra.
    + destruct (Z.eqb r rid); cbn [map]; [rewrite py_sum_cons|]; lra.
Qed.

Lemma normalized_capacity (allocs : list Allocation) (rid : Z) :
  (forall a, In a allocs -> 0 <= hours a) ->
  hours_of_resource (normalized_allocations_of allocs) rid
    <= hours_of_resource allocs rid
       + (1 # 20) * py_len (filter (fun a => Z.eqb (resource_id a) rid)
                             (normalized_allocations_of allocs)).
Proof.
  intros Hpos. unfold normalized_allocations_of. rewrite grouped_of_spec.
  set (D := distinct_pairs (map alloc_pair allocs)).
  rewrite <- (pair_sums_by_resource allocs D rid).
  - apply (norm_bound (pair_sum allocs) D rid).
    intros k _. apply pair_sum_nonneg, Hpos.
  - apply distinct_pairs_NoDup.
  - intros a Ha. apply distinct_pairs_In, in_map, Ha.
Qed.

(** ** Capacity of the generated alternatives *)

Lemma cap_inv_ok (h0 : qmap) (st : AState) :
  cap_inv h0 st -> cap_ok h0 (st_allocs st).
Proof.
  intros [Hc Hp]. split; [|exact Hp].
  intros rid. destruct (Hc rid) as [H1 H2]. lra.
Qed.

Lemma collect_In (a : Alternative) (l : list (option Alternative)) :
  In a (collect l) -> In (Some a) l.
Proof.
  unfold collect. intros H. apply in_flat_map in H as [[b|] [Hb Hab]];
    [|destruct Hab].
  destruct Hab as [<-|[]]. exact Hb.
Qed.

Lemma normalize_allocations_In (x : Alternative) (l : list Alternative) :
  In x (normalize_allocations l) ->
  exists a, In a l /\ allocations x = normalized_allocations_of (allocations a).
Proof.
  unfold normalize_allocations. intros H. apply in_flat_map in H as [a [Ha Hx]].
  exists a. split; [exact Ha|].
  destruct (normalized_allocations_of (allocations a)) as [|n ns] eqn:E;
    [destruct Hx|].
  destruct Hx as [<-|[]]. reflexivity.
Qed.

Lemma remove_duplicates_sub (x : Alternative) (l : list Alternative) :
  In x (remove_duplicates l) -> In x l.
Proof.
  unfold remove_duplicates. destruct (remove_duplicates_inv l) as [_ [_ [Hsub _]]].
  apply Hsub.
Qed.

Lemma strategies_cap_ok (fuel : nat) (rs : list Resource) (ts : list Task)
    (alt4 : option Alternative) (alt5 : Alternative) (a : Alternative) :
  (forall r, In r rs -> 0 <= available_hours r) ->
  minimize_overload_allocation fuel rs ts = Returns alt4 ->
  greedy_optimized_allocation fuel rs ts = Returns alt5 ->
  In (Some a) [Some (priority_based_allocation rs ts); balanced_allocation rs ts;
               Some (specialization_based_allocation rs ts); alt4; Some alt5] ->
  cap_ok (resource_hours_init rs) (allocations a).
Proof.
  intros Hav E4 E5 Ha.
  pose proof (cap_inv_init rs Hav) as Hinit.
  set (I := cap_inv (resource_hours_init rs)) in Hinit.
  assert (HIc : forall st rid tid h, I st -> 0 < h -> h <= st_hours st rid ->
                  I (commit st rid tid h)) by (intros; apply cap_inv_commit; assumption).
  assert (HIm : forall st, I st -> I (count_match st)) by (intros; assumption).
  destruct Ha as [Ha|[Ha|[Ha|[Ha|[Ha|[]]]]]].
  - injection Ha as <-. apply cap_inv_ok.
    apply (priority_run_preserves I); assumption.
  - unfold balanced_allocation in Ha.
    destruct (_ || _); [discriminate|]. injection Ha as <-. apply cap_inv_ok.
    apply (balanced_run_preserves I); assumption.
  - injection Ha as <-. apply cap_inv_ok.
    apply (specialization_run_preserves I); assumption.
  - subst alt4. unfold minimize_overload_allocation in E4.
    destruct (Qeq_bool _ 0); [discriminate|].
    destruct (overload_run fuel rs ts) as [st|] eqn:E; [|discriminate].
    cbn [run_bind] in E4. injection E4 as <-. apply cap_inv_ok.
    apply (overload_run_preserves I) in E; assumption.
  - injection Ha as <-. unfold greedy_optimized_allocation in E5.
    destruct (greedy_run fuel rs ts) as [st|] eqn:E; [|discriminate].
    cbn [run_bind] in E5. injection E5 as <-. apply cap_inv_ok.
    apply (greedy_run_preserves I) in E; assumption.
Qed.

(** C3 (corrected), counterexample. One 1.5h resource and two 0.75h tasks:
    every strategy commits 0.75h to each task, the duplicates collapse to
    one alternative, and normalisation rounds each 0.75 to 0.8, so the
    resource carries 1.6h in the output. *)
Lemma generate_rounding_exceeds_capacity :
  (forall r, In r cap_resources -> 0 < available_hours r) /\
  (forall t, In t cap_tasks -> 0 < required_hours t) /\
  generate_alternatives 100 cap_resources cap_tasks = Returns cap_output /\
  exists alt, cap_output = [alt] /\
    map alloc_triple (allocations alt) = [(1%Z, 1%Z, 4 # 5); (1%Z, 2%Z, 4 # 5)] /\
    hours_of_resource (allocations alt) 1 == 8 # 5 /\
    3 # 2 < hours_of_resource (allocations alt) 1.
Proof.
  split; [intros r [<-|[]]; reflexivity|].
  split; [intros t [<-|[<-|[]]]; reflexivity|].
  split; [vm_compute; reflexivity|].
  eexists. split; [vm_compute; reflexivity|].
  split; [vm_compute; reflexivity|].
  split; vm_compute; reflexivity.
Qed.

(** C3 (corrected), amended. For resources with unique ids and positive
    available hours: whenever [generate_alternatives] returns, in every
    alternative it returns, the hours of each resource are at most its
    [available_hours] plus 0.05h for each of the alternative's allocations
    to that resource. The raw allocations of every strategy stay within
    capacity; normalisation rounds each [(resource_id, task_id)] sum to one
    decimal, which adds at most 0.05h per entry. *)
Theorem generate_capacity_within_rounding (fuel : nat) (rs : list Resource)
    (ts : list Task) (l : list Alternative)
    (Hrids : NoDup (map r_id rs))
    (Havail : forall r, In r rs -> 0 < available_hours r) :
  generate_alternatives fuel rs ts = Returns l ->
  forall alt r, In alt l -> In r rs ->
    hours_of_resource (allocations alt) (r_id r)
      <= available_hours r
         + (1 # 20) * py_len (filter (fun a => Z.eqb (resource_id a) (r_id r))
                                (allocations alt)).
Proof.
  intros H alt r Halt Hr.
  destruct rs as [|r0 rs]; [destruct Hr|].
  destruct ts as [|t0 ts]; [injection H as <-; destruct Halt|].
  unfold generate_alternatives in H. cbv beta iota in H.
  destruct (minimize_overload_allocation fuel (r0 :: rs) (t0 :: ts)) as [alt4|]
    eqn:E4; [|discriminate].
  cbn [run_bind] in H.
  destruct (greedy_optimized_allocation fuel (r0 :: rs) (t0 :: ts)) as [alt5|]
    eqn:E5; [|discriminate].
  cbn [run_bind] in H. injection H as <-.
  apply (Permutation_in _ (stable_sort_perm _ _)) in Halt.
  apply normalize_allocations_In in Halt as [a [Ha ->]].
  assert (Ha' : In (Some a)
                  [Some (priority_based_allocation (r0 :: rs) (t0 :: ts));
                   balanced_allocation (r0 :: rs) (t0 :: ts);
                   Some (specialization_based_allocation (r0 :: rs) (t0 :: ts));
                   alt4; Some alt5])
    by (apply collect_In, remove_duplicates_sub; exact Ha).
  assert (Hav : forall r', In r' (r0 :: rs) -> 0 <= available_hours r')
    by (intros r' Hr'; apply Qlt_le_weak, Havail, Hr').
  destruct (strategies_cap_ok fuel _ _ _ _ a Hav E4 E5 Ha') as [Hcap Hpos].
  eapply Qle_trans;
    [apply normalized_capacity; intros b Hb; apply Qlt_le_weak, Hpos, Hb|].
  pose proof (Hcap (r_id r)) as Hc.
  unfold resource_hours_init in Hc.
  rewrite (fold_upd_In r_id available_hours _ _ r Hrids Hr) in Hc.
  lra.
Qed.

Lemma generate_capacity_within_rounding_witness :
  NoDup (map r_id scenario_resources) /\
  (forall r, In r scenario_resources -> 0 < available_hours r) /\
  generate_alternatives 100 scenario_resources scenario_tasks
    = Returns scenario_output /\
  (forall alt r, In alt scenario_output -> In r scenario_resources ->
    hours_of_resource (allocations alt) (r_id r)
      <= available_hours r
         + (1 # 20) * py_len (filter (fun a => Z.eqb (resource_id a) (r_id r))
                                (allocations alt))).
Proof.
  assert (H1 : NoDup (map r_id scenario_resources))
    by (repeat constructor; simpl; lia).
  assert (H2 : forall r, In r scenario_resources -> 0 < available_hours r)
    by (intros r Hr; simpl in Hr; decompose sum Hr; subst; vm_compute;
        reflexivity).
  assert (H3 : generate_alternatives 100 scenario_resources scenario_tasks
                 = Returns scenario_output) by (vm_compute; reflexivity).
  split; [exact H1|]. split; [exact H2|]. split; [exact H3|].
  exact (generate_capacity_within_rounding 100 scenario_resources scenario_tasks
           scenario_output H1 H2 H3).
Defined.

(** * Further properties of the code *)

(** ** [_calculate_balance_variance] lies in [0, 1] *)





Lemma strategy_result_cap_ok (fuel : nat) (rs : list Resource) (ts : list Task)
    (a : Alternative) :
  (forall r, In r rs -> 0 <= available_hours r) ->
  strategy_result fuel rs ts a -> cap_ok (resource_hours_init rs) (allocations a).
Proof.
  intros Hav Ha.
  pose proof (cap_inv_init rs Hav) as Hinit.
  set (I := cap_inv (resource_hours_init rs)) in Hinit.
  assert (HIc : forall st rid tid h, I st -> 0 < h -> h <= st_hours st rid ->
                  I (commit st rid tid h)) by (intros; apply cap_inv_commit; assumption).
  assert (HIm : forall st, I st -> I (count_match st)) by (intros; assumption).
  destruct Ha as [->|[Ha|[->|[Ha|Ha]]]].
  - apply cap_inv_ok. apply (priority_run_preserves I); assumption.
  - unfold balanced_allocation in Ha.
    destruct (_ || _); [discriminate|]. injection Ha as <-. apply cap_inv_ok.
    apply (balanced_run_preserves I); assumption.
  - apply cap_inv_ok. apply (specialization_run_preserves I); assumption.
  - unfold minimize_overload_allocation in Ha.
    destruct (Qeq_bool _ 0); [discriminate|].
    destruct (overload_run fuel rs ts) as [st|] eqn:E; [|discriminate].
    cbn [run_bind] in Ha. injection Ha as <-. apply cap_inv_ok.
    apply (overload_run_preserves I) in E; assumption.
  - unfold greedy_optimized_allocation in Ha.
    destruct (greedy_run fuel rs ts) as [st|] eqn:E; [|discriminate].
    cbn [run_bind] in Ha. injection Ha as <-. apply cap_inv_ok.
    apply (greedy_run_preserves I) in E; assumption.
Qed.

Lemma resource_hours_init_In (rs : list Resource) (r : Resource) :
  NoDup (map r_id rs) -> In r rs ->
  resource_hours_init rs (r_id r) = available_hours r.
Proof. intros. unfold resource_hours_init. apply fold_upd_In; assumption. Qed.

(** X2. With distinct resource ids and non-negative available hours, the
    raw result of each strategy (strategies 4 and 5 when their loops end)
    has only positive allocation records, and the hours it books on a
    resource never exceed that resource's available hours. *)
Theorem strategies_within_capacity (fuel : nat) (rs : list Resource)
    (ts : list Task) (alt : Alternative)
    (Hrids : NoDup (map r_id rs))
    (Havail : forall r, In r rs -> 0 <= available_hours r)
    (Hres : strategy_result fuel rs ts alt) :
  (forall a, In a (allocations alt) -> 0 < hours a) /\
  (forall r, In r rs -> hours_of_resource (allocations alt) (r_id r)
                         <= available_hours r).
Proof.
  destruct (strategy_result_cap_ok fuel rs ts alt
              Havail Hres) as [Hc Hp].
  split; [exact Hp|].
  intros r Hr. rewrite <- (resource_hours_init_In rs r Hrids Hr). apply Hc.
Qed.

Lemma py_max_0_nonpos (y : Q) : y <= 0 -> py_max 0 y = 0.
Proof.
  intros H. unfold py_max, Qlt_bool.
  apply Qle_bool_iff in H. rewrite H. reflexivity.
Qed.

(** X3. With distinct resource ids and non-negative available hours, the
    overload penalty of [_priority_based_allocation] is always 0: no
    resource is booked beyond its available hours. *)
Theorem priority_overload_penalty_zero (rs : list Resource) (ts : list Task)
    (Hrids : NoDup (map r_id rs))
    (Havail : forall r, In r rs -> 0 <= available_hours r) :
  priority_overload_penalty rs ts == 0.
Proof.
  assert (Hcap : cap_ok (resource_hours_init rs)
                   (allocations (priority_based_allocation rs ts))).
  { apply (strategy_result_cap_ok 0 rs ts).
    - exact Havail.
    - left. reflexivity. }
  destruct Hcap as [Hc _]. cbn [allocations priority_based_allocation] in Hc.
  unfold priority_overload_penalty.
  destruct (Qlt_bool 0 (total_required_of ts)); [|reflexivity].
  rewrite (map_ext_in _ (fun _ => 0)).
  - rewrite py_sum_map_zero. unfold Qdiv. ring.
  - intros r Hr. apply py_max_0_nonpos.
    pose proof (Hc (r_id r)) as H.
    rewrite (resource_hours_init_In rs r Hrids Hr) in H. lra.
Qed.

Lemma dedup_fold_distinct (l acc : list Alternative) :
  NoDup (map allocations_key (acc ++ l)) ->
  fold_left dedup_step l (map allocations_key acc, acc) =
    (map allocations_key (acc ++ l), acc ++ l).
Proof.
  revert acc. induction l as [|x l IH]; intros acc Hnd; cbn [fold_left].
  - rewrite app_nil_r. reflexivity.
  - cbn [dedup_step].
    assert (Hx : existsb (key_eqb (allocations_key x)) (map allocations_key acc)
                 = false).
    { apply Bool.not_true_is_false. intros Hex.
      apply existsb_exists in Hex as [k [Hk Heq]].
      apply key_eqb_eq in Heq. subst k.
      rewrite map_app in Hnd. cbn [map] in Hnd.
      apply NoDup_remove_2 in Hnd. apply Hnd, in_or_app. left. exact Hk. }
    rewrite Hx.
    replace (map allocations_key acc ++ [allocations_key x])
      with (map allocations_key (acc ++ [x])) by (rewrite map_app; reflexivity).
    rewrite IH; rewrite <- app_assoc; [reflexivity|exact Hnd].
Qed.

Lemma remove_duplicates_distinct (l : list Alternative) :
  NoDup (map allocations_key l) -> remove_duplicates l = l.
Proof.
  intros H. unfold remove_duplicates.
  change (@nil (list key3), @nil Alternative)
    with (map allocations_key [], @nil Alternative).
  rewrite dedup_fold_distinct; reflexivity || exact H.
Qed.

(** X10. [_remove_duplicates] is idempotent: its survivors have pairwise
    distinct keys, so a second pass returns them unchanged. *)
Theorem remove_duplicates_idempotent (alternatives : list Alternative) :
  remove_duplicates (remove_duplicates alternatives) =
    remove_duplicates alternatives.
Proof.
  apply remove_duplicates_distinct.
  destruct (remove_duplicates_inv alternatives) as [Hs [Hnd _]].
  unfold remove_duplicates. rewrite <- Hs. exact Hnd.
Qed.

Lemma remove_duplicates_length (l : list Alternative) :
  (List.length (remove_duplicates l) <= List.length l)%nat.
Proof.
  destruct (remove_duplicates_inv l) as [Hs [Hnd [Hsub _]]].
  unfold remove_duplicates. rewrite <- (length_map allocations_key), <- Hs.
  rewrite <- (length_map allocations_key l).
  apply NoDup_incl_length; [exact Hnd|].
  intros k Hk. rewrite Hs in Hk. apply in_map_iff in Hk as [x [<- Hx]].
  apply in_map, Hsub, Hx.
Qed.

Lemma normalize_allocations_length (l : list Alternative) :
  (List.length (normalize_allocations l) <= List.length l)%nat.
Proof.
  induction l as [|a l IH]; [reflexivity|].
  unfold normalize_allocations in *. cbn [flat_map].
  rewrite length_app. cbn [List.length].
  destruct (normalized_allocations_of (allocations a)); cbn [List.length]; lia.
Qed.

Lemma normalize_allocations_In_full (x : Alternative) (l : list Alternative) :
  In x (normalize_allocations l) ->
  exists a, In a l /\ explanation x = explanation a /\ score x = score a /\
    allocations x = normalized_allocations_of (allocations a) /\
    allocations x <> [].
Proof.
  unfold normalize_allocations. intros H. apply in_flat_map in H as [a [Ha Hx]].
  exists a. split; [exact Ha|].
  destruct (normalized_allocations_of (allocations a)) as [|n ns] eqn:E;
    [destruct Hx|].
  destruct Hx as [<-|[]]. cbn. repeat split; discriminate.
Qed.

Lemma generate_returns_inv (fuel : nat) (rs : list Resource) (ts : list Task)
    (l : list Alternative) :
  generate_alternatives fuel rs ts = Returns l ->
  l = [] \/
  exists alt4 alt5,
    minimize_overload_allocation fuel rs ts = Returns alt4 /\
    greedy_optimized_allocation fuel rs ts = Returns alt5 /\
    l = sort_by_score_desc (normalize_allocations (remove_duplicates
          (collect [Some (priority_based_allocation rs ts);
                    balanced_allocation rs ts;
                    Some (specialization_based_allocation rs ts);
                    alt4; Some alt5]))).
Proof.
  intros H.
  destruct rs as [|r0 rs]; [injection H as <-; left; reflexivity|].
  destruct ts as [|t0 ts]; [injection H as <-; left; reflexivity|].
  right. unfold generate_alternatives in H. cbv beta iota in H.
  destruct (minimize_overload_allocation fuel (r0 :: rs) (t0 :: ts)) as [alt4|]
    eqn:E4; [|discriminate].
  cbn [run_bind] in H.
  destruct (greedy_optimized_allocation fuel (r0 :: rs) (t0 :: ts)) as [alt5|]
    eqn:E5; [|discriminate].
  cbn [run_bind] in H. injection H as <-.
  exists alt4, alt5. auto.
Qed.

Lemma generate_In_strategy (fuel : nat) (rs : list Resource)
    (ts : list Task) (l : list Alternative) (alt : Alternative) :
  generate_alternatives fuel rs ts = Returns l -> In alt l ->
  exists a, strategy_result fuel rs ts a /\
    explanation alt = explanation a /\ score alt = score a /\
    allocations alt = normalized_allocations_of (allocations a) /\
    allocations alt <> [].
Proof.
  intros H Halt.
  apply generate_returns_inv in H as [->|[alt4 [alt5 [E4 [E5 ->]]]]];
    [destruct Halt|].
  apply (Permutation_in _ (stable_sort_perm _ _)) in Halt.
  apply normalize_allocations_In_full in Halt as [a [Ha Hrest]].
  exists a. split; [|exact Hrest].
  apply remove_duplicates_sub, collect_In in Ha.
  destruct Ha as [Ha|[Ha|[Ha|[Ha|[Ha|[]]]]]].
  - left. injection Ha as <-. reflexivity.
  - right; left. exact Ha.
  - right; right; left. injection Ha as <-. reflexivity.
  - right; right; right; left. subst alt4. exact E4.
  - right; right; right; right. injection Ha as <-. exact E5.
Qed.

Lemma generate_length (fuel : nat) (rs : list Resource) (ts : list Task)
    (l : list Alternative) :
  generate_alternatives fuel rs ts = Returns l -> (List.length l <= 5)%nat.
Proof.
  intros H. apply generate_returns_inv in H as [->|[alt4 [alt5 [E4 [E5 ->]]]]];
    [cbn; lia|].
  unfold sort_by_score_desc. rewrite (Permutation_length (stable_sort_perm _ _)).
  eapply Nat.le_trans; [apply normalize_allocations_length|].
  eapply Nat.le_trans; [apply remove_duplicates_length|].
  destruct (balanced_allocation rs ts), alt4; cbn; lia.
Qed.

(** X8. When [generate_alternatives] returns, it returns at most five
    alternatives, and each one carries the explanation and the score of a
    strategy result, whose allocations are the normalised allocations of
    that result, and which are not empty. *)
Theorem generate_alternatives_from_strategies (fuel : nat) (rs : list Resource)
    (ts : list Task) (l : list Alternative) :
  generate_alternatives fuel rs ts = Returns l ->
  (List.length l <= 5)%nat /\
  forall alt, In alt l ->
    exists a, strategy_result fuel rs ts a /\
      explanation alt = explanation a /\ score alt = score a /\
      allocations alt = normalized_allocations_of (allocations a) /\
      allocations alt <> [].
Proof.
  intros H. split; [exact (generate_length fuel rs ts l H)|].
  intros alt Halt. exact (generate_In_strategy fuel rs ts l alt H Halt).
Qed.

(** X7. The output of [_normalize_allocations] for one alternative has at
    most one record per [(resource_id, task_id)] pair, and every record has
    at least 0.5 hours, a whole number of tenths of an hour. *)
Theorem normalized_allocations_shape (allocs : list Allocation) :
  NoDup (map alloc_pair (normalized_allocations_of allocs)) /\
  forall a, In a (normalized_allocations_of allocs) ->
    1 # 2 <= hours a /\ exists n, hours a = Qmake n 10.
Proof.
  unfold normalized_allocations_of. split.
  - rewrite map_map.
    rewrite (map_ext_in _ fst); [|intros [[r t] h] _; reflexivity].
    apply NoDup_map_filter, grouped_of_keys_NoDup.
  - intros a Ha. apply in_map_iff in Ha as [[[r t] h] [<- He]].
    apply filter_In in He as [_ Hk]. cbn [norm_keep] in Hk.
    apply round1_at_least_half, Qle_bool_iff in Hk.
    cbn [norm_entry hours]. split.
    + setoid_replace (1 # 2) with 0.5 by reflexivity. lra.
    + exists (round1_tenths h). reflexivity.
Qed.


Lemma overload_body_load (rs : list Resource) (il : Q) (task : Task)
    (s : AState * Q) :
  next_state (overload_body rs il task s) = s \/
  exists rid h, h <= il * 1.2 - st_load (fst s) rid /\
    next_state (overload_body rs il task s)
      = (commit (fst s) rid (t_id task) h, snd s - h).
Proof.
  destruct s as [st need]. unfold overload_body.
  destruct (match filter _ rs with [] => _ | _ :: _ => _ end) as [|r0 rest];
    [left; reflexivity|].
  set (b := select_best _ r0 rest).
  destruct (Qlt_bool 0 _) eqn:E; [|left; reflexivity].
  right. exists (r_id b), (py_min (py_min need (st_hours st (r_id b)))
                                  (il * 1.2 - st_load st (r_id b))).
  split; [apply py_min_le_r|reflexivity].
Qed.

Lemma load_cap_commit (c : Q) (st : AState) (rid tid : Z) (h : Q) :
  (forall x, st_load st x == hours_of_resource (st_allocs st) x /\
             st_load st x <= c) ->
  h <= c - st_load st rid ->
  forall x, st_load (commit st rid tid h) x
              == hours_of_resource (st_allocs (commit st rid tid h)) x /\
            st_load (commit st rid tid h) x <= c.
Proof.
  intros H Hh x. cbn [commit st_load st_allocs]. unfold upd.
  rewrite hours_of_resource_app, hours_of_resource_cons, hours_of_resource_nil.
  cbn [resource_id hours]. destruct (Z.eqb x rid) eqn:E.
  - apply Z.eqb_eq in E. subst x. rewrite Z.eqb_refl.
    destruct (H rid). split; lra.
  - rewrite Z.eqb_sym, E. destruct (H x). split; lra.
Qed.

Lemma overload_run_load (fuel : nat) (rs : list Resource) (ts : list Task)
    (st : AState) :
  0 <= ideal_load_of rs ts ->
  overload_run fuel rs ts = Returns st ->
  forall x, hours_of_resource (st_allocs st) x <= ideal_load_of rs ts * 1.2.
Proof.
  intros Hil Hrun.
  set (c := ideal_load_of rs ts * 1.2) in *.
  set (P := fun st : AState => forall x,
              st_load st x == hours_of_resource (st_allocs st) x /\
              st_load st x <= c).
  assert (HP : P st).
  { unfold overload_run in Hrun.
    refine (run_fold_left_inv (fun a _ => P a) _ _ _ _ _ _ Hrun).
    - intros st0 t st1 _ Hf H0. unfold overload_task in Hf.
      destruct (py_while _ _ _ _) as [s|] eqn:Ew; [|discriminate].
      cbn [run_bind] in Hf. injection Hf as <-.
      refine (py_while_inv (fun x => P (fst x)) _ _ _ (st0, _) _ _ H0 Ew).
      intros y Hy _.
      assert (Hs : P (fst (next_state
                     (overload_body rs (ideal_load_of rs ts) t y)))).
      { destruct (overload_body_load rs (ideal_load_of rs ts) t y)
          as [-> | (rid & h & Hh & ->)]; [exact Hy|].
        cbn [fst]. intros x. apply load_cap_commit; [exact Hy|exact Hh]. }
      destruct (overload_body _ _ _ _); exact Hs.
    - intros x. cbn [init_state st_load st_allocs].
      rewrite hours_of_resource_nil. unfold c. split; [reflexivity|lra]. }
  intros x. destruct (HP x) as [H1 H2]. lra.
Qed.

Lemma ideal_load_nonneg (rs : list Resource) (ts : list Task) :
  (forall t, In t ts -> 0 <= required_hours t) -> 0 <= ideal_load_of rs ts.
Proof.
  intros Hreq. unfold ideal_load_of. destruct rs as [|r rs]; [apply Qle_refl|].
  apply Qmult_le_0_compat.
  - apply py_sum_map_nonneg. exact Hreq.
  - apply Qinv_le_0_compat, py_len_nonneg.
Qed.

(** X4. With non-negative required hours, when
    [_minimize_overload_allocation] returns an alternative, the hours it
    books on any resource never exceed [1.2 * ideal_load_per_resource]. *)
Theorem minimize_overload_load_cap (fuel : nat) (rs : list Resource)
    (ts : list Task) (alt : Alternative)
    (Hreq : forall t, In t ts -> 0 <= required_hours t)
    (Hres : minimize_overload_allocation fuel rs ts = Returns (Some alt)) :
  forall rid, hours_of_resource (allocations alt) rid
                <= ideal_load_of rs ts * 1.2.
Proof.
  unfold minimize_overload_allocation in Hres.
  destruct (Qeq_bool _ 0); [discriminate|].
  destruct (overload_run fuel rs ts) as [st|] eqn:E; [|discriminate].
  cbn [run_bind] in Hres. injection Hres as <-. cbn [allocations].
  apply (overload_run_load fuel rs ts st (ideal_load_nonneg rs ts Hreq) E).
Qed.

Lemma minimize_overload_load_cap_witness :
  (forall t, In t scenario_tasks -> 0 <= required_hours t) /\
  minimize_overload_allocation 100 scenario_resources scenario_tasks
    = Returns (Some overload_alt) /\
  forall rid, hours_of_resource (allocations overload_alt) rid
                <= ideal_load_of scenario_resources scenario_tasks * 1.2.
Proof.
  assert (H1 : forall t, In t scenario_tasks -> 0 <= required_hours t)
    by (intros t Ht; simpl in Ht; decompose sum Ht; subst; vm_compute;
        discriminate).
  assert (H2 : minimize_overload_allocation 100 scenario_resources scenario_tasks
                 = Returns (Some overload_alt)) by (vm_compute; reflexivity).
  split; [exact H1|]. split; [exact H2|].
  exact (minimize_overload_load_cap 100 scenario_resources scenario_tasks
           overload_alt H1 H2).
Defined.

Lemma strategies_within_capacity_witness :
  NoDup (map r_id scenario_resources) /\
  (forall r, In r scenario_resources -> 0 <= available_hours r) /\
  strategy_result 100 scenario_resources scenario_tasks
    (priority_based_allocation scenario_resources scenario_tasks) /\
  ((forall a, In a (allocations (priority_based_allocation scenario_resources
                                  scenario_tasks)) -> 0 < hours a) /\
   (forall r, In r scenario_resources ->
      hours_of_resource (allocations (priority_based_allocation
                          scenario_resources scenario_tasks)) (r_id r)
        <= available_hours r)).
Proof.
  assert (H1 : NoDup (map r_id scenario_resources))
    by (repeat constructor; simpl; lia).
  assert (H2 : forall r, In r scenario_resources -> 0 <= available_hours r)
    by (intros r Hr; simpl in Hr; decompose sum Hr; subst; vm_compute;
        discriminate).
  assert (H3 : strategy_result 100 scenario_resources scenario_tasks
                 (priority_based_allocation scenario_resources scenario_tasks))
    by (left; reflexivity).
  split; [exact H1|]. split; [exact H2|]. split; [exact H3|].
  exact (strategies_within_capacity 100 scenario_resources scenario_tasks _
           H1 H2 H3).
Defined.

Lemma priority_overload_penalty_zero_witness :
  NoDup (map r_id scenario_resources) /\
  (forall r, In r scenario_resources -> 0 <= available_hours r) /\
  priority_overload_penalty scenario_resources scenario_tasks == 0.
Proof.
  assert (H1 : NoDup (map r_id scenario_resources))
    by (repeat constructor; simpl; lia).
  assert (H2 : forall r, In r scenario_resources -> 0 <= available_hours r)
    by (intros r Hr; simpl in Hr; decompose sum Hr; subst; vm_compute;
        discriminate).
  split; [exact H1|]. split; [exact H2|].
  exact (priority_overload_penalty_zero scenario_resources scenario_tasks H1 H2).
Defined.

Lemma greedy_body_min (rs : list Resource) (task : Task) (s : AState * Q) :
  next_state (greedy_body rs task s) = s \/
  exists rid h, 0.1 < h /\
    next_state (greedy_body rs task s)
      = (commit (fst s) rid (t_id task) h, snd s - h).
Proof.
  destruct s as [st need]. unfold greedy_body.
  destruct (filter _ rs) as [|r0 rest]; [left; reflexivity|].
  set (b := select_best _ r0 rest).
  destruct (Qlt_bool 0.1 _) eqn:E; [|left; reflexivity].
  right. exists (r_id b), (py_min need (st_hours st (r_id b))).
  split; [apply Qlt_bool_iff, E|reflexivity].
Qed.

(** X9. When [_greedy_optimized_allocation] returns, every allocation
    record it produces has more than 0.1 hours. *)
Theorem greedy_allocations_above_threshold (fuel : nat) (rs : list Resource)
    (ts : list Task) (alt : Alternative)
    (Hres : greedy_optimized_allocation fuel rs ts = Returns alt) :
  forall a, In a (allocations alt) -> 0.1 < hours a.
Proof.
  unfold greedy_optimized_allocation in Hres.
  destruct (greedy_run fuel rs ts) as [st|] eqn:E; [|discriminate].
  cbn [run_bind] in Hres. injection Hres as <-. cbn [allocations].
  set (P := fun st : AState => forall a, In a (st_allocs st) -> 0.1 < hours a).
  change (P st). unfold greedy_run in E.
  refine (run_fold_left_inv (fun a _ => P a) _ _ _ _ _ _ E).
  - intros st0 t st1 _ Hf H0. unfold greedy_task in Hf.
    destruct (py_while _ _ _ _) as [s|] eqn:Ew; [|discriminate].
    cbn [run_bind] in Hf. injection Hf as <-.
    refine (py_while_inv (fun x => P (fst x)) _ _ _ (st0, _) _ _ H0 Ew).
    intros y Hy _.
    assert (Hs : P (fst (next_state (greedy_body rs t y)))).
    { destruct (greedy_body_min rs t y) as [-> | (rid & h & Hh & ->)];
        [exact Hy|].
      intros a Ha. cbn [fst commit st_allocs] in Ha.
      apply in_app_or in Ha as [Ha|[<-|[]]]; [apply Hy, Ha|exact Hh]. }
    destruct (greedy_body _ _ _); exact Hs.
  - intros a [].
Qed.


Lemma greedy_allocations_above_threshold_witness :
  greedy_optimized_allocation 100 scenario_resources scenario_tasks
    = Returns greedy_alt /\
  forall a, In a (allocations greedy_alt) -> 0.1 < hours a.
Proof.
  assert (H : greedy_optimized_allocation 100 scenario_resources scenario_tasks
                = Returns greedy_alt) by (vm_compute; reflexivity).
  split; [exact H|].
  exact (greedy_allocations_above_threshold 100 scenario_resources
           scenario_tasks greedy_alt H).
Defined.

Lemma py_sum_map_const {A} (c : Q) (l : list A) :
  py_sum (map (fun _ => c) l) == c * py_len l.
Proof.
  induction l as [|x l IH]; cbn [map].
  { rewrite py_sum_nil. unfold py_len. simpl. ring. }
  rewrite py_sum_cons, IH, py_len_cons. ring.
Qed.

Lemma py_max_0_le (x c : Q) : 0 <= c -> x <= c -> 0 <= py_max 0 x <= c.
Proof.
  intros H0 Hx. unfold py_max. destruct (Qlt_bool 0 x) eqn:E.
  - apply Qlt_bool_iff in E. lra.
  - lra.
Qed.

Lemma py_max_0_nonneg (x : Q) : 0 <= py_max 0 x.
Proof.
  unfold py_max. destruct (Qlt_bool 0 x) eqn:E; [apply Qlt_bool_iff in E; lra|lra].
Qed.

Lemma weight_term_le_5 (p : Z) (m : Q) :
  (1 <= p <= 6)%Z -> m <= 1 -> inject_Z (6 - p) * m <= 5.
Proof.
  intros Hp Hm.
  assert (H6 : 0 <= inject_Z (6 - p) <= 5)
    by (split; unfold Qle; cbn [Qnum Qden inject_Z]; lia).
  destruct (Qlt_le_dec m 0).
  - assert (0 <= inject_Z (6 - p) * - m) by (apply Qmult_le_0_compat; lra).
    setoid_replace (inject_Z (6 - p) * m) with (- (inject_Z (6 - p) * - m))
      by ring.
    lra.
  - assert (inject_Z (6 - p) * m <= inject_Z (6 - p) * 1)
      by (rewrite (Qmult_comm _ m), (Qmult_comm _ 1);
          apply Qmult_le_compat_r; lra).
    lra.
Qed.

(** The priority-weighted averages of strategies 1 and 5:
    [sum((6 - t.priority) * g(t) for t in sorted_tasks) / len(tasks)]. *)
Lemma weighted_average_range (ts L : list Task) (g : Task -> Q) :
  Permutation L ts -> ts <> [] ->
  (forall t, In t ts -> (1 <= priority t <= 6)%Z) ->
  (forall t, In t ts -> g t <= 1) ->
  py_sum (map (fun t => inject_Z (6 - priority t) * g t) L) / py_len ts <= 5 /\
  ((forall t, In t ts -> 0 <= g t) ->
   0 <= py_sum (map (fun t => inject_Z (6 - priority t) * g t) L) / py_len ts).
Proof.
  intros Hperm Hne Hp Hg.
  assert (Hlen : 0 < py_len ts).
  { destruct ts as [|t0 ts0]; [congruence|].
    unfold py_len, Qlt; cbn [List.length Qnum Qden inject_Z]. lia. }
  split.
  - apply Qle_shift_div_r; [exact Hlen|].
    eapply Qle_trans; [apply (py_sum_map_le _ (fun _ => 5))|].
    + intros t Ht. apply (Permutation_in _ Hperm) in Ht.
      apply weight_term_le_5; [apply Hp, Ht|apply Hg, Ht].
    + rewrite py_sum_map_const.
      unfold py_len. rewrite (Permutation_length Hperm). apply Qle_refl.
  - intros Hg0. apply Qle_shift_div_l; [exact Hlen|]. rewrite Qmult_0_l.
    apply py_sum_map_nonneg. intros t Ht. apply (Permutation_in _ Hperm) in Ht.
    apply Qmult_le_0_compat; [|apply Hg0, Ht].
    specialize (Hp t Ht). unfold Qle; cbn [Qnum Qden inject_Z]. lia.
Qed.

Lemma priority_bonus_le_5 (rs : list Resource) (ts : list Task) :
  (forall t, In t ts -> (1 <= priority t <= 6)%Z) ->
  priority_bonus rs ts <= 5.
Proof.
  intros Hp. unfold priority_bonus. destruct ts as [|t0 ts0]; [lra|].
  apply (weighted_average_range (t0 :: ts0)); [apply stable_sort_perm
    |discriminate|exact Hp|intros t _; apply py_min_le_l].
Qed.

(** X11. With distinct task ids, positive required hours and priorities
    between 1 and 5, the score of [_priority_based_allocation] lies in
    [0, 150]. *)
Theorem priority_score_range (rs : list Resource) (ts : list Task)
    (Hids : NoDup (map t_id ts))
    (Hreq : forall t, In t ts -> 0 < required_hours t)
    (Hprio : forall t, In t ts -> (1 <= priority t <= 5)%Z) :
  0 <= score (priority_based_allocation rs ts) <= 150.
Proof.
  cbn [score priority_based_allocation].
  pose proof (div_le_one _ _ (priority_total rs ts Hids Hreq)) as Hcov.
  change (if Qlt_bool 0 (total_required_of ts)
          then st_total (priority_run rs ts) / total_required_of ts else 0)
    with (priority_coverage_value rs ts) in Hcov.
  assert (Hb : priority_bonus rs ts <= 5)
    by (apply priority_bonus_le_5; intros t Ht; specialize (Hprio t Ht); lia).
  assert (Hpen : 0 <= priority_overload_penalty rs ts).
  { unfold priority_overload_penalty.
    destruct (Qlt_bool 0 (total_required_of ts)) eqn:E; [|apply Qle_refl].
    apply Qlt_bool_iff in E. apply Qle_shift_div_l; [exact E|].
    rewrite Qmult_0_l. apply py_sum_map_nonneg.
    intros r _. apply py_max_0_nonneg. }
  apply py_max_0_le; lra.
Qed.

Lemma priority_score_range_witness :
  NoDup (map t_id scenario_tasks) /\
  (forall t, In t scenario_tasks -> 0 < required_hours t) /\
  (forall t, In t scenario_tasks -> (1 <= priority t <= 5)%Z) /\
  0 <= score (priority_based_allocation scenario_resources scenario_tasks) <= 150.
Proof.
  assert (H1 : NoDup (map t_id scenario_tasks))
    by (repeat constructor; simpl; lia).
  assert (H2 : forall t, In t scenario_tasks -> 0 < required_hours t)
    by (intros t Ht; simpl in Ht; decompose sum Ht; subst; vm_compute;
        reflexivity).
  assert (H3 : forall t, In t scenario_tasks -> (1 <= priority t <= 5)%Z)
    by (intros t Ht; simpl in Ht; decompose sum Ht; subst; simpl; lia).
  split; [exact H1|]. split; [exact H2|]. split; [exact H3|].
  exact (priority_score_range scenario_resources scenario_tasks H1 H2 H3).
Defined.

Section TaskHours.

(** The hours of the [allocations] list booked on task [tid0]. *)
Variable tid0 : Z.

Lemma task_hours_commit (st : AState) (rid tid : Z) (h : Q) :
  hours_of_task (st_allocs (commit st rid tid h)) tid0
    == hours_of_task (st_allocs st) tid0 + (if Z.eqb tid tid0 then h else 0).
Proof.
  cbn [commit st_allocs]. unfold hours_of_task.
  rewrite filter_app, map_app, py_sum_app. cbn [filter task_id].
  destruct (Z.eqb tid tid0); cbn [map]; rewrite ?py_sum_cons, py_sum_nil;
    cbn [hours]; lra.
Qed.

Lemma walk_task_same (g c : Resource -> bool) (task : Task) (rs : list Resource) :
  t_id task = tid0 ->
  forall need st, 0 <= need ->
  hours_of_task (st_allocs (snd (walk g c task rs need st))) tid0
    + fst (walk g c task rs need st)
    == hours_of_task (st_allocs st) tid0 + need /\
  0 <= fst (walk g c task rs need st).
Proof.
  intros Ht. induction rs as [|r rs IH]; intros need st Hn; cbn [walk].
  - cbn [fst snd]. split; lra.
  - destruct (Qle_bool need 0); [cbn [fst snd]; split; lra|].
    destruct (Qlt_bool 0 (st_hours st (r_id r)) && g r); [|apply IH; exact Hn].
    pose proof (py_min_le_l need (st_hours st (r_id r))) as Hh.
    set (h := py_min need (st_hours st (r_id r))) in *. clearbody h.
    pose proof (task_hours_commit st (r_id r) (t_id task) h) as Hc.
    replace (Z.eqb (t_id task) tid0) with true in Hc
      by (symmetry; apply Z.eqb_eq; exact Ht).
    destruct (c r);
      [destruct (IH (need - h) (count_match (commit st (r_id r) (t_id task) h)))
         as [H1 H2]
      |destruct (IH (need - h) (commit st (r_id r) (t_id task) h)) as [H1 H2]];
      try lra; cbn [count_match st_allocs] in H1; split; lra.
Qed.

Lemma walk_task_other (g c : Resource -> bool) (task : Task) (rs : list Resource) :
  t_id task <> tid0 ->
  forall need st,
  hours_of_task (st_allocs (snd (walk g c task rs need st))) tid0
    == hours_of_task (st_allocs st) tid0.
Proof.
  intros Ht. apply Z.eqb_neq in Ht.
  induction rs as [|r rs IH]; intros need st; cbn [walk]; [reflexivity|].
  destruct (Qle_bool need 0); [reflexivity|].
  destruct (Qlt_bool 0 (st_hours st (r_id r)) && g r); [|apply IH].
  set (h := py_min need (st_hours st (r_id r))). clearbody h.
  pose proof (task_hours_commit st (r_id r) (t_id task) h) as Hc.
  rewrite Ht in Hc.
  destruct (c r); rewrite IH; cbn [count_match st_allocs]; lra.
Qed.

Lemma while_task_hours (fuel : nat) (task : Task)
    (body : AState * Q -> step (AState * Q)) (s s' : AState * Q) :
  (forall s, commit_step (t_id task) s (next_state (body s))) ->
  0 <= snd s -> py_while fuel (fun s => Qlt_bool 0 (snd s)) body s = Returns s' ->
  hours_of_task (st_allocs (fst s')) tid0
    <= hours_of_task (st_allocs (fst s)) tid0
       + (if Z.eqb (t_id task) tid0 then snd s else 0).
Proof.
  intros Hb Hs.
  set (b := Z.eqb (t_id task) tid0).
  set (P := fun x : AState * Q =>
              hours_of_task (st_allocs (fst x)) tid0
                + (if b then snd x else 0)
              == hours_of_task (st_allocs (fst s)) tid0 + (if b then snd s else 0)
              /\ 0 <= snd x).
  intros Hrun. assert (HP : P s').
  { apply (py_while_inv P fuel (fun s => Qlt_bool 0 (snd s)) body s s'); [|split; [reflexivity|exact Hs]|exact Hrun].
    intros x [Hx1 Hx2] _.
    assert (Hstep : P (next_state (body x))).
    { destruct (Hb x) as [-> | (rid & h & H0 & H1 & H2 & ->)]; [split; assumption|].
      unfold P. cbn [fst snd].
      pose proof (task_hours_commit (fst x) rid (t_id task) h) as Hc.
      fold b in Hc. unfold P in Hx1.
      destruct b; split; lra. }
    destruct (body x); exact Hstep. }
  destruct HP as [H1 H2]. destruct b; lra.
Qed.

Lemma balanced_walk_task_same (task : Task) (share : Q) (rs : list Resource) :
  t_id task = tid0 ->
  forall alloc st, alloc <= share ->
  hours_of_task (st_allocs (snd (balanced_walk task share rs alloc st))) tid0
    - fst (balanced_walk task share rs alloc st)
    == hours_of_task (st_allocs st) tid0 - alloc /\
  fst (balanced_walk task share rs alloc st) <= share.
Proof.
  intros Ht. induction rs as [|r rs IH]; intros alloc st Ha; cbn [balanced_walk].
  - cbn [fst snd]. split; lra.
  - destruct (Qle_bool share alloc); [cbn [fst snd]; split; lra|].
    destruct (Qlt_bool 0 (st_hours st (r_id r))); [|apply IH; exact Ha].
    pose proof (py_min_le_l (share - alloc) (st_hours st (r_id r))) as Hh.
    set (h := py_min (share - alloc) (st_hours st (r_id r))) in *. clearbody h.
    pose proof (task_hours_commit st (r_id r) (t_id task) h) as Hc.
    replace (Z.eqb (t_id task) tid0) with true in Hc
      by (symmetry; apply Z.eqb_eq; exact Ht).
    destruct (IH (alloc + h) (commit st (r_id r) (t_id task) h)) as [H1 H2];
      [lra|split; lra].
Qed.

Lemma balanced_walk_task_other (task : Task) (share : Q) (rs : list Resource) :
  t_id task <> tid0 ->
  forall alloc st,
  hours_of_task (st_allocs (snd (balanced_walk task share rs alloc st))) tid0
    == hours_of_task (st_allocs st) tid0.
Proof.
  intros Ht. apply Z.eqb_neq in Ht.
  induction rs as [|r rs IH]; intros alloc st; cbn [balanced_walk]; [reflexivity|].
  destruct (Qle_bool share alloc); [reflexivity|].
  destruct (Qlt_bool 0 (st_hours st (r_id r))); [|apply IH].
  set (h := py_min (share - alloc) (st_hours st (r_id r))). clearbody h.
  pose proof (task_hours_commit st (r_id r) (t_id task) h) as Hc.
  rewrite Ht in Hc. rewrite IH. lra.
Qed.

End TaskHours.

Lemma sum_task_indicator (ts : list Task) (t0 : Task) (x : Q) :
  NoDup (map t_id ts) -> In t0 ts ->
  py_sum (map (fun t => if Z.eqb (t_id t) (t_id t0) then x else 0) ts) == x.
Proof.
  induction ts as [|t ts IH]; intros Hnd Hin; [destruct Hin|].
  inversion Hnd as [|? ? Hnotin Hnd']; subst.
  cbn [map]. rewrite py_sum_cons.
  destruct Hin as [<-|Hin].
  - rewrite Z.eqb_refl.
    rewrite (map_ext_in _ (fun _ => 0)); [rewrite py_sum_map_zero; lra|].
    intros t' Ht'. destruct (Z.eqb (t_id t') (t_id t)) eqn:E; [|reflexivity].
    apply Z.eqb_eq in E. exfalso. apply Hnotin. rewrite <- E. apply in_map, Ht'.
  - assert (E : Z.eqb (t_id t) (t_id t0) = false).
    { apply Z.eqb_neq. intros E. apply Hnotin. rewrite E. apply in_map, Hin. }
    rewrite E, (IH Hnd' Hin). lra.
Qed.

(** Per-task bound of a loop over the tasks in some order, each task [t]
    adding at most [task_requirements[t.id]] to the hours of its own id. *)
Lemma task_weights_sum (ts L : list Task) (t0 : Task) :
  NoDup (map t_id ts) -> Permutation L ts -> In t0 ts ->
  py_sum (map (fun t => if Z.eqb (t_id t) (t_id t0)
                        then task_requirements_init ts (t_id t) else 0) L)
    == required_hours t0.
Proof.
  intros Hnd Hp Hin.
  rewrite (py_sum_perm _ _ (Permutation_map _ Hp)).
  rewrite (map_ext_in _ (fun t => if Z.eqb (t_id t) (t_id t0)
                                  then required_hours t0 else 0)).
  - apply sum_task_indicator; assumption.
  - intros t Ht. destruct (Z.eqb (t_id t) (t_id t0)) eqn:E; [|reflexivity].
    apply Z.eqb_eq in E. rewrite E. apply task_requirements_init_In; assumption.
Qed.

Section TaskBound.

Variables (rs : list Resource) (ts : list Task) (t0 : Task).
Hypothesis ids_unique : NoDup (map t_id ts).
Hypothesis required_nonneg : forall t, In t ts -> 0 <= required_hours t.
Hypothesis t0_in : In t0 ts.

Let tm (st : AState) : Q := hours_of_task (st_allocs st) (t_id t0).

Let w (t : Task) : Q :=
  if Z.eqb (t_id t) (t_id t0) then task_requirements_init ts (t_id t) else 0.

Lemma requirement_of_listed (L : list Task) (t : Task) :
  Permutation L ts -> In t L -> 0 <= task_requirements_init ts (t_id t).
Proof.
  intros Hp Ht. apply (Permutation_in _ Hp) in Ht.
  rewrite task_requirements_init_In by assumption. apply required_nonneg, Ht.
Qed.

Lemma task_fold_bound (L : list Task) (f : AState -> Task -> AState) :
  Permutation L ts ->
  (forall st t, In t L -> tm (f st t) <= tm st + w t) ->
  tm (fold_left f L (init_state rs)) <= required_hours t0.
Proof.
  intros Hp Hf.
  pose proof (fold_measure tm f w L (init_state rs) Hf) as H.
  pose proof (task_weights_sum ts L t0 ids_unique Hp t0_in) as Hs.
  unfold w in H. unfold tm in H. cbn [init_state st_allocs] in H.
  unfold hours_of_task in H at 2. cbn [filter map] in H. rewrite py_sum_nil in H.
  unfold tm. lra.
Qed.

Lemma task_run_fold_bound (L : list Task) (f : AState -> Task -> run AState)
    (st : AState) :
  Permutation L ts ->
  (forall st t st', In t L -> f st t = Returns st' -> tm st' <= tm st + w t) ->
  run_fold_left f L (init_state rs) = Returns st ->
  tm st <= required_hours t0.
Proof.
  intros Hp Hf Hrun.
  pose proof (run_fold_measure tm f w L (init_state rs) st Hf Hrun) as H.
  pose proof (task_weights_sum ts L t0 ids_unique Hp t0_in) as Hs.
  unfold w in H. unfold tm in H. cbn [init_state st_allocs] in H.
  unfold hours_of_task in H at 2. cbn [filter map] in H. rewrite py_sum_nil in H.
  unfold tm. lra.
Qed.

Lemma walk_task_bound (g c : Resource -> bool) (t : Task) (rs' : list Resource)
    (need : Q) (st : AState) :
  0 <= need ->
  tm (snd (walk g c t rs' need st))
    <= tm st + (if Z.eqb (t_id t) (t_id t0) then need else 0) /\
  (Z.eqb (t_id t) (t_id t0) = true ->
   tm (snd (walk g c t rs' need st)) + fst (walk g c t rs' need st)
     == tm st + need /\ 0 <= fst (walk g c t rs' need st)).
Proof.
  intros Hn. unfold tm.
  destruct (Z.eqb (t_id t) (t_id t0)) eqn:E.
  - apply Z.eqb_eq in E.
    destruct (walk_task_same (t_id t0) g c t rs' E need st Hn) as [H1 H2].
    split; [lra|intros _; split; assumption].
  - apply Z.eqb_neq in E.
    pose proof (walk_task_other (t_id t0) g c t rs' E need st) as H1.
    split; [lra|discriminate].
Qed.

Lemma priority_task_bound :
  hours_of_task (st_allocs (priority_run rs ts)) (t_id t0) <= required_hours t0.
Proof.
  apply (task_fold_bound _ _ (stable_sort_perm _ ts)).
  intros st t Ht. unfold w.
  apply walk_task_bound. apply (requirement_of_listed _ _ (stable_sort_perm _ ts) Ht).
Qed.

Lemma specialization_task_bound :
  hours_of_task (st_allocs (specialization_run rs ts)) (t_id t0)
    <= required_hours t0.
Proof.
  apply (task_fold_bound _ _ (stable_sort_perm _ ts)).
  intros st t Ht. unfold w, specialization_task.
  pose proof (requirement_of_listed _ _ (stable_sort_perm _ ts) Ht) as Hn.
  destruct (walk_task_bound (fun _ => true)
              (fun r => str_mem (r_type r) (suitable_types t)) t
              (resources_to_try rs t) _ st Hn) as [H1 H2].
  destruct (walk _ _ t (resources_to_try rs t) _ st) as [need st1].
  cbn [fst snd] in H1, H2.
  destruct (Qlt_bool 0 need) eqn:Eq; [|exact H1].
  apply Qlt_bool_iff in Eq.
  destruct (walk_task_bound (fun r => negb (resource_mem r (resources_to_try rs t)))
              (fun _ => false) t rs need st1 (Qlt_le_weak _ _ Eq)) as [H3 _].
  destruct (Z.eqb (t_id t) (t_id t0)); [|lra].
  destruct (H2 eq_refl). lra.
Qed.

Lemma overload_task_bound (fuel : nat) (st : AState) :
  overload_run fuel rs ts = Returns st ->
  hours_of_task (st_allocs st) (t_id t0) <= required_hours t0.
Proof.
  apply (task_run_fold_bound _ _ _ (stable_sort_perm _ ts)).
  intros st0 t st1 Ht Hf. unfold overload_task in Hf.
  destruct (py_while _ _ _ _) as [s|] eqn:Ew; [|discriminate].
  cbn [run_bind] in Hf. injection Hf as <-.
  exact (while_task_hours (t_id t0) fuel t _ (st0, _) s
           (overload_body_step rs _ t)
           (requirement_of_listed _ _ (stable_sort_perm _ ts) Ht) Ew).
Qed.

Lemma greedy_task_bound (fuel : nat) (st : AState) :
  greedy_run fuel rs ts = Returns st ->
  hours_of_task (st_allocs st) (t_id t0) <= required_hours t0.
Proof.
  apply (task_run_fold_bound _ _ _ (stable_sort_perm _ ts)).
  intros st0 t st1 Ht Hf. unfold greedy_task in Hf.
  destruct (py_while _ _ _ _) as [s|] eqn:Ew; [|discriminate].
  cbn [run_bind] in Hf. injection Hf as <-.
  exact (while_task_hours (t_id t0) fuel t _ (st0, _) s
           (greedy_body_step rs t)
           (requirement_of_listed _ _ (stable_sort_perm _ ts) Ht) Ew).
Qed.

End TaskBound.

(** X5. With distinct task ids and non-negative required hours, the
    strategies by priority, by specialisation, minimising overload and
    greedy never book more hours on a task than its required hours. *)
Theorem strategies_task_hours_within_requirement (fuel : nat)
    (rs : list Resource) (ts : list Task) (alt : Alternative) (t0 : Task)
    (Hids : NoDup (map t_id ts))
    (Hreq : forall t, In t ts -> 0 <= required_hours t)
    (Ht0 : In t0 ts)
    (Hres : alt = priority_based_allocation rs ts \/
            alt = specialization_based_allocation rs ts \/
            minimize_overload_allocation fuel rs ts = Returns (Some alt) \/
            greedy_optimized_allocation fuel rs ts = Returns alt) :
  hours_of_task (allocations alt) (t_id t0) <= required_hours t0.
Proof.
  destruct Hres as [->|[->|[Ha|Ha]]].
  - apply priority_task_bound; assumption.
  - apply specialization_task_bound; assumption.
  - unfold minimize_overload_allocation in Ha.
    destruct (Qeq_bool _ 0); [discriminate|].
    destruct (overload_run fuel rs ts) as [st|] eqn:E; [|discriminate].
    cbn [run_bind] in Ha. injection Ha as <-.
    apply (overload_task_bound rs ts t0 Hids Hreq Ht0 fuel st E).
  - unfold greedy_optimized_allocation in Ha.
    destruct (greedy_run fuel rs ts) as [st|] eqn:E; [|discriminate].
    cbn [run_bind] in Ha. injection Ha as <-.
    apply (greedy_task_bound rs ts t0 Hids Hreq Ht0 fuel st E).
Qed.

(** X6. With distinct task ids and non-negative required and available
    hours, when [_balanced_allocation] returns an alternative, the hours it
    books on a task never exceed its share
    [required_hours / total_required * total_available]. *)
Theorem balanced_task_hours_within_share (rs : list Resource) (ts : list Task) (t0 : Task)
    (alt : Alternative)
    (Hids : NoDup (map t_id ts))
    (Hreq : forall t, In t ts -> 0 <= required_hours t)
    (Havail : forall r, In r rs -> 0 <= available_hours r)
    (Ht0 : In t0 ts)
    (Hres : balanced_allocation rs ts = Some alt) :
  hours_of_task (allocations alt) (t_id t0)
    <= required_hours t0 / total_required_of ts * total_available_of rs.
Proof.
  unfold balanced_allocation in Hres.
  destruct (Qeq_bool _ 0 || Qeq_bool _ 0) eqn:Ez; [discriminate|].
  injection Hres as <-. cbn [allocations].
  apply orb_false_iff in Ez as [_ Ez].
  set (TR := total_required_of ts) in *. set (TA := total_available_of rs) in *.
  assert (HTR : 0 < TR).
  { assert (0 <= TR) by (apply py_sum_map_nonneg; exact Hreq).
    destruct (Qeq_dec TR 0) as [E|E]; [apply Qeq_bool_iff in E; congruence|].
    destruct (Qlt_le_dec 0 TR); [assumption|]. exfalso. apply E. lra. }
  assert (HTA : 0 <= TA) by (apply py_sum_map_nonneg; exact Havail).
  set (tp := fold_left (fun m t => upd m (t_id t) (required_hours t / TR))
               ts (fun _ => 0)).
  assert (Htp : forall t, In t ts -> tp (t_id t) = required_hours t / TR)
    by (intros t Ht; apply (fold_upd_In t_id (fun t => required_hours t / TR));
        assumption).
  assert (Hshare : forall t, In t ts -> 0 <= tp (t_id t) * TA).
  { intros t Ht. rewrite Htp by exact Ht. apply Qmult_le_0_compat; [|exact HTA].
    apply Qle_shift_div_l; [exact HTR|]. rewrite Qmult_0_l. apply Hreq, Ht. }
  set (w := fun t : Task => if Z.eqb (t_id t) (t_id t0) then tp (t_id t) * TA
                            else 0).
  unfold balanced_run. fold TA TR. fold tp.
  assert (Hf : forall st t, In t ts ->
            hours_of_task (st_allocs (snd (balanced_walk t (tp (t_id t) * TA)
                                             rs 0 st))) (t_id t0)
              <= hours_of_task (st_allocs st) (t_id t0) + w t).
  { intros st t Ht. unfold w.
    destruct (Z.eqb (t_id t) (t_id t0)) eqn:E.
    - apply Z.eqb_eq in E.
      destruct (balanced_walk_task_same (t_id t0) t (tp (t_id t) * TA) rs E 0 st
                  (Hshare t Ht)) as [H1 H2].
      lra.
    - apply Z.eqb_neq in E.
      pose proof (balanced_walk_task_other (t_id t0) t (tp (t_id t) * TA) rs E 0 st).
      lra. }
  pose proof (fold_measure (fun st => hours_of_task (st_allocs st) (t_id t0))
                (fun st task => snd (balanced_walk task (tp (t_id task) * TA)
                                       rs 0 st)) w ts (init_state rs) Hf) as H.
  assert (Hsum : py_sum (map w ts) == required_hours t0 / TR * TA).
  { unfold w. rewrite (map_ext_in _ (fun t => if Z.eqb (t_id t) (t_id t0)
                                  then required_hours t0 / TR * TA else 0)).
    - apply sum_task_indicator; assumption.
    - intros t Ht. destruct (Z.eqb (t_id t) (t_id t0)) eqn:E; [|reflexivity].
      apply Z.eqb_eq in E. rewrite E, (Htp t0 Ht0). reflexivity. }
  cbn beta in H. cbn [init_state st_allocs] in H. unfold hours_of_task at 2 in H.
  cbn [filter map] in H. rewrite py_sum_nil in H.
  lra.
Qed.

(** ** Every allocation names an input resource and an input task *)

Lemma select_best_In (better : Resource -> Resource -> bool) (r0 : Resource)
    (rest : list Resource) : In (select_best better r0 rest) (r0 :: rest).
Proof.
  unfold select_best.
  enough (H : forall b, In b (r0 :: rest) -> forall l, incl l (r0 :: rest) ->
            In (fold_left (fun best r => if better r best then r else best) l b)
               (r0 :: rest)) by (apply H; [left; reflexivity|apply incl_tl, incl_refl]).
  intros b Hb l. revert b Hb. induction l as [|x l IH]; intros b Hb Hl;
    [exact Hb|].
  cbn [fold_left]. apply IH; [|intros y Hy; apply Hl; right; exact Hy].
  destruct (better x b); [apply Hl; left; reflexivity|exact Hb].
Qed.

Lemma overload_body_from (rs : list Resource) (il : Q) (task : Task)
    (s : AState * Q) :
  next_state (overload_body rs il task s) = s \/
  exists r h, In r rs /\
    next_state (overload_body rs il task s)
      = (commit (fst s) (r_id r) (t_id task) h, snd s - h).
Proof.
  destruct s as [st need]. unfold overload_body.
  match goal with |- context [match ?A with [] => Break _ | r0 :: rest => _ end] =>
    assert (HA : forall r, In r A -> In r rs);
    [|destruct A as [|r0 rest]; [left; reflexivity|]]
  end.
  - intros r Hr.
    destruct (filter (fun r => Qlt_bool 0 _ && _) rs) eqn:E.
    + apply filter_In in Hr. apply Hr.
    + rewrite <- E in Hr. apply filter_In in Hr. apply Hr.
  - set (b := select_best _ r0 rest).
    destruct (Qlt_bool 0 _); [|left; reflexivity].
    right. eexists b, _. split; [apply HA, select_best_In|reflexivity].
Qed.

Lemma greedy_body_from (rs : list Resource) (task : Task) (s : AState * Q) :
  next_state (greedy_body rs task s) = s \/
  exists r h, In r rs /\
    next_state (greedy_body rs task s)
      = (commit (fst s) (r_id r) (t_id task) h, snd s - h).
Proof.
  destruct s as [st need]. unfold greedy_body.
  assert (HA : forall r, In r (filter (fun r => Qlt_bool 0.1 (st_hours st (r_id r))) rs)
                 -> In r rs) by (intros r Hr; apply filter_In in Hr; apply Hr).
  destruct (filter _ rs) as [|r0 rest]; [left; reflexivity|].
  set (b := select_best _ r0 rest).
  destruct (Qlt_bool 0.1 _); [|left; reflexivity].
  right. eexists b, _. split; [apply HA, select_best_In|reflexivity].
Qed.

Lemma add_by_type_sub (S : list Resource) (g : list (pystr * list Resource))
    (r : Resource) :
  (forall p, In p g -> incl (snd p) S) -> In r S ->
  forall p, In p (add_by_type g r) -> incl (snd p) S.
Proof.
  intros Hg Hr. induction g as [|[ty l] g IH]; cbn [add_by_type].
  - intros p [<-|[]]. cbn [snd]. intros x [<-|[]]. exact Hr.
  - destruct (list_Z_eqb ty (r_type r)).
    + intros p [<-|Hp]; [|apply Hg; right; exact Hp].
      cbn [snd]. apply incl_app; [apply (Hg (ty, l)); left; reflexivity|].
      intros x [<-|[]]. exact Hr.
    + intros p [<-|Hp]; [apply Hg; left; reflexivity|].
      apply IH; [intros q Hq; apply Hg; right; exact Hq|exact Hp].
Qed.

Lemma lookup_type_In (g : list (pystr * list Resource)) (ty : pystr)
    (l : list Resource) :
  lookup_type g ty = Some l -> exists ty', In (ty', l) g.
Proof.
  induction g as [|[ty' l'] g IH]; cbn [lookup_type]; [discriminate|].
  destruct (list_Z_eqb ty' ty).
  - intros [= <-]. exists ty'. left. reflexivity.
  - intros H. destruct (IH H) as [t Ht]. exists t. right. exact Ht.
Qed.

Lemma resources_to_try_sub (rs : list Resource) (task : Task) :
  incl (resources_to_try rs task) rs.
Proof.
  assert (Hg : forall p, In p (resources_by_type rs) -> incl (snd p) rs).
  { unfold resources_by_type.
    enough (H : forall L g, incl L rs -> (forall p, In p g -> incl (snd p) rs) ->
              forall p, In p (fold_left add_by_type L g) -> incl (snd p) rs)
      by (apply H; [apply incl_refl|intros p []]).
    induction L as [|r L IH]; intros g HL Hg'; cbn [fold_left]; [exact Hg'|].
    apply IH; [intros x Hx; apply HL; right; exact Hx|].
    apply add_by_type_sub; [exact Hg'|apply HL; left; reflexivity]. }
  unfold resources_to_try. destruct (suitable_types task) as [|ty tys];
    [apply incl_refl|].
  intros r Hr. apply in_flat_map in Hr as [ty' [_ Hr]].
  destruct (lookup_type (resources_by_type rs) ty') as [l|] eqn:E; [|destruct Hr].
  apply lookup_type_In in E as [ty'' Hin]. exact (Hg _ Hin r Hr).
Qed.

Section KnownIds.

Variables (rs : list Resource) (ts : list Task).

Let known (st : AState) : Prop :=
  forall a, In a (st_allocs st) ->
    In (resource_id a) (map r_id rs) /\ In (task_id a) (map t_id ts).

Lemma known_commit (st : AState) (r : Resource) (t : Task) (h : Q) :
  known st -> In r rs -> In t ts -> known (commit st (r_id r) (t_id t) h).
Proof.
  intros Hst Hr Ht a Ha. cbn [commit st_allocs] in Ha.
  apply in_app_or in Ha as [Ha|[<-|[]]]; [apply Hst, Ha|].
  cbn [resource_id task_id]. split; apply in_map; assumption.
Qed.

Lemma known_init : known (init_state rs).
Proof. intros a []. Qed.

Lemma walk_known (g c : Resource -> bool) (t : Task) (rs' : list Resource) :
  incl rs' rs -> In t ts ->
  forall need st, known st -> known (snd (walk g c t rs' need st)).
Proof.
  intros Hsub Ht. induction rs' as [|r rs' IH]; intros need st Hst; cbn [walk];
    [exact Hst|].
  assert (Hsub' : incl rs' rs) by (intros x Hx; apply Hsub; right; exact Hx).
  destruct (Qle_bool need 0); [exact Hst|].
  destruct (_ && _); [|apply IH; assumption].
  assert (Hc : known (commit st (r_id r) (t_id t) (py_min need (st_hours st (r_id r)))))
    by (apply known_commit; [exact Hst|apply Hsub; left; reflexivity|exact Ht]).
  destruct (c r); apply IH; assumption.
Qed.

Lemma balanced_walk_known (t : Task) (share : Q) (rs' : list Resource) :
  incl rs' rs -> In t ts ->
  forall alloc st, known st -> known (snd (balanced_walk t share rs' alloc st)).
Proof.
  intros Hsub Ht. induction rs' as [|r rs' IH]; intros alloc st Hst;
    cbn [balanced_walk]; [exact Hst|].
  assert (Hsub' : incl rs' rs) by (intros x Hx; apply Hsub; right; exact Hx).
  destruct (Qle_bool share alloc); [exact Hst|].
  destruct (Qlt_bool 0 _); apply IH; try assumption.
  apply known_commit; [exact Hst|apply Hsub; left; reflexivity|exact Ht].
Qed.

Lemma while_known (fuel : nat) (t : Task) (body : AState * Q -> step (AState * Q))
    (s s' : AState * Q) :
  In t ts ->
  (forall s, next_state (body s) = s \/
     exists r h, In r rs /\ next_state (body s) = (commit (fst s) (r_id r) (t_id t) h, snd s - h)) ->
  known (fst s) ->
  py_while fuel (fun s => Qlt_bool 0 (snd s)) body s = Returns s' -> known (fst s').
Proof.
  intros Ht Hb. apply (py_while_inv (fun x => known (fst x))).
  intros x Hx _.
  assert (Hs : known (fst (next_state (body x)))).
  { destruct (Hb x) as [-> | (r & h & Hr & ->)]; [exact Hx|].
    apply known_commit; assumption. }
  destruct (body x); exact Hs.
Qed.

Lemma fold_known {A} (f : AState -> A -> AState) (L : list A) :
  (forall st x, In x L -> known st -> known (f st x)) ->
  forall st, known st -> known (fold_left f L st).
Proof.
  induction L as [|x L IH]; intros Hf st Hst; [exact Hst|].
  cbn [fold_left]. apply IH; [intros st' y Hy; apply Hf; right; exact Hy|].
  apply Hf; [left; reflexivity|exact Hst].
Qed.

Lemma run_fold_known {A} (f : AState -> A -> run AState) (L : list A)
    (st' : AState) :
  (forall st x st', In x L -> f st x = Returns st' -> known st -> known st') ->
  forall st, known st -> run_fold_left f L st = Returns st' -> known st'.
Proof.
  induction L as [|x L IH]; intros Hf st Hst Hrun; cbn [run_fold_left] in Hrun.
  - injection Hrun as <-. exact Hst.
  - destruct (f st x) as [st1|] eqn:E; [|discriminate].
    cbn [run_bind] in Hrun.
    apply (IH (fun s y s' Hy => Hf s y s' (or_intror Hy)) st1); [|exact Hrun].
    exact (Hf st x st1 (or_introl eq_refl) E Hst).
Qed.

Lemma strategy_result_known (fuel : nat) (a : Alternative) :
  strategy_result fuel rs ts a ->
  forall x, In x (allocations a) ->
    In (resource_id x) (map r_id rs) /\ In (task_id x) (map t_id ts).
Proof.
  assert (Hsort : forall lt t, In t (stable_sort lt ts) -> In t ts)
    by (intros lt t Ht; apply (Permutation_in _ (stable_sort_perm lt ts)), Ht).
  assert (Hrs : incl rs rs) by apply incl_refl.
  intros Ha.
  destruct Ha as [->|[Ha|[->|[Ha|Ha]]]].
  - apply (fold_known _ _ (fun st t Ht => walk_known _ _ t rs Hrs (Hsort _ t Ht) _ st)
             _ known_init).
  - unfold balanced_allocation in Ha.
    destruct (_ || _); [discriminate|]. injection Ha as <-.
    apply (fold_known _ _
             (fun st t Ht => balanced_walk_known t _ rs Hrs Ht _ st) _ known_init).
  - apply (fold_known _ _); [|exact known_init].
    intros st t Ht Hst. apply Hsort in Ht. unfold specialization_task.
    pose proof (walk_known (fun _ => true)
                  (fun r => str_mem (r_type r) (suitable_types t)) t
                  (resources_to_try rs t) (resources_to_try_sub rs t) Ht
                  (task_requirements_init ts (t_id t)) st Hst) as H1.
    destruct (walk _ _ _ _ _ st) as [need st1]. cbn [snd] in H1.
    destruct (Qlt_bool 0 need); [|exact H1].
    apply walk_known; assumption.
  - unfold minimize_overload_allocation in Ha.
    destruct (Qeq_bool _ 0); [discriminate|].
    destruct (overload_run fuel rs ts) as [st|] eqn:E; [|discriminate].
    cbn [run_bind] in Ha. injection Ha as <-. cbn [allocations].
    refine (run_fold_known _ _ _ _ _ known_init E).
    intros st0 t st1 Ht Hf H0. unfold overload_task in Hf.
    destruct (py_while _ _ _ _) as [s|] eqn:Ew; [|discriminate].
    cbn [run_bind] in Hf. injection Hf as <-.
    exact (while_known fuel t _ (st0, _) s (Hsort _ t Ht)
             (overload_body_from rs _ t) H0 Ew).
  - unfold greedy_optimized_allocation in Ha.
    destruct (greedy_run fuel rs ts) as [st|] eqn:E; [|discriminate].
    cbn [run_bind] in Ha. injection Ha as <-. cbn [allocations].
    refine (run_fold_known _ _ _ _ _ known_init E).
    intros st0 t st1 Ht Hf H0. unfold greedy_task in Hf.
    destruct (py_while _ _ _ _) as [s|] eqn:Ew; [|discriminate].
    cbn [run_bind] in Hf. injection Hf as <-.
    exact (while_known fuel t _ (st0, _) s (Hsort _ t Ht)
             (greedy_body_from rs t) H0 Ew).
Qed.

End KnownIds.

Lemma normalized_allocations_pair_In (allocs : list Allocation) (a : Allocation) :
  In a (normalized_allocations_of allocs) -> In (alloc_pair a) (map alloc_pair allocs).
Proof.
  unfold normalized_allocations_of. intros Ha.
  apply in_map_iff in Ha as [[k h] [<- He]].
  apply filter_In in He as [He _]. rewrite grouped_of_spec in He.
  apply in_map_iff in He as [k' [Hk Hin]]. injection Hk as -> _.
  apply (proj1 (distinct_pairs_In _ _)) in Hin. destruct k as [r t]. exact Hin.
Qed.

(** X12. Every allocation returned by [generate_alternatives] names the id
    of one of the input resources and the id of one of the input tasks. *)
Theorem generate_alternatives_known_ids (fuel : nat) (rs : list Resource)
    (ts : list Task) (l : list Alternative) :
  generate_alternatives fuel rs ts = Returns l ->
  forall alt a, In alt l -> In a (allocations alt) ->
    In (resource_id a) (map r_id rs) /\ In (task_id a) (map t_id ts).
Proof.
  intros H alt a Halt Ha.
  destruct (generate_In_strategy fuel rs ts l alt H Halt)
    as [b [Hb [_ [_ [Heq _]]]]].
  rewrite Heq in Ha. apply normalized_allocations_pair_In in Ha.
  apply in_map_iff in Ha as [c [Hc Hcin]].
  destruct (strategy_result_known rs ts fuel b Hb c Hcin) as [H1 H2].
  unfold alloc_pair in Hc. injection Hc as E1 E2.
  rewrite <- E1, <- E2. split; assumption.
Qed.

(** ** Strategy 3: score components *)

Lemma list_Z_eqb_eq (a b : list Z) : list_Z_eqb a b = true <-> a = b.
Proof.
  revert b. induction a as [|x a IH]; intros [|y b]; cbn [list_Z_eqb];
    split; intros H; try discriminate; try reflexivity.
  - apply andb_true_iff in H as [H1 H2]. apply Z.eqb_eq in H1.
    apply IH in H2. subst. reflexivity.
  - injection H as -> ->. apply andb_true_iff. split; [apply Z.eqb_refl|].
    apply IH. reflexivity.
Qed.

Lemma str_mem_In (s : pystr) (l : list pystr) : str_mem s l = true <-> In s l.
Proof.
  unfold str_mem. rewrite existsb_exists. split.
  - intros [x [Hx E]]. apply list_Z_eqb_eq in E. subst. exact Hx.
  - intros H. exists s. split; [exact H|apply list_Z_eqb_eq; reflexivity].
Qed.

Lemma dedup_str_In (l : list pystr) (x : pystr) : In x (dedup_str l) -> In x l.
Proof.
  induction l as [|y l IH]; cbn [dedup_str]; [tauto|].
  destruct (str_mem y l); [intros H; right; apply IH, H|].
  intros [<-|H]; [left; reflexivity|right; apply IH, H].
Qed.

Lemma dedup_str_NoDup (l : list pystr) : NoDup (dedup_str l).
Proof.
  induction l as [|y l IH]; cbn [dedup_str]; [constructor|].
  destruct (str_mem y l) eqn:E; [exact IH|].
  constructor; [|exact IH].
  intros H. apply dedup_str_In, str_mem_In in H. congruence.
Qed.

Lemma add_by_type_keys (g : list (pystr * list Resource)) (r : Resource) :
  In (r_type r) (map fst (add_by_type g r)) /\
  (forall ty, In ty (map fst g) -> In ty (map fst (add_by_type g r))).
Proof.
  induction g as [|[ty l] g IH]; cbn [add_by_type].
  - split; [left; reflexivity|intros ty []].
  - destruct (list_Z_eqb ty (r_type r)) eqn:E.
    + apply list_Z_eqb_eq in E. subst ty. cbn [map fst].
      split; [left; reflexivity|tauto].
    + destruct IH as [IH1 IH2]. cbn [map fst]. split; [right; exact IH1|].
      intros ty' [<-|H]; [left; reflexivity|right; apply IH2, H].
Qed.

Lemma resources_by_type_keys (rs : list Resource) (r : Resource) :
  In r rs -> In (r_type r) (map fst (resources_by_type rs)).
Proof.
  unfold resources_by_type.
  enough (H : forall L g, (forall x, In x L \/ In (r_type x) (map fst g) ->
                In (r_type x) (map fst (fold_left add_by_type L g))))
    by (intros Hr; apply (H rs [] r); left; exact Hr).
  induction L as [|y L IH]; intros g x Hx; cbn [fold_left].
  - destruct Hx as [[]|Hx]. exact Hx.
  - apply IH. destruct Hx as [[<-|Hx]|Hx]; [right|left; exact Hx|right].
    + apply (proj1 (add_by_type_keys g y)).
    + apply (proj2 (add_by_type_keys g y)), Hx.
Qed.

(** [type_matches] never exceeds the number of records: a match is counted
    only right after a record is appended. *)
Lemma walk_matches (g c : Resource -> bool) (t : Task) (rs : list Resource) :
  forall need st,
  (0 <= st_matches st <= Z.of_nat (List.length (st_allocs st)))%Z ->
  (0 <= st_matches (snd (walk g c t rs need st))
     <= Z.of_nat (List.length (st_allocs (snd (walk g c t rs need st)))))%Z.
Proof.
  induction rs as [|r rs IH]; intros need st Hst; cbn [walk]; [exact Hst|].
  destruct (Qle_bool need 0); [exact Hst|].
  destruct (_ && _); [|apply IH, Hst].
  apply IH. destruct (c r); cbn [count_match commit st_matches st_allocs];
    rewrite length_app; cbn [List.length]; lia.
Qed.

Lemma specialization_matches (rs : list Resource) (ts : list Task) :
  (0 <= st_matches (specialization_run rs ts)
     <= Z.of_nat (List.length (st_allocs (specialization_run rs ts))))%Z.
Proof.
  unfold specialization_run.
  enough (H : forall L st,
            (0 <= st_matches st <= Z.of_nat (List.length (st_allocs st)))%Z ->
            let st' := fold_left (specialization_task rs (task_requirements_init ts))
                         L st in
            (0 <= st_matches st' <= Z.of_nat (List.length (st_allocs st')))%Z)
    by (apply H; cbn; lia).
  induction L as [|t L IH]; intros st Hst; [exact Hst|].
  cbn [fold_left]. apply IH. unfold specialization_task.
  pose proof (walk_matches (fun _ => true)
                (fun r => str_mem (r_type r) (suitable_types t)) t
                (resources_to_try rs t) (task_requirements_init ts (t_id t))
                st Hst) as H1.
  destruct (walk _ _ _ _ _ st) as [need st1]. cbn [snd] in H1.
  destruct (Qlt_bool 0 need); [apply walk_matches|]; exact H1.
Qed.

Lemma ratio_range {A} (n : Z) (l : list A) :
  (0 <= n <= Z.of_nat (List.length l))%Z ->
  0 <= match l with [] => 0 | _ => inject_Z n / py_len l end <= 1.
Proof.
  intros Hn. destruct l as [|x l]; [lra|].
  assert (Hl : 0 < py_len (x :: l))
    by (unfold py_len, Qlt; cbn [List.length]; simpl; lia).
  split.
  - apply Qle_shift_div_l; [exact Hl|]. rewrite Qmult_0_l.
    unfold Qle; simpl; lia.
  - apply Qle_shift_div_r; [exact Hl|]. rewrite Qmult_1_l.
    unfold py_len, Qle; cbn [Qnum Qden inject_Z]. lia.
Qed.

Lemma diversity_term_range {A} (cov : Q) (n : Z) (l : list A) :
  0 <= cov <= 1 -> (0 <= n <= Z.of_nat (List.length l))%Z ->
  0 <= match l with [] => cov * 40 | _ => cov * 40 + inject_Z n / py_len l * 20 end
    <= 60.
Proof.
  intros Hc Hn. pose proof (ratio_range n l Hn) as H.
  destruct l as [|x l]; lra.
Qed.

Lemma type_diversity_bound (rs : list Resource) (allocs : list Allocation) :
  (0 <= Z.of_nat (List.length (dedup_str (map r_type (filter (fun r =>
          existsb (fun a => Z.eqb (resource_id a) (r_id r)) allocs) rs))))
     <= Z.of_nat (List.length (resources_by_type rs)))%Z.
Proof.
  split; [lia|]. apply Nat2Z.inj_le.
  rewrite <- (length_map fst (resources_by_type rs)).
  apply NoDup_incl_length; [apply dedup_str_NoDup|].
  intros ty Hty. apply dedup_str_In, in_map_iff in Hty as [r [<- Hr]].
  apply filter_In in Hr as [Hr _]. apply resources_by_type_keys, Hr.
Qed.

(** X13. With distinct task ids and positive required hours, the score of
    [_specialization_based_allocation] lies in [0, 75]: coverage at most 1,
    type diversity at most the number of resource types, and match ratio at
    most 1. *)
Theorem specialization_score_range (rs : list Resource) (ts : list Task)
    (Hids : NoDup (map t_id ts))
    (Hreq : forall t, In t ts -> 0 < required_hours t) :
  0 <= score (specialization_based_allocation rs ts) <= 75.
Proof.
  assert (Hcov : 0 <= specialization_coverage_value rs ts <= 1).
  { split; [|apply div_le_one, specialization_total; assumption].
    unfold specialization_coverage_value.
    destruct (Qlt_bool 0 (total_required_of ts)) eqn:E; [|apply Qle_refl].
    apply Qlt_bool_iff in E. apply Qle_shift_div_l; [exact E|].
    rewrite Qmult_0_l.
    apply (specialization_run_preserves (fun st => 0 <= st_total st)).
    - intros st rid tid h H0 Hh _. cbn [commit st_total]. lra.
    - intros st H0. exact H0.
    - apply Qle_refl. }
  pose proof (diversity_term_range (specialization_coverage_value rs ts) _
                (resources_by_type rs) Hcov
                (type_diversity_bound rs (st_allocs (specialization_run rs ts))))
    as H1.
  pose proof (ratio_range _ _ (specialization_matches rs ts)) as H2.
  unfold specialization_based_allocation. cbn [score].
  lra.
Qed.

Lemma specialization_score_range_witness :
  NoDup (map t_id scenario_tasks) /\
  (forall t, In t scenario_tasks -> 0 < required_hours t) /\
  0 <= score (specialization_based_allocation scenario_resources scenario_tasks)
    <= 75.
Proof.
  assert (H1 : NoDup (map t_id scenario_tasks))
    by (repeat constructor; simpl; lia).
  assert (H2 : forall t, In t scenario_tasks -> 0 < required_hours t)
    by (intros t Ht; simpl in Ht; decompose sum Ht; subst; vm_compute;
        reflexivity).
  split; [exact H1|]. split; [exact H2|].
  exact (specialization_score_range scenario_resources scenario_tasks H1 H2).
Defined.

(** ** Strategies 4 and 5: loads and scores *)

Lemma load_rel_commit (st : AState) (rid tid : Z) (h : Q) :
  (forall x, st_load st x == hours_of_resource (st_allocs st) x) ->
  forall x, st_load (commit st rid tid h) x
              == hours_of_resource (st_allocs (commit st rid tid h)) x.
Proof.
  intros H x. cbn [commit st_load st_allocs]. unfold upd.
  rewrite hours_of_resource_app, hours_of_resource_cons, hours_of_resource_nil.
  cbn [resource_id hours]. specialize (H x).
  destruct (Z.eqb x rid) eqn:E.
  - apply Z.eqb_eq in E. subst x. rewrite Z.eqb_refl. lra.
  - rewrite Z.eqb_sym, E. lra.
Qed.

Lemma hours_of_resource_nonneg (allocs : list Allocation) (rid : Z) :
  (forall a, In a allocs -> 0 < hours a) -> 0 <= hours_of_resource allocs rid.
Proof.
  intros H. unfold hours_of_resource. apply py_sum_map_nonneg.
  intros a Ha. apply filter_In in Ha as [Ha _]. apply Qlt_le_weak, H, Ha.
Qed.

(** Capacity and load invariant of the [resource_allocated] dict. *)
Lemma load_within_capacity (rs : list Resource) (st : AState) :
  NoDup (map r_id rs) ->
  cap_inv (resource_hours_init rs) st ->
  (forall x, st_load st x == hours_of_resource (st_allocs st) x) ->
  forall r, In r rs -> 0 <= st_load st (r_id r) <= available_hours r.
Proof.
  intros Hnd [Hc Hp] Hl r Hr. rewrite Hl.
  destruct (Hc (r_id r)) as [H1 H2].
  rewrite (resource_hours_init_In rs r Hnd Hr) in H2.
  pose proof (hours_of_resource_nonneg _ (r_id r) Hp). lra.
Qed.

Lemma load_inv_preserved (rs : list Resource) :
  (forall r, In r rs -> 0 <= available_hours r) ->
  let I := fun st => cap_inv (resource_hours_init rs) st /\
             (forall x, st_load st x == hours_of_resource (st_allocs st) x) in
  I (init_state rs) /\
  (forall st rid tid h, I st -> 0 < h -> h <= st_hours st rid ->
     I (commit st rid tid h)) /\
  (forall st, I st -> I (count_match st)).
Proof.
  intros Hav I. split; [|split].
  - split; [apply cap_inv_init, Hav|].
    intros x. cbn [init_state st_load st_allocs]. rewrite hours_of_resource_nil.
    reflexivity.
  - intros st rid tid h [H1 H2] Hh Hle.
    split; [apply cap_inv_commit; assumption|apply load_rel_commit, H2].
  - intros st H. exact H.
Qed.

(** X14. With distinct resource ids and non-negative available hours, the
    balance term of [_minimize_overload_allocation] is always 1 (no
    resource is loaded beyond its available hours), so its score is
    [coverage * 40 + 35]. *)
Theorem minimize_overload_score (fuel : nat) (rs : list Resource)
    (ts : list Task) (alt : Alternative)
    (Hrids : NoDup (map r_id rs))
    (Havail : forall r, In r rs -> 0 <= available_hours r)
    (Hres : minimize_overload_allocation fuel rs ts = Returns (Some alt)) :
  exists coverage max_load,
    explanation alt = ExplOverload coverage max_load /\
    score alt == coverage * 40 + 35.
Proof.
  unfold minimize_overload_allocation in Hres.
  destruct (Qeq_bool _ 0); [discriminate|].
  destruct (overload_run fuel rs ts) as [st|] eqn:E; [|discriminate].
  cbn [run_bind] in Hres. injection Hres as <-.
  destruct (load_inv_preserved rs Havail) as [Hi [Hc Hm]].
  pose proof (overload_run_preserves _ Hc fuel rs ts st Hi E) as [Hcap Hl].
  pose proof (load_within_capacity rs st Hrids Hcap Hl) as Hw.
  eexists; eexists; split; [reflexivity|]. cbn [score].
  rewrite (map_ext_in _ (fun _ => 0)).
  - destruct (Qlt_bool 0 (total_required_of ts)); [|ring].
    rewrite py_sum_map_zero. unfold Qdiv. ring.
  - intros r Hr. apply py_max_0_nonpos. destruct (Hw r Hr). lra.
Qed.

Lemma minimize_overload_score_witness :
  NoDup (map r_id scenario_resources) /\
  (forall r, In r scenario_resources -> 0 <= available_hours r) /\
  minimize_overload_allocation 100 scenario_resources scenario_tasks
    = Returns (Some overload_alt) /\
  exists coverage max_load,
    explanation overload_alt = ExplOverload coverage max_load /\
    score overload_alt == coverage * 40 + 35.
Proof.
  assert (H1 : NoDup (map r_id scenario_resources))
    by (repeat constructor; simpl; lia).
  assert (H2 : forall r, In r scenario_resources -> 0 <= available_hours r)
    by (intros r Hr; simpl in Hr; decompose sum Hr; subst; vm_compute;
        discriminate).
  assert (H3 : minimize_overload_allocation 100 scenario_resources scenario_tasks
                 = Returns (Some overload_alt)) by (vm_compute; reflexivity).
  split; [exact H1|]. split; [exact H2|]. split; [exact H3|].
  exact (minimize_overload_score 100 scenario_resources scenario_tasks
           overload_alt H1 H2 H3).
Defined.

(** X15. With distinct task ids, positive required hours and priorities
    between 1 and 5, the score of [_greedy_optimized_allocation], when it
    returns, lies in [0, 150]. *)
Theorem greedy_score_range (fuel : nat) (rs : list Resource) (ts : list Task)
    (alt : Alternative)
    (Hids : NoDup (map t_id ts))
    (Hreq : forall t, In t ts -> 0 < required_hours t)
    (Hprio : forall t, In t ts -> (1 <= priority t <= 5)%Z)
    (Hres : greedy_optimized_allocation fuel rs ts = Returns alt) :
  0 <= score alt <= 150.
Proof.
  unfold greedy_optimized_allocation in Hres.
  destruct (greedy_run fuel rs ts) as [st|] eqn:E; [|discriminate].
  cbv beta iota delta [run_bind] in Hres. injection Hres as <-.
  match goal with |- context [score (mkAlternative _ ?s _)] =>
    change (score (mkAlternative _ s _)) with s end.
  set (I := fun st : AState => 0 <= st_total st /\ (forall x, 0 <= st_load st x) /\
              (forall a, In a (st_allocs st) -> 0 < hours a)).
  assert (HI : I st).
  { apply (greedy_run_preserves I) with fuel rs ts; [|split; [apply Qle_refl|split;
      [intros x; apply Qle_refl|intros a []]]|exact E].
    - intros st0 rid tid h [H1 [H2 H3]] Hh _. unfold I. cbn [commit st_total st_load st_allocs].
      split; [lra|split].
      + intros x. unfold upd. destruct (Z.eqb x rid); [specialize (H2 rid)|]; 
          [lra|apply H2].
      + intros a Ha. apply in_app_or in Ha as [Ha|[<-|[]]]; [apply H3, Ha|exact Hh]. }
  destruct HI as [Htot [Hload Hpos]].
  assert (Hcov : 0 <= greedy_coverage_of ts st <= 1).
  { split; [|apply div_le_one, (greedy_total rs ts Hids Hreq fuel st E)].
    unfold greedy_coverage_of.
    destruct (Qlt_bool 0 (total_required_of ts)) eqn:Et; [|apply Qle_refl].
    apply Qlt_bool_iff in Et. apply Qle_shift_div_l; [exact Et|lra]. }
  set (eff := match rs with
              | [] => 0
              | _ => py_sum (map (fun r => py_min 1 (st_load st (r_id r) / available_hours r))
                               (filter (fun r => Qlt_bool 0 (available_hours r)) rs))
                     / py_len rs
              end).
  assert (Heff : 0 <= eff <= 1).
  { unfold eff. destruct rs as [|r0 rs0]; [lra|].
    assert (Hlen : 0 < py_len (r0 :: rs0))
      by (unfold py_len, Qlt; cbn [List.length Qnum Qden inject_Z]; lia).
    set (F := filter _ (r0 :: rs0)).
    split.
    - apply Qle_shift_div_l; [exact Hlen|]. rewrite Qmult_0_l.
      apply py_sum_map_nonneg. intros r Hr.
      apply filter_In in Hr as [_ Hr]. apply Qlt_bool_iff in Hr.
      unfold py_min. destruct (Qlt_bool _ 1); [|lra].
      apply Qle_shift_div_l; [exact Hr|]. rewrite Qmult_0_l. apply Hload.
    - apply Qle_shift_div_r; [exact Hlen|]. rewrite Qmult_1_l.
      eapply Qle_trans; [apply (py_sum_map_le _ (fun _ => 1))|].
      + intros r _. apply py_min_le_l.
      + rewrite py_sum_map_const, Qmult_1_l. unfold py_len, Qle.
        cbn [Qnum Qden inject_Z]. rewrite !Z.mul_1_r. apply Nat2Z.inj_le.
        apply filter_length_le. }
  set (pc := match ts with
             | [] => 0
             | _ => py_sum (map (fun t =>
                      inject_Z (6 - priority t)
                      * py_min 1 ((task_requirements_init ts (t_id t)
                                   - (task_requirements_init ts (t_id t)
                                      - hours_of_task (st_allocs st) (t_id t)))
                                  / task_requirements_init ts (t_id t)))
                      (sort_by_priority_size ts)) / py_len ts
             end).
  assert (Hpc : 0 <= pc <= 5).
  { unfold pc. destruct ts as [|t0 ts0]; [lra|].
    destruct (weighted_average_range (t0 :: ts0) (sort_by_priority_size (t0 :: ts0))
      (fun t => py_min 1 ((task_requirements_init (t0 :: ts0) (t_id t)
                           - (task_requirements_init (t0 :: ts0) (t_id t)
                              - hours_of_task (st_allocs st) (t_id t)))
                          / task_requirements_init (t0 :: ts0) (t_id t))))
      as [H1 H2].
    - apply stable_sort_perm.
    - discriminate.
    - intros t Ht. specialize (Hprio t Ht). lia.
    - intros t _. apply py_min_le_l.
    - split; [|exact H1]. apply H2. intros t Ht.
      rewrite task_requirements_init_In by assumption.
      pose proof (Hreq t Ht) as Hr.
      assert (0 <= hours_of_task (st_allocs st) (t_id t)).
      { unfold hours_of_task. apply py_sum_map_nonneg. intros a Ha.
        apply filter_In in Ha as [Ha _]. apply Qlt_le_weak, Hpos, Ha. }
      unfold py_min. destruct (Qlt_bool _ 1); [|lra].
      apply Qle_shift_div_l; [exact Hr|]. lra. }
  fold eff. match goal with |- context [?P * 15] => change P with pc end. lra.
Qed.

Lemma greedy_score_range_witness :
  NoDup (map t_id scenario_tasks) /\
  (forall t, In t scenario_tasks -> 0 < required_hours t) /\
  (forall t, In t scenario_tasks -> (1 <= priority t <= 5)%Z) /\
  greedy_optimized_allocation 100 scenario_resources scenario_tasks
    = Returns greedy_alt /\
  0 <= score greedy_alt <= 150.
Proof.
  assert (H1 : NoDup (map t_id scenario_tasks))
    by (repeat constructor; simpl; lia).
  assert (H2 : forall t, In t scenario_tasks -> 0 < required_hours t)
    by (intros t Ht; simpl in Ht; decompose sum Ht; subst; vm_compute;
        reflexivity).
  assert (H3 : forall t, In t scenario_tasks -> (1 <= priority t <= 5)%Z)
    by (intros t Ht; simpl in Ht; decompose sum Ht; subst; simpl; lia).
  assert (H4 : greedy_optimized_allocation 100 scenario_resources scenario_tasks
                 = Returns greedy_alt) by (vm_compute; reflexivity).
  split; [exact H1|]. split; [exact H2|]. split; [exact H3|]. split; [exact H4|].
  exact (greedy_score_range 100 scenario_resources scenario_tasks greedy_alt
           H1 H2 H3 H4).
Defined.


Lemma strategies_task_hours_within_requirement_witness :
  NoDup (map t_id scenario_tasks) /\
  (forall t, In t scenario_tasks -> 0 <= required_hours t) /\
  In (mkTask 1 (u "Develop feature") 8 1) scenario_tasks /\
  hours_of_task (allocations (priority_based_allocation scenario_resources
                                scenario_tasks)) 1 <= 8.
Proof.
  assert (H1 : NoDup (map t_id scenario_tasks))
    by (repeat constructor; simpl; lia).
  assert (H2 : forall t, In t scenario_tasks -> 0 <= required_hours t)
    by (intros t Ht; simpl in Ht; decompose sum Ht; subst; vm_compute;
        discriminate).
  assert (H3 : In (mkTask 1 (u "Develop feature") 8 1) scenario_tasks)
    by (left; reflexivity).
  split; [exact H1|]. split; [exact H2|]. split; [exact H3|].
  exact (strategies_task_hours_within_requirement 100 scenario_resources
           scenario_tasks _ _ H1 H2 H3 (or_introl eq_refl)).
Defined.

Lemma balanced_task_hours_within_share_witness :
  NoDup (map t_id scenario_tasks) /\
  (forall t, In t scenario_tasks -> 0 <= required_hours t) /\
  (forall r, In r scenario_resources -> 0 <= available_hours r) /\
  In (mkTask 1 (u "Develop feature") 8 1) scenario_tasks /\
  balanced_allocation scenario_resources scenario_tasks = Some balanced_alt /\
  hours_of_task (allocations balanced_alt) 1
    <= 8 / total_required_of scenario_tasks * total_available_of scenario_resources.
Proof.
  assert (H1 : NoDup (map t_id scenario_tasks))
    by (repeat constructor; simpl; lia).
  assert (H2 : forall t, In t scenario_tasks -> 0 <= required_hours t)
    by (intros t Ht; simpl in Ht; decompose sum Ht; subst; vm_compute;
        discriminate).
  assert (H3 : forall r, In r scenario_resources -> 0 <= available_hours r)
    by (intros r Hr; simpl in Hr; decompose sum Hr; subst; vm_compute;
        discriminate).
  assert (H4 : In (mkTask 1 (u "Develop feature") 8 1) scenario_tasks)
    by (left; reflexivity).
  assert (H5 : balanced_allocation scenario_resources scenario_tasks
                 = Some balanced_alt) by (vm_compute; reflexivity).
  split; [exact H1|]. split; [exact H2|]. split; [exact H3|].
  split; [exact H4|]. split; [exact H5|].
  exact (balanced_task_hours_within_share scenario_resources scenario_tasks _
           balanced_alt H1 H2 H3 H4 H5).
Defined.

Lemma generate_alternatives_from_strategies_witness :
  generate_alternatives 100 scenario_resources scenario_tasks
    = Returns scenario_output /\
  (List.length scenario_output <= 5)%nat /\
  forall alt, In alt scenario_output ->
    exists a, strategy_result 100 scenario_resources scenario_tasks a /\
      explanation alt = explanation a /\ score alt = score a /\
      allocations alt = normalized_allocations_of (allocations a) /\
      allocations alt <> [].
Proof.
  assert (H : generate_alternatives 100 scenario_resources scenario_tasks
                = Returns scenario_output) by (vm_compute; reflexivity).
  split; [exact H|].
  exact (generate_alternatives_from_strategies 100 scenario_resources
           scenario_tasks scenario_output H).
Defined.

Lemma generate_alternatives_known_ids_witness :
  generate_alternatives 100 scenario_resources scenario_tasks
    = Returns scenario_output /\
  forall alt a, In alt scenario_output -> In a (allocations alt) ->
    In (resource_id a) (map r_id scenario_resources) /\
    In (task_id a) (map t_id scenario_tasks).
Proof.
  assert (H : generate_alternatives 100 scenario_resources scenario_tasks
                = Returns scenario_output) by (vm_compute; reflexivity).
  split; [exact H|].
  exact (generate_alternatives_known_ids 100 scenario_resources scenario_tasks
           scenario_output H).
Defined.
